(** * createrepo_c: the indexing pipeline and the Python XML-parser bindings

    A shallow embedding of [src/createrepo_c.c] ([allowed_file],
    [dumper_thread], the walk, [main], [sigint_catcher]) and of
    [src/python/xml_parser-py.c] (the five entry points and the three C
    callbacks), with the properties the specification states about them and
    further properties read off the code.

    Conventions of the embedding.
    - Calls into GLib, libc, the compression wrapper, SQLite and the parts of
      createrepo_c that live in other files are oracles: the record [World]
      gives the outcome of each call, the program decides what to do with it.
    - Everything a thread does that another thread, a signal handler or the
      file system can observe is an [Event]; a thread is the list of events
      it performs, in program order.  [g_debug] and [g_message] lines are
      left out, [g_warning] and [g_critical] are kept: they do not stop the
      program (wherever the source wants to stop it calls [exit] itself).
    - [int package_count] is a mathematical integer: signed overflow is
      undefined in C, so the embedding speaks about runs with fewer than
      2^31 tasks. *)

From Stdlib Require Import ZArith Ascii String List Bool Lia Permutation.
From stdpp Require Import base option list gmap strings.

Local Open Scope string_scope.
Local Open Scope Z_scope.
Local Open Scope list_scope.

(* ===================================================================== *)
(** * Part I: definitions                                                 *)
(* ===================================================================== *)

(** ** Data model *)

(** Modelled from the spec: the dependency, file and changelog entries of a
    package record ([package.h] is not among the sources). *)
Record Dependency := {
  dep_name : string; dep_flags : string; dep_epoch : string;
  dep_version : string; dep_release : string; dep_pre : bool }.

Inductive FileType := FT_FILE | FT_DIR | FT_GHOST.

Record PackageFile := { pf_path : string; pf_type : FileType }.

Record ChangelogEntry := { cl_author : string; cl_date : Z; cl_text : string }.

(** Modelled from the spec: [Package] (the struct is declared in
    [package.h]).  The five fields [dumper_thread] touches keep the names the
    source uses: [time_file], [size_package], [checksum_type],
    [location_href], [location_base]; a [char *] that may be [NULL] is an
    [option]. *)
Record Package := {
  pkg_name : string; pkg_epoch : string; pkg_version : string;
  pkg_release : string; pkg_arch : string;
  pkgId : string;
  checksum_type : string;
  size_package : Z;
  time_file : Z;
  time_build : Z;
  pkg_provides : list Dependency; pkg_requires : list Dependency;
  pkg_conflicts : list Dependency; pkg_obsoletes : list Dependency;
  pkg_suggests : list Dependency; pkg_enhances : list Dependency;
  pkg_recommends : list Dependency; pkg_supplements : list Dependency;
  pkg_files : list PackageFile;
  pkg_changelogs : list ChangelogEntry;
  location_href : string;
  location_base : option string }.

(** Modelled from the spec: the checksum tags ([constants.h]). *)
Inductive ChecksumType := PKG_CHECKSUM_MD5 | PKG_CHECKSUM_SHA1
                        | PKG_CHECKSUM_SHA256 | PKG_CHECKSUM_SHA512.

(** Modelled from the spec: [get_checksum_name_str] ([misc.c]), the tag of a
    checksum type as it is stored in a record's [checksum_type]. *)
Definition get_checksum_name_str (t : ChecksumType) : string :=
  match t with
  | PKG_CHECKSUM_MD5 => "md5"
  | PKG_CHECKSUM_SHA1 => "sha1"
  | PKG_CHECKSUM_SHA256 => "sha256"
  | PKG_CHECKSUM_SHA512 => "sha512"
  end.

Inductive CompressionType :=
  UNKNOWN_COMPRESSION | GZ_COMPRESSION | BZ2_COMPRESSION | XZ_COMPRESSION.

(** [struct PoolTask]. *)
Record PoolTask := {
  task_full_path : string;
  task_filename : string;
  task_path : string }.

(** [struct stat], the two members the program reads. *)
Record StatBuf := { st_mtime : Z; st_size : Z }.

(** The three output documents; each has its [CW_FILE], its prepared
    statements and its lock ([LOCK_PRI], [LOCK_FIL], [LOCK_OTH]). *)
Inductive Sink := PRI | FIL | OTH.

Inductive Lock := LOCK_PRI | LOCK_FIL | LOCK_OTH.

(** What is written into a document.  [xml_dump] is not among the sources:
    a package fragment stands for the one [<package>] element of that record
    in that document. *)
Inductive Chunk :=
| XmlHeader (packages : Z)
| XmlPackage (doc : Sink) (pkg : Package)
| XmlFooter.

(** Modelled from the spec: [xml_dump] ([xml_dump.c]), one record to its
    three fragments. *)
Record XmlStruct := { primary : Chunk; filelists : Chunk; other : Chunk }.

Definition xml_dump (pkg : Package) : XmlStruct :=
  {| primary := XmlPackage PRI pkg;
     filelists := XmlPackage FIL pkg;
     other := XmlPackage OTH pkg |}.

(** [struct UserData]; the sinks themselves are in the event trace, the
    statements are present or [NULL]. *)
Record UserData := {
  ud_pri_statements : bool;
  ud_fil_statements : bool;
  ud_oth_statements : bool;
  ud_changelog_limit : Z;
  ud_location_base : option string;
  ud_repodir_name_len : nat;
  ud_checksum_type_str : string;
  ud_checksum_type : ChecksumType;
  ud_quiet : bool;
  ud_verbose : bool;
  ud_skip_symlinks : bool;
  ud_package_count : Z;
  ud_skip_stat : bool;
  ud_old_metadata : option (gmap string Package) }.

Inductive LogLevel := LOG_WARNING | LOG_CRITICAL.

Inductive MkdirResult := MKDIR_OK | MKDIR_EEXIST | MKDIR_ERR.

(** ** Events *)

Inductive Event :=
| EvLog (lvl : LogLevel) (msg : string)
(* worker *)
| EvStat (path : string)
| EvPackageFromFile (path : string)
| EvXmlDump (pkg : Package)
| EvLock (l : Lock)
| EvUnlock (l : Lock)
| EvCwPuts (f : Sink) (c : Chunk)
| EvAddPkgDb (f : Sink) (pkg : Package)
| EvPackageFree (pkg : Package)
| EvTaskFree (task : PoolTask)
(* main thread *)
| EvMkdir (path : string)
| EvSetTmpRepodataPath (p : option string)
| EvSigaction
| EvCopyFile (src dst : string) (ok : bool)
| EvLoadMetadata (path : string) (ok : bool)
| EvCwOpen (f : Sink)
| EvCwClose (f : Sink)
| EvOpenDb (f : Sink)
| EvCloseDb (f : Sink)
| EvPoolNew (max_threads : Z)
| EvPoolPush (task : PoolTask)
| EvCwPrintf (f : Sink) (c : Chunk)
| EvPoolSetMaxThreads (max_threads : Z)
| EvPoolFree
| EvRemoveMetadata (dir : string)
| EvRename (src dst : string) (ok : bool)
| EvRmdir (path : string) (ok : bool)
| EvFillMissingData (path : string) (ok : bool)
| EvProcessGroupfile (path : string)
| EvDbinfoUpdate (f : Sink)
| EvCompressFile (path : string) (ok : bool)
| EvRemove (path : string)
| EvRenameFile (path : string)
| EvWriteRepomd (path : string)
(* signal handler *)
| EvRemoveDir (path : string).

(** ** The world: outcomes of the calls the program makes *)

Record World := {
  (* stat(2): [None] is a return value of -1 *)
  stat : string -> option StatBuf;
  (* [package_from_file]: [None] is [NULL] *)
  package_from_file :
    string -> ChecksumType -> string -> option string -> Z -> option Package;
  (* [g_dir_open] and the names [g_dir_read_name] then gives, in order;
     [None]: the directory cannot be opened *)
  g_dir_open : string -> option (list string);
  (* [g_file_test]; every test but IS_SYMLINK follows symbolic links *)
  g_file_test_exists : string -> bool;
  g_file_test_is_regular : string -> bool;
  g_file_test_is_dir : string -> bool;
  g_file_test_is_symlink : string -> bool;
  (* [g_pattern_match] of a compiled mask against a string *)
  g_pattern_match : string -> string -> bool;
  normalize_dir_path : string -> string;
  get_filename : string -> string;
  check_arguments : bool;
  g_mkdir : string -> MkdirResult;
  sigaction_ok : bool;
  better_copy_file : string -> string -> bool;
  (* [locate_and_load_xml_metadata] on a repository path: its return code
     and the (key, record) pairs it puts into the table, in order *)
  repo_metadata : string -> bool * list (string * Package);
  cw_open : Sink -> bool;
  prepare_db_statements : Sink -> bool;
  g_rename : string -> string -> bool;
  g_rmdir : string -> bool;
  fill_missing_data : string -> bool;
  compress_file : string -> bool;
  xml_repomd : bool;
  fopen_w : string -> bool }.

(** ** [dumper_thread] *)

(** [p + n] on a C string. *)
Definition str_drop (n : nat) (s : string) : string :=
  substring n (String.length s - n) s.

(** lines 157-166: is the record found in the old metadata still good?
    [stat_buf] holds a value exactly when the thread called [stat]; both
    strings given to [strcmp] are taken to be there (not [NULL]). *)
Definition old_md_usable (udata : UserData) (stat_buf : option StatBuf)
    (md : Package) : bool :=
  if ud_skip_stat udata then true
  else match stat_buf with
       | Some sb =>
           (st_mtime sb =? time_file md)
           && (st_size sb =? size_package md)
           && String.eqb (ud_checksum_type_str udata) (checksum_type md)
       | None => false
       end.

(** lines 171-172 *)
Definition set_locations (md : Package) (href : string) (base : option string)
    : Package :=
  {| pkg_name := pkg_name md; pkg_epoch := pkg_epoch md;
     pkg_version := pkg_version md; pkg_release := pkg_release md;
     pkg_arch := pkg_arch md; pkgId := pkgId md;
     checksum_type := checksum_type md; size_package := size_package md;
     time_file := time_file md; time_build := time_build md;
     pkg_provides := pkg_provides md; pkg_requires := pkg_requires md;
     pkg_conflicts := pkg_conflicts md; pkg_obsoletes := pkg_obsoletes md;
     pkg_suggests := pkg_suggests md; pkg_enhances := pkg_enhances md;
     pkg_recommends := pkg_recommends md;
     pkg_supplements := pkg_supplements md;
     pkg_files := pkg_files md; pkg_changelogs := pkg_changelogs md;
     location_href := href;
     location_base := base |}.

Definition statements_of (udata : UserData) (f : Sink) : bool :=
  match f with
  | PRI => ud_pri_statements udata
  | FIL => ud_fil_statements udata
  | OTH => ud_oth_statements udata
  end.

Definition lock_of (f : Sink) : Lock :=
  match f with PRI => LOCK_PRI | FIL => LOCK_FIL | OTH => LOCK_OTH end.

(** One of the three blocks of lines 190-212. *)
Definition write_sink (udata : UserData) (f : Sink) (c : Chunk) (pkg : Package)
    : list Event :=
  [EvLock (lock_of f); EvCwPuts f c]
  ++ (if statements_of udata f then [EvAddPkgDb f pkg] else [])
  ++ [EvUnlock (lock_of f)].

(** lines 190-212 *)
Definition write_sinks (udata : UserData) (res : XmlStruct) (pkg : Package)
    : list Event :=
  write_sink udata PRI (primary res) pkg
  ++ write_sink udata FIL (filelists res) pkg
  ++ write_sink udata OTH (other res) pkg.

(** What one call of [dumper_thread] did: its events, the table of old
    metadata afterwards (a used record is updated in place), the value of
    [old_used] and the record handed to the sinks, if any. *)
Record TaskResult := {
  tr_events : list Event;
  tr_old_metadata : option (gmap string Package);
  tr_old_used : bool;
  tr_pkg : option Package }.

Definition dumper_thread (w : World) (udata : UserData) (task : PoolTask)
    : TaskResult :=
  let location_href := str_drop (ud_repodir_name_len udata) (task_full_path task) in
  let location_base := ud_location_base udata in
  let do_stat :=
    match ud_old_metadata udata with
    | Some _ => negb (ud_skip_stat udata)
    | None => false
    end in
  let stat_buf := if do_stat then stat w (task_full_path task) else None in
  if do_stat && negb (bool_decide (is_Some stat_buf)) then
    (* line 136-139: return, nothing is freed *)
    {| tr_events := [EvStat (task_full_path task);
                     EvLog LOG_CRITICAL ("Stat() on " +:+ task_full_path task)];
       tr_old_metadata := ud_old_metadata udata;
       tr_old_used := false;
       tr_pkg := None |}
  else
    let stat_ev := if do_stat then [EvStat (task_full_path task)] else [] in
    let md := ud_old_metadata udata ≫= (fun ht => ht !! task_filename task) in
    let old_used :=
      match md with
      | Some md0 => old_md_usable udata stat_buf md0
      | None => false
      end in
    match old_used, md with
    | true, Some md0 =>
        let md' := set_locations md0 location_href location_base in
        {| tr_events := stat_ev ++ [EvXmlDump md']
                        ++ write_sinks udata (xml_dump md') md'
                        ++ [EvTaskFree task];
           tr_old_metadata :=
             (fun ht => <[task_filename task := md']> ht) <$> ud_old_metadata udata;
           tr_old_used := true;
           tr_pkg := Some md' |}
    | _, _ =>
        match package_from_file w (task_full_path task) (ud_checksum_type udata)
                location_href (ud_location_base udata)
                (ud_changelog_limit udata) with
        | None =>
            {| tr_events := stat_ev ++ [EvPackageFromFile (task_full_path task);
                 EvLog LOG_WARNING ("Cannot read package: " +:+ task_full_path task);
                 EvTaskFree task];
               tr_old_metadata := ud_old_metadata udata;
               tr_old_used := false;
               tr_pkg := None |}
        | Some pkg =>
            {| tr_events := stat_ev ++ [EvPackageFromFile (task_full_path task);
                                        EvXmlDump pkg]
                            ++ write_sinks udata (xml_dump pkg) pkg
                            ++ [EvPackageFree pkg; EvTaskFree task];
               tr_old_metadata := ud_old_metadata udata;
               tr_old_used := false;
               tr_pkg := Some pkg |}
        end
    end.

(** Locks held after an event, given those held before it. *)
Definition Lock_eqb (a b : Lock) : bool :=
  match a, b with
  | LOCK_PRI, LOCK_PRI | LOCK_FIL, LOCK_FIL | LOCK_OTH, LOCK_OTH => true
  | _, _ => false
  end.

Definition lock_step (held : list Lock) (e : Event) : list Lock :=
  match e with
  | EvLock l => l :: held
  | EvUnlock l => List.filter (fun l' => negb (Lock_eqb l l')) held
  | _ => held
  end.

(** The sets of locks a thread holds after each of its events. *)
Fixpoint held_history (held : list Lock) (evs : list Event) : list (list Lock) :=
  match evs with
  | [] => []
  | e :: evs' => lock_step held e :: held_history (lock_step held e) evs'
  end.

Definition is_lock_event (e : Event) : bool :=
  match e with EvLock _ | EvUnlock _ => true | _ => false end.

(** ** The main thread: a trace-writing monad with [exit] *)

(** A computation ends with a value, with [exit status] (also [return status]
    from [main]) or, for the directory walk only, without an answer from the
    model: [OutOfFuel]. *)
Inductive Res (A : Type) :=
| Ret (a : A)
| Exit (status : Z)
| OutOfFuel.
Arguments Ret {A} a.
Arguments Exit {A} status.
Arguments OutOfFuel {A}.

Record M (A : Type) := mkM { m_trace : list Event; m_res : Res A }.
Arguments mkM {A} m_trace m_res.
Arguments m_trace {A} m.
Arguments m_res {A} m.

#[export] Instance M_ret : MRet M := fun A a => mkM [] (Ret a).

#[export] Instance M_bind : MBind M := fun A B f m =>
  match m_res m with
  | Ret a => mkM (m_trace m ++ m_trace (f a)) (m_res (f a))
  | Exit status => mkM (m_trace m) (Exit status)
  | OutOfFuel => mkM (m_trace m) OutOfFuel
  end.

Definition emit (e : Event) : M unit := mkM [e] (Ret tt).
Definition emits (es : list Event) : M unit := mkM es (Ret tt).
Definition exit {A} (status : Z) : M A := mkM [] (Exit status).
Definition g_warning (msg : string) : M unit := emit (EvLog LOG_WARNING msg).
Definition g_critical (msg : string) : M unit := emit (EvLog LOG_CRITICAL msg).
Definition when (b : bool) (m : M unit) : M unit := if b then m else mret tt.

(** [struct CmdOptions] ([cmd_parser.h]), the members [main] reads, with
    the values [check_arguments] leaves in them.  A [GSList] is a list,
    [NULL] the empty one; a compiled exclude mask is named by its pattern.
    Two members share their name with a field of [Package] and carry the
    prefix [opt_] here. *)
Record CmdOptions := {
  outputdir : option string;
  quiet : bool;
  verbose : bool;
  groupfile_fullpath : option string;
  update : bool;
  l_update_md_paths : list string;
  compression_type : CompressionType;
  xz_compression : bool;
  no_database : bool;
  changelog_limit : Z;
  opt_location_base : option string;
  opt_checksum_type : ChecksumType;
  skip_symlinks : bool;
  skip_stat : bool;
  workers : Z;
  include_pkgs : list string;
  exclude_masks : list string;
  unique_md_filenames : bool }.

(** ** [allowed_file] *)

Fixpoint allowed_by (w : World) (filename : string) (masks : list string) : bool :=
  match masks with
  | [] => true
  | mask :: masks' =>
      if g_pattern_match w mask filename then false
      else allowed_by w filename masks'
  end.

Definition allowed_file (w : World) (filename : string) (options : CmdOptions)
    : bool :=
  allowed_by w filename (exclude_masks options).

(** ** The walk (lines 539-653) *)

Definition g_str_has_suffix (s suffix : string) : bool :=
  let n := String.length s in
  let k := String.length suffix in
  (k <=? n)%nat && String.eqb (substring (n - k) k s) suffix.

(** What the body of the inner loop does with one directory entry. *)
Inductive EntryAction :=
| ScanDir (sub_dir : string)     (* pushed on [sub_dirs] *)
| SkipEntry
| AddPkg (task : PoolTask).      (* pushed into the pool *)

(** lines 567-604, one iteration *)
Definition walk_entry (w : World) (cmd_options : CmdOptions) (in_dir_len : nat)
    (dirname filename : string) : EntryAction :=
  let full_path := dirname +:+ "/" +:+ filename in
  if negb (g_str_has_suffix filename ".rpm") then
    if negb (g_file_test_is_regular w full_path) && g_file_test_is_dir w full_path
    then ScanDir full_path
    else SkipEntry
  else if skip_symlinks cmd_options && g_file_test_is_symlink w full_path then
    SkipEntry
  else
    let repo_relative_path :=
      if (in_dir_len <? String.length full_path)%nat
      then str_drop in_dir_len full_path
      else filename in
    if allowed_file w repo_relative_path cmd_options then
      AddPkg {| task_full_path := full_path;
                task_filename := filename;
                task_path := dirname |}
    else SkipEntry.

(** lines 565-605: the entries of one directory.  [g_queue_push_head] puts a
    directory in front of [sub_dirs]. *)
Fixpoint read_dir (w : World) (cmd_options : CmdOptions) (in_dir_len : nat)
    (dirname : string) (names : list string)
    (sub_dirs : list string) (package_count : Z)
    : list Event * list string * Z :=
  match names with
  | [] => ([], sub_dirs, package_count)
  | filename :: names' =>
      match walk_entry w cmd_options in_dir_len dirname filename with
      | ScanDir sub_dir =>
          read_dir w cmd_options in_dir_len dirname names'
                   (sub_dir :: sub_dirs) package_count
      | SkipEntry =>
          read_dir w cmd_options in_dir_len dirname names' sub_dirs package_count
      | AddPkg task =>
          let '(evs, sub_dirs', n) :=
            read_dir w cmd_options in_dir_len dirname names'
                     sub_dirs (package_count + 1) in
          (EvPoolPush task :: evs, sub_dirs', n)
      end
  end.

(** lines 555-609: [g_queue_pop_head] takes the directory in front.  One
    unit of fuel per directory taken from the queue. *)
Fixpoint walk_dirs (fuel : nat) (w : World) (cmd_options : CmdOptions)
    (in_dir_len : nat) (sub_dirs : list string) (package_count : Z)
    : option (list Event * Z) :=
  match fuel with
  | O => None
  | S fuel' =>
      match sub_dirs with
      | [] => Some ([], package_count)
      | dirname :: rest =>
          match g_dir_open w dirname with
          | None =>
              '(evs, n) ← walk_dirs fuel' w cmd_options in_dir_len rest package_count;
              Some (EvLog LOG_WARNING ("Cannot open directory: " +:+ dirname) :: evs, n)
          | Some names =>
              let '(evs1, sub_dirs', n1) :=
                read_dir w cmd_options in_dir_len dirname names rest package_count in
              '(evs2, n2) ← walk_dirs fuel' w cmd_options in_dir_len sub_dirs' n1;
              Some ((evs1 ++ evs2)%list, n2)
          end
      end
  end.

(** lines 627-632: the index the loop stops at; index 0 is not looked at. *)
Fixpoint last_slash (relative_path : string) (x : nat) : nat :=
  match x with
  | O => O
  | S x' =>
      match String.get x relative_path with
      | Some "/"%char => x
      | _ => last_slash relative_path x'
      end
  end.

(** lines 619-652 *)
Fixpoint walk_pkglist (w : World) (cmd_options : CmdOptions) (in_dir : string)
    (pkgs : list string) (package_count : Z) : list Event * Z :=
  match pkgs with
  | [] => ([], package_count)
  | relative_path :: pkgs' =>
      let full_path := in_dir +:+ relative_path in
      let x := last_slash relative_path (String.length relative_path) in
      let filename :=
        if (x =? 0)%nat then relative_path
        else str_drop (x + 1) relative_path in
      let dirname := substring 0 x relative_path in
      if allowed_file w filename cmd_options then
        let '(evs, n) := walk_pkglist w cmd_options in_dir pkgs' (package_count + 1) in
        (EvPoolPush {| task_full_path := full_path;
                       task_filename := filename;
                       task_path := dirname |} :: evs, n)
      else walk_pkglist w cmd_options in_dir pkgs' package_count
  end.

(** lines 541-655 *)
Definition walk (fuel : nat) (w : World) (cmd_options : CmdOptions)
    (in_dir : string) : M Z :=
  match include_pkgs cmd_options with
  | [] =>
      let in_dir_len := String.length in_dir in
      let input_dir_stripped := substring 0 (in_dir_len - 1) in_dir in
      match walk_dirs fuel w cmd_options in_dir_len [input_dir_stripped] 0 with
      | Some (evs, n) => mkM evs (Ret n)
      | None => mkM [] OutOfFuel
      end
  | pkgs =>
      let '(evs, n) := walk_pkglist w cmd_options in_dir pkgs 0 in
      mkM evs (Ret n)
  end.

(** ** Loading old metadata (lines 371-414) *)

(** Modelled from the spec: [locate_and_load_xml_metadata] ([load_metadata.c]
    is not among the sources) puts the records of one repository into the
    table under their file names; an entry loaded later replaces an earlier
    one with the same key.  The [World] gives the records and the return
    code. *)
Definition locate_and_load_xml_metadata (w : World)
    (hashtable : gmap string Package) (repopath : string)
    : bool * gmap string Package :=
  (fst (repo_metadata w repopath),
   fold_left (fun ht kv => <[fst kv := snd kv]> ht)
             (snd (repo_metadata w repopath)) hashtable).

(** lines 400-411 *)
Fixpoint load_update_md_paths (w : World) (old_metadata : gmap string Package)
    (paths : list string) : M (gmap string Package) :=
  match paths with
  | [] => mret old_metadata
  | path :: paths' =>
      let r := locate_and_load_xml_metadata w old_metadata path in
      emit (EvLoadMetadata path (fst r));;
      when (negb (fst r)) (g_warning ("Old metadata from md-path - loading failed: " +:+ path));;
      load_update_md_paths w (snd r) paths'
  end.

Definition load_old_metadata (w : World) (cmd_options : CmdOptions)
    (in_dir out_dir : string) : M (option (gmap string Package)) :=
  if update cmd_options then
    ht1 ← match outputdir cmd_options with
          | Some _ =>
              let r := locate_and_load_xml_metadata w ∅ out_dir in
              emit (EvLoadMetadata out_dir (fst r));; mret (snd r)
          | None => mret ∅
          end;
    let r := locate_and_load_xml_metadata w ht1 in_dir in
    emit (EvLoadMetadata in_dir (fst r));;
    ht3 ← load_update_md_paths w (snd r) (l_update_md_paths cmd_options);
    mret (Some ht3)
  else mret None.

(** ** [main] *)

Record Dirs := {
  in_dir : string;        (* path/to/repo/ *)
  in_repo : string;       (* path/to/repo/repodata/ *)
  out_dir : string;       (* path/to/out_repo/ *)
  out_repo : string;      (* path/to/out_repo/repodata/ *)
  tmp_out_repo : string   (* path/to/out_repo/.repodata/ *) }.

(** lines 270, 317-327 *)
Definition set_paths (w : World) (cmd_options : CmdOptions) (argv1 : string)
    : Dirs :=
  let in_dir := normalize_dir_path w argv1 in
  let in_repo := in_dir +:+ "repodata/" in
  match outputdir cmd_options with
  | Some o =>
      let out_dir := normalize_dir_path w o in
      {| in_dir := in_dir; in_repo := in_repo; out_dir := out_dir;
         out_repo := out_dir +:+ "repodata/";
         tmp_out_repo := out_dir +:+ ".repodata/" |}
  | None =>
      {| in_dir := in_dir; in_repo := in_repo; out_dir := in_dir;
         out_repo := in_repo;
         tmp_out_repo := in_dir +:+ ".repodata/" |}
  end.

(** lines 276-290 *)
Definition check_input (w : World) (d : Dirs) : M unit :=
  when (negb (g_file_test_exists w (in_dir d) || g_file_test_is_dir w (in_dir d)))
       (g_warning ("Directory must exist: " +:+ in_dir d);; exit 1);;
  when (negb (check_arguments w)) (exit 1).

(** lines 332-340 *)
Definition create_tmp_out_repo (w : World) (d : Dirs) : M unit :=
  match g_mkdir w (tmp_out_repo d) with
  | MKDIR_OK => emit (EvMkdir (tmp_out_repo d))
  | MKDIR_EEXIST =>
      g_critical ("Temporary repodata directory already exists: " +:+ tmp_out_repo d);;
      exit 1
  | MKDIR_ERR =>
      g_critical ("Error while creating temporary repodata directory: " +:+ tmp_out_repo d);;
      exit 1
  end.

(** lines 345-355 *)
Definition setup_sigint (w : World) (d : Dirs) : M unit :=
  emit (EvSetTmpRepodataPath (Some (tmp_out_repo d)));;
  if sigaction_ok w then emit EvSigaction
  else (g_critical "sigaction()";; exit 1).

(** lines 361-368 *)
Definition copy_groupfile (w : World) (cmd_options : CmdOptions) (d : Dirs)
    : M (option string) :=
  match groupfile_fullpath cmd_options with
  | Some gf =>
      let groupfile := tmp_out_repo d +:+ get_filename w gf in
      let ok := better_copy_file w gf groupfile in
      emit (EvCopyFile gf groupfile ok);;
      when (negb ok) (g_critical ("Error while copy " +:+ gf));;
      mret (Some groupfile)
  | None => mret None
  end.

(** lines 419-431 *)
Definition sqlite_compression (cmd_options : CmdOptions) : CompressionType :=
  if xz_compression cmd_options then XZ_COMPRESSION
  else match compression_type cmd_options with
       | UNKNOWN_COMPRESSION => BZ2_COMPRESSION
       | c => c
       end.

(** Modelled from the spec: [get_suffix] ([compression_wrapper.c]). *)
Definition get_suffix (c : CompressionType) : string :=
  match c with
  | GZ_COMPRESSION => ".gz"
  | BZ2_COMPRESSION => ".bz2"
  | XZ_COMPRESSION => ".xz"
  | UNKNOWN_COMPRESSION => ""
  end.

(** lines 449-474 *)
Definition open_xml_files (w : World) : M unit :=
  (if cw_open w PRI then emit (EvCwOpen PRI)
   else (g_critical "Cannot open file: primary.xml.gz";; exit 1));;
  (if cw_open w FIL then emit (EvCwOpen FIL)
   else (g_critical "Cannot open file: filelists.xml.gz";;
         emit (EvCwClose PRI);; exit 1));;
  (if cw_open w OTH then emit (EvCwOpen OTH)
   else (g_critical "Cannot open file: other.xml.gz";;
         emit (EvCwClose FIL);; emit (EvCwClose PRI);; exit 1)).

(** lines 489-500: the three statement handles, [false] for [NULL] *)
Definition open_databases (w : World) (cmd_options : CmdOptions)
    : M (bool * bool * bool) :=
  if no_database cmd_options then mret (false, false, false)
  else
    emits [EvOpenDb PRI; EvOpenDb FIL; EvOpenDb OTH];;
    mret (prepare_db_statements w PRI, prepare_db_statements w FIL,
          prepare_db_statements w OTH).

(** lines 510-526 and 673 *)
Definition user_data (cmd_options : CmdOptions) (d : Dirs)
    (statements : bool * bool * bool)
    (old_metadata : option (gmap string Package)) (package_count : Z)
    : UserData :=
  {| ud_pri_statements := fst (fst statements);
     ud_fil_statements := snd (fst statements);
     ud_oth_statements := snd statements;
     ud_changelog_limit := changelog_limit cmd_options;
     ud_location_base := opt_location_base cmd_options;
     ud_repodir_name_len := String.length (in_dir d);
     ud_checksum_type_str := get_checksum_name_str (opt_checksum_type cmd_options);
     ud_checksum_type := opt_checksum_type cmd_options;
     ud_quiet := quiet cmd_options;
     ud_verbose := verbose cmd_options;
     ud_skip_symlinks := skip_symlinks cmd_options;
     ud_package_count := package_count;
     ud_skip_stat := skip_stat cmd_options;
     ud_old_metadata := old_metadata |}.

(** lines 663-668 *)
Definition write_xml_headers (package_count : Z) : M unit :=
  emits [EvCwPrintf PRI (XmlHeader package_count);
         EvCwPrintf FIL (XmlHeader package_count);
         EvCwPrintf OTH (XmlHeader package_count)].

(** lines 683-700 *)
Definition close_xml_files : M unit :=
  emits [EvCwPuts PRI XmlFooter; EvCwPuts FIL XmlFooter; EvCwPuts OTH XmlFooter;
         EvCwClose PRI; EvCwClose FIL; EvCwClose OTH;
         EvCloseDb PRI; EvCloseDb FIL; EvCloseDb OTH].

(** lines 721-733 *)
Fixpoint move_files (w : World) (d : Dirs) (names : list string) : M unit :=
  match names with
  | [] => mret tt
  | filename :: names' =>
      let full_path := out_repo d +:+ filename in
      let new_full_path := tmp_out_repo d +:+ filename in
      let ok := g_rename w full_path new_full_path in
      emit (EvRename full_path new_full_path ok);;
      when (negb ok) (g_critical ("Cannot move file " +:+ full_path));;
      move_files w d names'
  end.

(** lines 706-743 *)
Definition move_old_repo (w : World) (d : Dirs) : M unit :=
  if g_file_test_exists w (out_repo d) then
    emit (EvRemoveMetadata (out_dir d));;
    match g_dir_open w (out_repo d) with
    | None => g_critical ("Cannot open directory: " +:+ out_repo d);; exit 1
    | Some names =>
        move_files w d names;;
        emit (EvRmdir (out_repo d) (g_rmdir w (out_repo d)));;
        when (negb (g_rmdir w (out_repo d)))
             (g_critical ("Cannot remove " +:+ out_repo d))
    end
  else mret tt.

(** lines 747-751: the swap.  A failure is logged, nothing else. *)
Definition rename_tmp_out_repo (w : World) (d : Dirs) : M unit :=
  emit (EvRename (tmp_out_repo d) (out_repo d)
                 (g_rename w (tmp_out_repo d) (out_repo d)));;
  when (negb (g_rename w (tmp_out_repo d) (out_repo d)))
       (g_critical ("Cannot rename " +:+ tmp_out_repo d)).

(** [fill_missing_data (out_dir, rec, ...)]: the result is not looked at. *)
Definition fill_missing (w : World) (d : Dirs) (location : string) : Event :=
  EvFillMissingData (out_dir d +:+ location)
                    (fill_missing_data w (out_dir d +:+ location)).

Definition compress (w : World) (path : string) : Event :=
  EvCompressFile path (compress_file w path).

(** lines 790-848 *)
Definition finish_databases (w : World) (cmd_options : CmdOptions) (d : Dirs)
    : M unit :=
  if no_database cmd_options then mret tt
  else
    let suffix := get_suffix (sqlite_compression cmd_options) in
    let tmp_pri_db_path := out_dir d +:+ "repodata/primary.sqlite" in
    let tmp_fil_db_path := out_dir d +:+ "repodata/filelists.sqlite" in
    let tmp_oth_db_path := out_dir d +:+ "repodata/other.sqlite" in
    emits [EvOpenDb PRI; EvOpenDb FIL; EvOpenDb OTH;
           EvDbinfoUpdate PRI; EvDbinfoUpdate FIL; EvDbinfoUpdate OTH;
           EvCloseDb PRI; EvCloseDb FIL; EvCloseDb OTH;
           compress w tmp_pri_db_path; compress w tmp_fil_db_path;
           compress w tmp_oth_db_path;
           EvRemove tmp_pri_db_path; EvRemove tmp_fil_db_path;
           EvRemove tmp_oth_db_path;
           fill_missing w d ("repodata/primary.sqlite" +:+ suffix);
           fill_missing w d ("repodata/filelists.sqlite" +:+ suffix);
           fill_missing w d ("repodata/other.sqlite" +:+ suffix)].

(** lines 853-862; a record that is [NULL] has no file to rename *)
Definition unique_names (w : World) (cmd_options : CmdOptions)
    (groupfile : option string) : M unit :=
  if unique_md_filenames cmd_options then
    let suffix := get_suffix (sqlite_compression cmd_options) in
    emits ([EvRenameFile "repodata/primary.xml.gz";
            EvRenameFile "repodata/filelists.xml.gz";
            EvRenameFile "repodata/other.xml.gz"]
           ++ (if no_database cmd_options then []
               else [EvRenameFile ("repodata/primary.sqlite" +:+ suffix);
                     EvRenameFile ("repodata/filelists.sqlite" +:+ suffix);
                     EvRenameFile ("repodata/other.sqlite" +:+ suffix)])
           ++ match groupfile with
              | Some g => [EvRenameFile ("repodata/" +:+ get_filename w g);
                           EvRenameFile ("repodata/" +:+ get_filename w g)]
              | None => []
              end)%list
  else mret tt.

(** lines 867-884 *)
Definition write_repomd (w : World) (d : Dirs) : M unit :=
  let repomd_path := out_repo d +:+ "repomd.xml" in
  if negb (fopen_w w repomd_path) || negb (xml_repomd w) then
    g_critical "Generate of repomd.xml failed";; exit 1
  else emit (EvWriteRepomd repomd_path).

(** Everything before the thread pool exists: lines 262-526.  The result is
    the group file, the table of old metadata and the statement handles. *)
Definition main_setup (w : World) (cmd_options : CmdOptions) (d : Dirs)
    : M (option string * option (gmap string Package) * (bool * bool * bool)) :=
  check_input w d;;
  create_tmp_out_repo w d;;
  setup_sigint w d;;
  groupfile ← copy_groupfile w cmd_options d;
  old_metadata ← load_old_metadata w cmd_options (in_dir d) (out_dir d);
  open_xml_files w;;
  statements ← open_databases w cmd_options;
  mret (groupfile, old_metadata, statements).

(** Lines 531-700: the pool is created, the walk queues the tasks, the
    headers are written, the pool is started and waited for, the documents
    are closed.  The result is [package_count]. *)
Definition main_index (fuel : nat) (w : World) (cmd_options : CmdOptions)
    (d : Dirs) : M Z :=
  emit (EvPoolNew 0);;
  package_count ← walk fuel w cmd_options (in_dir d);
  write_xml_headers package_count;;
  emit (EvPoolSetMaxThreads (workers cmd_options));;
  emit EvPoolFree;;
  close_xml_files;;
  mret package_count.

(** Lines 703-923. *)
Definition main_finalize (w : World) (cmd_options : CmdOptions) (d : Dirs)
    (groupfile : option string) : M unit :=
  move_old_repo w d;;
  rename_tmp_out_repo w d;;
  emits [fill_missing w d "repodata/primary.xml.gz";
         fill_missing w d "repodata/filelists.xml.gz";
         fill_missing w d "repodata/other.xml.gz"];;
  match groupfile with
  | Some g => emit (EvProcessGroupfile ("repodata/" +:+ get_filename w g))
  | None => mret tt
  end;;
  finish_databases w cmd_options d;;
  unique_names w cmd_options groupfile;;
  write_repomd w d;;
  emit (EvSetTmpRepodataPath None).

(** [main], after the arguments are parsed.  A run that returns 0 ends in
    [Ret udata], the [struct UserData] the workers were given. *)
Definition main (fuel : nat) (w : World) (cmd_options : CmdOptions)
    (argv1 : string) : M UserData :=
  let d := set_paths w cmd_options argv1 in
  '(groupfile, old_metadata, statements) ← main_setup w cmd_options d;
  package_count ← main_index fuel w cmd_options d;
  main_finalize w cmd_options d groupfile;;
  mret (user_data cmd_options d statements old_metadata package_count).

(** The exit status of a run, if the model has an answer. *)
Definition exit_status {A} (m : M A) : option Z :=
  match m_res m with
  | Ret _ => Some 0
  | Exit status => Some status
  | OutOfFuel => None
  end.

(** ** [sigint_catcher] *)



(** ** The thread pool and the workers *)

(** GLib's pool as this program uses it (an exclusive pool): tasks wait in a
    FIFO queue; at most [max_threads] calls of [dumper_thread] run at a time,
    none while [max_threads] is 0; [g_thread_pool_set_max_threads] refuses a
    negative number for an exclusive pool. *)
Record Pool := { pool_max_threads : Z; pool_queue : list PoolTask }.

Definition set_old_metadata (udata : UserData)
    (ht : option (gmap string Package)) : UserData :=
  {| ud_pri_statements := ud_pri_statements udata;
     ud_fil_statements := ud_fil_statements udata;
     ud_oth_statements := ud_oth_statements udata;
     ud_changelog_limit := ud_changelog_limit udata;
     ud_location_base := ud_location_base udata;
     ud_repodir_name_len := ud_repodir_name_len udata;
     ud_checksum_type_str := ud_checksum_type_str udata;
     ud_checksum_type := ud_checksum_type udata;
     ud_quiet := ud_quiet udata;
     ud_verbose := ud_verbose udata;
     ud_skip_symlinks := ud_skip_symlinks udata;
     ud_package_count := ud_package_count udata;
     ud_skip_stat := ud_skip_stat udata;
     ud_old_metadata := ht |}.

(** The process: what the main thread still has to do, the pool, the calls of
    [dumper_thread] that were started (each with the events it still has to
    do), the user data the workers share and everything done so far, oldest
    first. *)
Record Sys := {
  sys_main : list Event;
  sys_pool : option Pool;
  sys_workers : list (list Event);
  sys_udata : UserData;
  sys_history : list Event }.

Definition sys_init (trace : list Event) (udata : UserData) : Sys :=
  {| sys_main := trace; sys_pool := None; sys_workers := [];
     sys_udata := udata; sys_history := [] |}.

(** The effect of an event of the main thread on the pool. *)
Definition pool_after (e : Event) (pool : option Pool) : option Pool :=
  match e with
  | EvPoolNew n => Some {| pool_max_threads := n; pool_queue := [] |}
  | EvPoolPush t =>
      (fun p => {| pool_max_threads := pool_max_threads p;
                   pool_queue := (pool_queue p ++ [t])%list |}) <$> pool
  | EvPoolSetMaxThreads n =>
      if 0 <=? n
      then (fun p => {| pool_max_threads := n; pool_queue := pool_queue p |}) <$> pool
      else pool
  | _ => pool
  end.

Definition running (workers : list (list Event)) : nat :=
  length (List.filter (fun evs => negb (bool_decide (evs = []))) workers).

Inductive Choice :=
| RunMain                (* the main thread does its next event *)
| Dispatch               (* the pool starts the task at the head of the queue *)
| RunWorker (i : nat).   (* worker call [i] does its next event *)

(** One step of the process under a scheduler's choice; [None] when the
    choice is not possible.  Blocking (of a lock that is taken, of
    [g_thread_pool_free] on a busy pool) only removes schedules. *)
Definition sys_step (w : World) (c : Choice) (s : Sys) : option Sys :=
  match c with
  | RunMain =>
      match sys_main s with
      | [] => None
      | e :: rest =>
          Some {| sys_main := rest;
                  sys_pool := pool_after e (sys_pool s);
                  sys_workers := sys_workers s;
                  sys_udata := sys_udata s;
                  sys_history := (sys_history s ++ [e])%list |}
      end
  | Dispatch =>
      match sys_pool s with
      | Some p =>
          match pool_queue p with
          | t :: q =>
              if (Z.of_nat (running (sys_workers s)) <? pool_max_threads p) then
                let r := dumper_thread w (sys_udata s) t in
                Some {| sys_main := sys_main s;
                        sys_pool := Some {| pool_max_threads := pool_max_threads p;
                                            pool_queue := q |};
                        sys_workers := (sys_workers s ++ [tr_events r])%list;
                        sys_udata := set_old_metadata (sys_udata s) (tr_old_metadata r);
                        sys_history := sys_history s |}
              else None
          | [] => None
          end
      | None => None
      end
  | RunWorker i =>
      match sys_workers s !! i with
      | Some (e :: rest) =>
          Some {| sys_main := sys_main s;
                  sys_pool := sys_pool s;
                  sys_workers := <[i := rest]> (sys_workers s);
                  sys_udata := sys_udata s;
                  sys_history := (sys_history s ++ [e])%list |}
      | _ => None
      end
  end.

Fixpoint sys_run (w : World) (sched : list Choice) (s : Sys) : option Sys :=
  match sched with
  | [] => Some s
  | c :: sched' =>
      match sys_step w c s with
      | Some s' => sys_run w sched' s'
      | None => None
      end
  end.

(** The tasks the main thread queued, in order. *)
Fixpoint pushed_tasks (evs : list Event) : list PoolTask :=
  match evs with
  | [] => []
  | EvPoolPush t :: evs' => t :: pushed_tasks evs'
  | _ :: evs' => pushed_tasks evs'
  end.

(** Every queued task run by [dumper_thread], the table of old metadata
    handed from one call to the next. *)
Fixpoint run_tasks (w : World) (udata : UserData) (tasks : list PoolTask)
    : list TaskResult :=
  match tasks with
  | [] => []
  | t :: tasks' =>
      let r := dumper_thread w udata t in
      r :: run_tasks w (set_old_metadata udata (tr_old_metadata r)) tasks'
  end.

(** ** The documents *)

(** What the events [evs] wrote into document [f], in order. *)
Definition Sink_eqb (a b : Sink) : bool :=
  match a, b with
  | PRI, PRI | FIL, FIL | OTH, OTH => true
  | _, _ => false
  end.

Fixpoint document (f : Sink) (evs : list Event) : list Chunk :=
  match evs with
  | [] => []
  | EvCwPrintf f' c :: evs' =>
      if Sink_eqb f f' then c :: document f evs' else document f evs'
  | EvCwPuts f' c :: evs' =>
      if Sink_eqb f f' then c :: document f evs' else document f evs'
  | _ :: evs' => document f evs'
  end.

(** The values of [packages="N"] in a document. *)
Fixpoint packages_attr (doc : list Chunk) : list Z :=
  match doc with
  | [] => []
  | XmlHeader n :: doc' => n :: packages_attr doc'
  | _ :: doc' => packages_attr doc'
  end.

(** The number of [<package>] elements in a document. *)
Fixpoint count_packages (doc : list Chunk) : nat :=
  match doc with
  | [] => O
  | XmlPackage _ _ :: doc' => S (count_packages doc')
  | _ :: doc' => count_packages doc'
  end.

(** The tasks that wrote nothing: [stat] failed or the package could not be
    read. *)
Definition dropped (results : list TaskResult) : nat :=
  length (List.filter (fun r => negb (bool_decide (is_Some (tr_pkg r)))) results).

(** ** [xml_parser-py.c]: the package-parsing entry points *)

(** A Python object, as far as these functions look at it. *)
Inductive PyObject :=
| Py_None
| PyFunction (name : string)     (* anything callable *)
| PyString (s : string)
| PyLong (n : Z)
| PyOther.                       (* not callable, not [None] *)

Definition PyCallable_Check (o : PyObject) : bool :=
  match o with PyFunction _ => true | _ => false end.

Definition is_Py_None (o : PyObject) : bool :=
  match o with Py_None => true | _ => false end.

Inductive PyExc :=
| PyExc_TypeError
| PyExc_ValueError
| PyExc_OverflowError
| CrErr_Exception.               (* what [nice_exception] raises *)

(** The return value: [PyErr] is [NULL] with that exception set. *)
Inductive PyResult :=
| PyErr (exc : PyExc) (msg : string)
| Py_RETURN_NONE.

(** CPython's ["s"] conversion refuses a [str] with an embedded NUL
    character: the file name is handed over as a C string. *)
Fixpoint has_nul (s : string) : bool :=
  match s with
  | EmptyString => false
  | String c s' => Ascii.eqb c "000"%char || has_nul s'
  end.

(** The exception it sets then: a [ValueError] in CPython 3 (a [TypeError]
    in CPython 2). *)
Definition embedded_null_error : PyResult :=
  PyErr PyExc_ValueError "embedded null character".

(** [PyArg_ParseTuple (args, "sOOOi", ...)] (CPython): a string, three
    objects, a C [int], converted from left to right; the first conversion
    that fails sets the error. *)
Definition PyArg_ParseTuple_sOOOi (args : list PyObject)
    : PyResult + (string * PyObject * PyObject * PyObject * Z) :=
  match args with
  | [PyString filename; a; b; c; i] =>
      if has_nul filename then inl embedded_null_error
      else match i with
           | PyLong n =>
               if (-2147483648 <=? n) && (n <=? 2147483647)
               then inr (filename, a, b, c, n)
               else inl (PyErr PyExc_OverflowError
                           "signed integer is greater than maximum")
           | _ => inl (PyErr PyExc_TypeError "bad arguments")
           end
  | _ => inl (PyErr PyExc_TypeError "bad arguments")
  end.

(** [PyArg_ParseTuple (args, "sOOO", ...)]. *)
Definition PyArg_ParseTuple_sOOO (args : list PyObject)
    : PyResult + (string * PyObject * PyObject * PyObject) :=
  match args with
  | [PyString filename; a; b; c] =>
      if has_nul filename then inl embedded_null_error
      else inr (filename, a, b, c)
  | _ => inl (PyErr PyExc_TypeError "bad arguments")
  end.

(** A call of one of the C parsers: the file and which of the three C
    callbacks were passed (not [NULL]). *)
Inductive ParserCall :=
| Call_cr_xml_parse_primary (filename : string)
    (newpkgcb pkgcb warningcb : bool) (do_files : Z)
| Call_cr_xml_parse_filelists (filename : string)
    (newpkgcb pkgcb warningcb : bool)
| Call_cr_xml_parse_other (filename : string)
    (newpkgcb pkgcb warningcb : bool).

(** The C parsers ([xml_parser.c] and friends are not among the sources):
    the error each call leaves in [tmp_err], if any. *)
Record XmlParserLib := {
  cr_xml_parse_primary : string -> bool -> bool -> bool -> Z -> option string;
  cr_xml_parse_filelists : string -> bool -> bool -> bool -> option string;
  cr_xml_parse_other : string -> bool -> bool -> bool -> option string }.

(** The result of an entry point and the parser calls it made. *)
Definition py_xml_parse_primary (lib : XmlParserLib) (args : list PyObject)
    : PyResult * list ParserCall :=
  match PyArg_ParseTuple_sOOOi args with
  | inl err => (err, [])
  | inr (filename, py_newpkgcb, py_pkgcb, py_warningcb, do_files) =>
      if negb (PyCallable_Check py_newpkgcb) && negb (is_Py_None py_newpkgcb) then
        (PyErr PyExc_TypeError "newpkgcb must be callable or None", [])
      else if negb (PyCallable_Check py_pkgcb) && negb (is_Py_None py_pkgcb) then
        (PyErr PyExc_TypeError "pkgcb must be callable or None", [])
      else if negb (PyCallable_Check py_warningcb) && negb (is_Py_None py_warningcb) then
        (PyErr PyExc_TypeError "warningcb must be callable or None", [])
      else if is_Py_None py_newpkgcb && is_Py_None py_pkgcb then
        (PyErr PyExc_ValueError "both pkgcb and newpkgcb cannot be None", [])
      else
        let ptr_c_newpkgcb := negb (is_Py_None py_newpkgcb) in
        let ptr_c_pkgcb := negb (is_Py_None py_pkgcb) in
        let ptr_c_warningcb := negb (is_Py_None py_warningcb) in
        let call := Call_cr_xml_parse_primary filename ptr_c_newpkgcb
                      ptr_c_pkgcb ptr_c_warningcb do_files in
        match cr_xml_parse_primary lib filename ptr_c_newpkgcb
                ptr_c_pkgcb ptr_c_warningcb do_files with
        | Some tmp_err => (PyErr CrErr_Exception tmp_err, [call])
        | None => (Py_RETURN_NONE, [call])
        end
  end.

Definition py_xml_parse_filelists (lib : XmlParserLib) (args : list PyObject)
    : PyResult * list ParserCall :=
  match PyArg_ParseTuple_sOOO args with
  | inl err => (err, [])
  | inr (filename, py_newpkgcb, py_pkgcb, py_warningcb) =>
      if negb (PyCallable_Check py_newpkgcb) && negb (is_Py_None py_newpkgcb) then
        (PyErr PyExc_TypeError "newpkgcb must be callable or None", [])
      else if negb (PyCallable_Check py_pkgcb) && negb (is_Py_None py_pkgcb) then
        (PyErr PyExc_TypeError "pkgcb must be callable or None", [])
      else if negb (PyCallable_Check py_warningcb) && negb (is_Py_None py_warningcb) then
        (PyErr PyExc_TypeError "warningcb must be callable or None", [])
      else if is_Py_None py_newpkgcb && is_Py_None py_pkgcb then
        (PyErr PyExc_ValueError "both pkgcb and newpkgcb cannot be None", [])
      else
        let ptr_c_newpkgcb := negb (is_Py_None py_newpkgcb) in
        let ptr_c_pkgcb := negb (is_Py_None py_pkgcb) in
        let ptr_c_warningcb := negb (is_Py_None py_warningcb) in
        let call := Call_cr_xml_parse_filelists filename ptr_c_newpkgcb
                      ptr_c_pkgcb ptr_c_warningcb in
        match cr_xml_parse_filelists lib filename ptr_c_newpkgcb
                ptr_c_pkgcb ptr_c_warningcb with
        | Some tmp_err => (PyErr CrErr_Exception tmp_err, [call])
        | None => (Py_RETURN_NONE, [call])
        end
  end.

Definition py_xml_parse_other (lib : XmlParserLib) (args : list PyObject)
    : PyResult * list ParserCall :=
  match PyArg_ParseTuple_sOOO args with
  | inl err => (err, [])
  | inr (filename, py_newpkgcb, py_pkgcb, py_warningcb) =>
      if negb (PyCallable_Check py_newpkgcb) && negb (is_Py_None py_newpkgcb) then
        (PyErr PyExc_TypeError "newpkgcb must be callable or None", [])
      else if negb (PyCallable_Check py_pkgcb) && negb (is_Py_None py_pkgcb) then
        (PyErr PyExc_TypeError "pkgcb must be callable or None", [])
      else if negb (PyCallable_Check py_warningcb) && negb (is_Py_None py_warningcb) then
        (PyErr PyExc_TypeError "warningcb must be callable or None", [])
      else if is_Py_None py_newpkgcb && is_Py_None py_pkgcb then
        (PyErr PyExc_ValueError "both pkgcb and newpkgcb cannot be None", [])
      else
        let ptr_c_newpkgcb := negb (is_Py_None py_newpkgcb) in
        let ptr_c_pkgcb := negb (is_Py_None py_pkgcb) in
        let ptr_c_warningcb := negb (is_Py_None py_warningcb) in
        let call := Call_cr_xml_parse_other filename ptr_c_newpkgcb
                      ptr_c_pkgcb ptr_c_warningcb in
        match cr_xml_parse_other lib filename ptr_c_newpkgcb
                ptr_c_pkgcb ptr_c_warningcb with
        | Some tmp_err => (PyErr CrErr_Exception tmp_err, [call])
        | None => (Py_RETURN_NONE, [call])
        end
  end.

(** An argument the entry points refuse with a [TypeError]. *)
Definition bad_callback (o : PyObject) : bool :=
  negb (PyCallable_Check o) && negb (is_Py_None o).

(** ** Kinds of events and results *)

(** An entry point returned [NULL] with exception [exc] set and called no
    parser. *)
Definition rejected (exc : PyExc) (r : PyResult * list ParserCall) : Prop :=
  exists msg, r = (PyErr exc msg, []).

(** Touches neither the global [tmp_repodata_path], nor a document, nor the
    pool, and creates no directory. *)
Definition calm (e : Event) : bool :=
  match e with
  | EvSetTmpRepodataPath _ | EvMkdir _
  | EvCwPrintf _ _ | EvCwPuts _ _
  | EvPoolNew _ | EvPoolPush _ | EvPoolSetMaxThreads _ | EvPoolFree => false
  | _ => true
  end.

(** What the walk does: it queues tasks and warns. *)
Definition walk_event (e : Event) : bool :=
  match e with
  | EvPoolPush _ | EvLog LOG_WARNING _ => true
  | _ => false
  end.

(** ** The order of the old-metadata sources, in the spec's words *)

(** The sources of old metadata in the order the specification gives: the
    output directory (when one is given), the input directory, each
    [--update-md-path] in list order. *)
Definition spec_metadata_sources (cmd_options : CmdOptions)
    (in_dir out_dir : string) : list string :=
  (match outputdir cmd_options with Some _ => [out_dir] | None => [] end)
  ++ [in_dir] ++ l_update_md_paths cmd_options.

(** The record a list of (file name, record) pairs leaves for [key] when
    each pair replaces what was there before: the last one, or [acc]. *)
Definition entries_lookup (key : string) (entries : list (string * Package))
    (acc : option Package) : option Package :=
  fold_left (fun acc kv => if String.eqb (fst kv) key then Some (snd kv) else acc)
            entries acc.

(** "A later source overwrites an earlier one": the record for [key] after
    the sources were loaded in order. *)
Definition spec_cache_lookup (w : World) (key : string) (sources : list string)
    : option Package :=
  fold_left (fun acc path => entries_lookup key (snd (repo_metadata w path)) acc)
            sources None.

(** The repositories the events [evs] load, in order. *)
Fixpoint loaded_paths (evs : list Event) : list string :=
  match evs with
  | [] => []
  | EvLoadMetadata path _ :: evs' => path :: loaded_paths evs'
  | _ :: evs' => loaded_paths evs'
  end.

(** Touches neither a document nor the pool. *)
Definition settled (e : Event) : bool :=
  match e with
  | EvCwPrintf _ _ | EvCwPuts _ _
  | EvPoolNew _ | EvPoolPush _ | EvPoolSetMaxThreads _ | EvPoolFree => false
  | _ => true
  end.

(** An operation on the thread pool. *)
Definition pool_event (e : Event) : bool :=
  match e with
  | EvPoolNew _ | EvPoolPush _ | EvPoolSetMaxThreads _ | EvPoolFree => true
  | _ => false
  end.

(** The only assignments to [tmp_repodata_path] among the events are
    assignments of [p]. *)
Definition sets_only (p : option string) (e : Event) : Prop :=
  match e with
  | EvSetTmpRepodataPath x => x = p
  | _ => True
  end.

(** What one event writes into document [f]. *)
Definition chunk_of (f : Sink) (e : Event) : list Chunk :=
  match e with
  | EvCwPrintf f' c | EvCwPuts f' c => if Sink_eqb f f' then [c] else []
  | _ => []
  end.

(** Leaves a pool without threads: anything but raising the number of
    threads or creating a pool with threads. *)
Definition frozen (e : Event) : bool :=
  match e with
  | EvPoolSetMaxThreads _ => false
  | EvPoolNew n => n =? 0
  | _ => true
  end.

(** The failures of the last phase after which [main] stops: the old
    [repodata] exists and cannot be opened (line 717), [repomd.xml] cannot be
    opened for writing or was not generated (line 879). *)
Definition fatal_in_finalize (w : World) (d : Dirs) : bool :=
  (g_file_test_exists w (out_repo d)
   && negb (bool_decide (is_Some (g_dir_open w (out_repo d)))))
  || negb (fopen_w w (out_repo d +:+ "repomd.xml"))
  || negb (xml_repomd w).

(** What holds of the process at every point of a run: the main thread has
    done a prefix of its trace, all of it is in the history, and as long as
    that prefix left the pool without threads no call of [dumper_thread] has
    been started. *)
Definition sys_inv (trace : list Event) (s : Sys) : Prop :=
  exists done,
    trace = done ++ sys_main s
    /\ (forall e, In e done -> In e (sys_history s))
    /\ (Forall (fun e => frozen e = true) done ->
          sys_workers s = []
          /\ forall p, sys_pool s = Some p -> pool_max_threads p = 0).

(** The user data after the calls for [tasks], one after the other. *)
Fixpoint udata_after (w : World) (udata : UserData) (tasks : list PoolTask)
    : UserData :=
  match tasks with
  | [] => udata
  | t :: tasks' =>
      udata_after w (set_old_metadata udata (tr_old_metadata (dumper_thread w udata t)))
                  tasks'
  end.

(** Creates a pool. *)
Definition pool_new (e : Event) : bool :=
  match e with EvPoolNew _ => true | _ => false end.

(** What holds at every point of a run of a trace [S ++ EvPoolNew 0 :: R]
    whose part [S] has no pool operation and whose part [R] creates no
    pool: before the pool exists nothing but [S] has happened; afterwards
    the tasks queued so far are those that were started, in order, and those
    still in the queue, and the history together with what the started calls
    still have to do is the main thread's part and the events of the started
    calls. *)
Definition sys_acc (w : World) (S R : list Event) (udata0 : UserData) (s : Sys)
    : Prop :=
  (sys_pool s = None /\ sys_workers s = [] /\ sys_udata s = udata0
   /\ exists rest, S = sys_history s ++ rest
                   /\ sys_main s = rest ++ EvPoolNew 0 :: R)
  \/ (exists p done2 results,
        sys_pool s = Some p
        /\ R = done2 ++ sys_main s
        /\ run_tasks w udata0 (pushed_tasks done2)
           = results ++ run_tasks w (sys_udata s) (pool_queue p)
        /\ udata_after w udata0 (pushed_tasks done2)
           = udata_after w (sys_udata s) (pool_queue p)
        /\ Permutation (sys_history s ++ concat (sys_workers s))
                       (S ++ EvPoolNew 0 :: done2 ++ concat (map tr_events results))).

(** ** A sample repository

    [/repo] holds [a.rpm], [b.rpm] (unreadable as a package), [s.rpm] (a
    symbolic link to a package) and [pool] (a symbolic link to a directory
    that holds [c.rpm]).  [/out/repodata] exists and holds metadata that
    knows [a.rpm]; so does [/repo/repodata]; [/extra] knows [x.rpm]. *)

Definition sample_pkg (name href : string) (mtime size : Z) : Package :=
  {| pkg_name := name; pkg_epoch := "0"; pkg_version := "1";
     pkg_release := "1"; pkg_arch := "noarch";
     pkgId := "id-" +:+ name;
     checksum_type := "sha256"; size_package := size; time_file := mtime;
     time_build := 50;
     pkg_provides := []; pkg_requires := []; pkg_conflicts := [];
     pkg_obsoletes := []; pkg_suggests := []; pkg_enhances := [];
     pkg_recommends := []; pkg_supplements := [];
     pkg_files := [{| pf_path := "/usr/bin/" +:+ name; pf_type := FT_FILE |}];
     pkg_changelogs := [];
     location_href := href;
     location_base := Some "http://old.example/" |}.

(** [swap_ok = false]: nothing can be moved out of or onto [/out/repodata]
    (the old file stays, [rmdir] and the swap fail, the new files are not
    where the checksums are computed), yet the directory is there and
    [repomd.xml] can be written into it.  [compress_ok = false]:
    [compress_file] fails. *)
Definition sample_world_with (swap_ok compress_ok : bool) : World :=
  {| stat := fun p =>
       if String.eqb p "/repo/a.rpm" then Some {| st_mtime := 100; st_size := 10 |}
       else if String.eqb p "/repo/b.rpm" then Some {| st_mtime := 200; st_size := 20 |}
       else if String.eqb p "/repo/pool/c.rpm" then Some {| st_mtime := 300; st_size := 30 |}
       else None;
     package_from_file := fun p _ href base _ =>
       if String.eqb p "/repo/b.rpm" then None
       else Some {| pkg_name := p; pkg_epoch := "0"; pkg_version := "2";
                    pkg_release := "1"; pkg_arch := "noarch"; pkgId := "id-" +:+ p;
                    checksum_type := "sha256"; size_package := 1; time_file := 1;
                    time_build := 1;
                    pkg_provides := []; pkg_requires := []; pkg_conflicts := [];
                    pkg_obsoletes := []; pkg_suggests := []; pkg_enhances := [];
                    pkg_recommends := []; pkg_supplements := [];
                    pkg_files := []; pkg_changelogs := [];
                    location_href := href; location_base := base |};
     g_dir_open := fun p =>
       if String.eqb p "/repo" then Some ["a.rpm"; "b.rpm"; "s.rpm"; "pool"; "README"]
       else if String.eqb p "/repo/pool" then Some ["c.rpm"]
       else if String.eqb p "/out/repodata/" then Some ["comps.xml"]
       else None;
     g_file_test_exists := fun p =>
       String.eqb p "/repo/" || String.eqb p "/out/repodata/";
     g_file_test_is_regular := fun p =>
       String.eqb p "/repo/a.rpm" || String.eqb p "/repo/b.rpm"
       || String.eqb p "/repo/s.rpm" || String.eqb p "/repo/README"
       || String.eqb p "/repo/pool/c.rpm";
     g_file_test_is_dir := fun p =>
       String.eqb p "/repo/" || String.eqb p "/repo/pool";
     g_file_test_is_symlink := fun p =>
       String.eqb p "/repo/s.rpm" || String.eqb p "/repo/pool";
     g_pattern_match := fun mask s => String.eqb mask s;
     normalize_dir_path := fun p => p +:+ "/";
     get_filename := fun p => p;
     check_arguments := true;
     g_mkdir := fun _ => MKDIR_OK;
     sigaction_ok := true;
     better_copy_file := fun _ _ => true;
     repo_metadata := fun p =>
       if String.eqb p "/out/" then
         (true, [("a.rpm", sample_pkg "a-out" "a.rpm" 100 10);
                 ("x.rpm", sample_pkg "x-out" "x.rpm" 7 7)])
       else if String.eqb p "/repo/" then
         (true, [("a.rpm", sample_pkg "a-in" "old/a.rpm" 100 10)])
       else if String.eqb p "/extra" then
         (true, [("x.rpm", sample_pkg "x-extra" "x.rpm" 8 8)])
       else (false, []);
     cw_open := fun _ => true;
     prepare_db_statements := fun _ => true;
     g_rename := fun _ _ => swap_ok;
     g_rmdir := fun _ => swap_ok;
     fill_missing_data := fun _ => swap_ok;
     compress_file := fun _ => compress_ok;
     xml_repomd := true;
     fopen_w := fun _ => true |}.

Definition sample_world : World := sample_world_with true true.

Definition sample_options : CmdOptions :=
  {| outputdir := Some "/out";
     quiet := false; verbose := false;
     groupfile_fullpath := None;
     update := true;
     l_update_md_paths := ["/extra"];
     compression_type := UNKNOWN_COMPRESSION;
     xz_compression := false;
     no_database := false;
     changelog_limit := 10;
     opt_location_base := None;
     opt_checksum_type := PKG_CHECKSUM_SHA256;
     skip_symlinks := true;
     skip_stat := false;
     workers := 2;
     include_pkgs := [];
     exclude_masks := [];
     unique_md_filenames := false |}.

Definition sample_run : M UserData := main 10 sample_world sample_options "/repo".

Definition sample_udata : UserData :=
  match m_res sample_run with
  | Ret udata => udata
  | _ => user_data sample_options (set_paths sample_world sample_options "/repo")
                   (false, false, false) None 0
  end.

Definition sample_lib : XmlParserLib :=
  {| cr_xml_parse_primary := fun _ _ _ _ _ => None;
     cr_xml_parse_filelists := fun _ _ _ _ => None;
     cr_xml_parse_other := fun _ _ _ _ => None |}.

Definition sample_task_a : PoolTask :=
  {| task_full_path := "/repo/a.rpm"; task_filename := "a.rpm";
     task_path := "/repo" |}.

Definition sample_task_b : PoolTask :=
  {| task_full_path := "/repo/b.rpm"; task_filename := "b.rpm";
     task_path := "/repo" |}.

Definition sample_task_c : PoolTask :=
  {| task_full_path := "/repo/pool/c.rpm"; task_filename := "c.rpm";
     task_path := "/repo/pool" |}.

(** The table of old metadata the sample run loads. *)
Definition sample_cache : gmap string Package :=
  from_option id ∅ (ud_old_metadata sample_udata).

Definition sample_md_a : Package := sample_pkg "a-in" "old/a.rpm" 100 10.

(** The sample run scheduled: the main thread up to the start of the pool,
    then the first two tasks are started. *)
Definition sample_sched : list Choice :=
  repeat RunMain 20 ++ [Dispatch; Dispatch].

Definition sample_state : Sys :=
  from_option id (sys_init [] sample_udata)
    (sys_run sample_world sample_sched (sys_init (m_trace sample_run) sample_udata)).

(** The sample run to its end: the main thread up to the start of the pool,
    two tasks started and run, the third started and run, the rest of the
    main thread. *)
Definition sample_full_sched : list Choice :=
  repeat RunMain 20 ++ [Dispatch; Dispatch]
  ++ repeat (RunWorker 0) 15 ++ repeat (RunWorker 1) 4
  ++ [Dispatch] ++ repeat (RunWorker 2) 17 ++ repeat RunMain 37.

Definition sample_final_state : Sys :=
  from_option id (sys_init [] sample_udata)
    (sys_run sample_world sample_full_sched
             (sys_init (m_trace sample_run) sample_udata)).

(** ** The ways a call of [dumper_thread] ends *)

(** [stat] was called and failed: the call returns at line 138. *)
Definition stat_failed (w : World) (udata : UserData) (task : PoolTask) : bool :=
  match ud_old_metadata udata with
  | Some _ => negb (ud_skip_stat udata)
              && negb (bool_decide (is_Some (stat w (task_full_path task))))
  | None => false
  end.

(** The events of lines 134-140 when [stat] does not fail. *)
Definition stat_events (udata : UserData) (task : PoolTask) : list Event :=
  match ud_old_metadata udata with
  | Some _ => if ud_skip_stat udata then [] else [EvStat (task_full_path task)]
  | None => []
  end.

(** The record of the old metadata the call finds usable, if any
    (lines 149-167). *)
Definition usable_md (w : World) (udata : UserData) (task : PoolTask)
    : option Package :=
  match ud_old_metadata udata with
  | Some ht =>
      match ht !! task_filename task with
      | Some md =>
          if old_md_usable udata
               (if ud_skip_stat udata then None else stat w (task_full_path task)) md
          then Some md else None
      | None => None
      end
  | None => None
  end.

(** The task is dropped: [stat] failed (line 138), or no usable record was
    found and the package cannot be read (line 182). *)
Definition task_dropped (w : World) (udata : UserData) (task : PoolTask) : bool :=
  stat_failed w udata task
  || (negb (bool_decide (is_Some (usable_md w udata task)))
      && negb (bool_decide (is_Some
           (package_from_file w (task_full_path task) (ud_checksum_type udata)
              (str_drop (ud_repodir_name_len udata) (task_full_path task))
              (ud_location_base udata) (ud_changelog_limit udata))))).

(** The writes to a document and the inserts into its database that a
    thread makes while it does not hold the document's lock; [held] are the
    locks it holds at the start. *)
Fixpoint unlocked_writes (held : list Lock) (evs : list Event) : list Event :=
  match evs with
  | [] => []
  | e :: evs' =>
      match e with
      | EvCwPuts f _ | EvAddPkgDb f _ =>
          if existsb (Lock_eqb (lock_of f)) held then [] else [e]
      | _ => []
      end ++ unlocked_writes (lock_step held e) evs'
  end.

Definition is_task_free (e : Event) : bool :=
  match e with EvTaskFree _ => true | _ => false end.

Definition is_package_free (e : Event) : bool :=
  match e with EvPackageFree _ => true | _ => false end.

(** The events a thread performs while it holds lock [l]. *)
Fixpoint while_held (l : Lock) (holding : bool) (evs : list Event) : list Event :=
  match evs with
  | [] => []
  | EvLock l' :: evs' =>
      if Lock_eqb l l' then while_held l true evs' else
      (if holding then [EvLock l'] else []) ++ while_held l holding evs'
  | EvUnlock l' :: evs' =>
      if Lock_eqb l l' then while_held l false evs' else
      (if holding then [EvUnlock l'] else []) ++ while_held l holding evs'
  | e :: evs' => (if holding then [e] else []) ++ while_held l holding evs'
  end.

(** Two records that differ in their location fields at most. *)
Definition same_content (a b : Package) : Prop :=
  forall href base, set_locations a href base = set_locations b href base.

(** Two tables with the same keys whose records differ in their location
    fields at most. *)
Definition tables_agree (ht ht' : gmap string Package) : Prop :=
  forall key,
    match ht !! key, ht' !! key with
    | Some a, Some b => same_content a b
    | None, None => True
    | _, _ => False
    end.

(** ** What the walk makes of an entry *)

(** The task the inner loop queues for a directory entry, and the directory
    it puts on [sub_dirs] for it. *)
Definition entry_task (w : World) (cmd_options : CmdOptions) (in_dir_len : nat)
    (dirname filename : string) : option PoolTask :=
  match walk_entry w cmd_options in_dir_len dirname filename with
  | AddPkg task => Some task
  | _ => None
  end.

Definition entry_dir (w : World) (cmd_options : CmdOptions) (in_dir_len : nat)
    (dirname filename : string) : option string :=
  match walk_entry w cmd_options in_dir_len dirname filename with
  | ScanDir sub_dir => Some sub_dir
  | _ => None
  end.

(** lines 620-648: the task made of one line of the package list. *)
Definition pkglist_task (in_dir relative_path : string) : PoolTask :=
  let x := last_slash relative_path (String.length relative_path) in
  {| task_full_path := in_dir +:+ relative_path;
     task_filename := if (x =? 0)%nat then relative_path
                      else str_drop (x + 1) relative_path;
     task_path := substring 0 x relative_path |}.

(** A directory of the walk lies under the input directory. *)
Definition under (in_dir dirname : string) : Prop :=
  exists sub, dirname +:+ "/" = in_dir +:+ sub.

(** ** Kinds of events of [main] *)

Definition is_log (e : Event) : bool :=
  match e with EvLog _ _ => true | _ => false end.

(** [main] gets as far as creating the staging directory (lines 276-290). *)
Definition reaches_mkdir (w : World) (d : Dirs) : bool :=
  (g_file_test_exists w (in_dir d) || g_file_test_is_dir w (in_dir d))
  && check_arguments w.

(** An event that deletes no directory, or deletes [dir] with [rmdir]. *)
Definition spares (dir : string) (e : Event) : bool :=
  match e with
  | EvRemoveDir _ => false
  | EvRmdir p _ => String.eqb p dir
  | _ => true
  end.

(** Documents opened minus documents closed, for document [f]. *)
Fixpoint cw_balance (f : Sink) (evs : list Event) : Z :=
  match evs with
  | [] => 0
  | EvCwOpen f' :: evs' => (if Sink_eqb f f' then 1 else 0) + cw_balance f evs'
  | EvCwClose f' :: evs' => (if Sink_eqb f f' then -1 else 0) + cw_balance f evs'
  | _ :: evs' => cw_balance f evs'
  end.

Definition no_cw (e : Event) : bool :=
  match e with EvCwOpen _ | EvCwClose _ => false | _ => true end.




(** The swap: the rename of the staging directory to the final name. *)
Definition is_swap (d : Dirs) (e : Event) : bool :=
  match e with
  | EvRename src dst _ => String.eqb src (tmp_out_repo d) && String.eqb dst (out_repo d)
  | _ => false
  end.

(** The steps that read or write the published files (lines 770-881). *)
Definition publish_step (e : Event) : bool :=
  match e with
  | EvFillMissingData _ _ | EvProcessGroupfile _ | EvDbinfoUpdate _
  | EvCompressFile _ _ | EvRemove _ | EvRenameFile _ | EvWriteRepomd _ => true
  | _ => false
  end.

(** The events before the first swap. *)
Fixpoint before_swap (d : Dirs) (evs : list Event) : list Event :=
  match evs with
  | [] => []
  | e :: evs' => if is_swap d e then [] else e :: before_swap d evs'
  end.

(** ** [xml_parser-py.c]: [py_xml_parse_repomd] and [py_xml_parse_updateinfo] *)

(** An argument of the two metadata entry points: an object as above, or an
    instance of the extension types [Repomd_Type] or [UpdateInfo_Type]. *)
Inductive PyArg :=
| ArgObject (o : PyObject)
| ArgRepomd (repomd : string)
| ArgUpdateInfo (updateinfo : string).

Definition arg_callable (a : PyArg) : bool :=
  match a with ArgObject o => PyCallable_Check o | _ => false end.

Definition arg_is_None (a : PyArg) : bool :=
  match a with ArgObject o => is_Py_None o | _ => false end.

(** [PyArg_ParseTuple (args, "sO!O", ..., &Repomd_Type, ...)] (CPython): a
    string, an instance of [Repomd_Type], an object, converted from left to
    right. *)
Definition PyArg_ParseTuple_sRepomdO (args : list PyArg)
    : PyResult + (string * string * PyArg) :=
  match args with
  | [ArgObject (PyString filename); o; c] =>
      if has_nul filename then inl embedded_null_error
      else match o with
           | ArgRepomd r => inr (filename, r, c)
           | _ => inl (PyErr PyExc_TypeError "bad arguments")
           end
  | _ => inl (PyErr PyExc_TypeError "bad arguments")
  end.

(** The same with [&UpdateInfo_Type]. *)
Definition PyArg_ParseTuple_sUpdateInfoO (args : list PyArg)
    : PyResult + (string * string * PyArg) :=
  match args with
  | [ArgObject (PyString filename); o; c] =>
      if has_nul filename then inl embedded_null_error
      else match o with
           | ArgUpdateInfo u => inr (filename, u, c)
           | _ => inl (PyErr PyExc_TypeError "bad arguments")
           end
  | _ => inl (PyErr PyExc_TypeError "bad arguments")
  end.

(** A call of one of the two C parsers: the file, the object to fill and
    whether the C warning callback was passed (not [NULL]). *)
Inductive MdParserCall :=
| Call_cr_xml_parse_repomd (filename repomd : string) (warningcb : bool)
| Call_cr_xml_parse_updateinfo (filename updateinfo : string) (warningcb : bool).

(** The two C parsers: the error each call leaves in [tmp_err], if any. *)
Record MdParserLib := {
  cr_xml_parse_repomd : string -> string -> bool -> option string;
  cr_xml_parse_updateinfo : string -> string -> bool -> option string }.

(** lines 375-427 *)
Definition py_xml_parse_repomd (lib : MdParserLib) (args : list PyArg)
    : PyResult * list MdParserCall :=
  match PyArg_ParseTuple_sRepomdO args with
  | inl err => (err, [])
  | inr (filename, py_repomd, py_warningcb) =>
      if negb (arg_callable py_warningcb) && negb (arg_is_None py_warningcb) then
        (PyErr PyExc_TypeError "warningcb must be callable or None", [])
      else
        let ptr_c_warningcb := negb (arg_is_None py_warningcb) in
        let call := Call_cr_xml_parse_repomd filename py_repomd ptr_c_warningcb in
        match cr_xml_parse_repomd lib filename py_repomd ptr_c_warningcb with
        | Some tmp_err => (PyErr CrErr_Exception tmp_err, [call])
        | None => (Py_RETURN_NONE, [call])
        end
  end.

(** lines 429-481 *)
Definition py_xml_parse_updateinfo (lib : MdParserLib) (args : list PyArg)
    : PyResult * list MdParserCall :=
  match PyArg_ParseTuple_sUpdateInfoO args with
  | inl err => (err, [])
  | inr (filename, py_updateinfo, py_warningcb) =>
      if negb (arg_callable py_warningcb) && negb (arg_is_None py_warningcb) then
        (PyErr PyExc_TypeError "warningcb must be callable or None", [])
      else
        let ptr_c_warningcb := negb (arg_is_None py_warningcb) in
        let call := Call_cr_xml_parse_updateinfo filename py_updateinfo
                      ptr_c_warningcb in
        match cr_xml_parse_updateinfo lib filename py_updateinfo ptr_c_warningcb with
        | Some tmp_err => (PyErr CrErr_Exception tmp_err, [call])
        | None => (Py_RETURN_NONE, [call])
        end
  end.

(** ** [xml_parser-py.c]: the C callbacks *)

(** A reference to a Python object, as far as the callbacks tell objects
    apart: [None], a [Package] object, any other object, the argument tuple
    built for a call. *)
Inductive PyRef :=
| RefNone
| RefPackage (id : nat)
| RefOther (id : nat)
| RefArglist.

Definition PyRef_eqb (a b : PyRef) : bool :=
  match a, b with
  | RefNone, RefNone | RefArglist, RefArglist => true
  | RefPackage x, RefPackage y | RefOther x, RefOther y => Nat.eqb x y
  | _, _ => false
  end.

Definition PackageObject_Check (r : PyRef) : bool :=
  match r with RefPackage _ => true | _ => false end.

Inductive CbRet := CR_CB_RET_OK | CR_CB_RET_ERR.

(** [CbData] (lines 33-38) with the bookkeeping around it: [py_pkg]
    ("current processed package"), the references the C code holds and has
    to give up, whether [*err] is set, and the Python exception the C code
    itself has set. *)
Record CbData := {
  py_pkg : option nat;
  owned : list PyRef;
  gerror : bool;
  py_exception : option PyExc }.

(** [Py_DECREF]: gives up one held reference; [None] when there is none to
    give up. *)
Fixpoint Py_DECREF (r : PyRef) (refs : list PyRef) : option (list PyRef) :=
  match refs with
  | [] => None
  | x :: refs' =>
      if PyRef_eqb r x then Some refs'
      else cons x <$> Py_DECREF r refs'
  end.

(** [Py_BuildValue], [PyObject_CallObject], [Py_DECREF (arglist)]: the
    argument tuple lives for the call. *)
Definition with_arglist (refs : list PyRef) : option (list PyRef) :=
  Py_DECREF RefArglist (RefArglist :: refs).

(** lines 40-84; [result] is what [PyObject_CallObject] returns, [None] for
    [NULL].  The value is the return code, [*pkg] and the new state. *)
Definition c_newpkgcb (result : option PyRef) (data : CbData)
    : option (CbRet * option nat * CbData) :=
  refs1 ← match py_pkg data with
          | Some p => Py_DECREF (RefPackage p) (owned data)
          | None => Some (owned data)
          end;
  refs2 ← with_arglist refs1;
  match result with
  | None =>
      Some (CR_CB_RET_ERR, None,
            {| py_pkg := None; owned := refs2; gerror := true;
               py_exception := py_exception data |})
  | Some r =>
      if negb (PackageObject_Check r) && negb (PyRef_eqb r RefNone) then
        refs3 ← Py_DECREF r (r :: refs2);
        Some (CR_CB_RET_ERR, None,
              {| py_pkg := None; owned := refs3; gerror := gerror data;
                 py_exception := Some PyExc_TypeError |})
      else
        match r with
        | RefPackage id =>
            Some (CR_CB_RET_OK, Some id,
                  {| py_pkg := Some id; owned := r :: refs2;
                     gerror := gerror data; py_exception := py_exception data |})
        | _ =>
            refs3 ← Py_DECREF r (r :: refs2);
            Some (CR_CB_RET_OK, None,
                  {| py_pkg := None; owned := refs3; gerror := gerror data;
                     py_exception := py_exception data |})
        end
  end.

(** lines 86-113; [fresh] is the object [Object_FromPackage] makes when there
    is no current package. *)
Definition c_pkgcb (fresh : nat) (result : option PyRef) (data : CbData)
    : option (CbRet * CbData) :=
  let '(p, refs1) :=
    match py_pkg data with
    | Some p => (p, owned data)
    | None => (fresh, RefPackage fresh :: owned data)
    end in
  refs2 ← with_arglist refs1;
  refs3 ← Py_DECREF (RefPackage p) refs2;
  match result with
  | None =>
      Some (CR_CB_RET_ERR,
            {| py_pkg := None; owned := refs3; gerror := true;
               py_exception := py_exception data |})
  | Some r =>
      refs4 ← Py_DECREF r (r :: refs3);
      Some (CR_CB_RET_OK,
            {| py_pkg := None; owned := refs4; gerror := gerror data;
               py_exception := py_exception data |})
  end.

(** lines 115-136 *)
Definition c_warningcb (result : option PyRef) (data : CbData)
    : option (CbRet * CbData) :=
  refs1 ← with_arglist (owned data);
  match result with
  | None =>
      Some (CR_CB_RET_ERR,
            {| py_pkg := py_pkg data; owned := refs1; gerror := true;
               py_exception := py_exception data |})
  | Some r =>
      refs2 ← Py_DECREF r (r :: refs1);
      Some (CR_CB_RET_OK,
            {| py_pkg := py_pkg data; owned := refs2; gerror := gerror data;
               py_exception := py_exception data |})
  end.

(** [cbdata.py_pkg = NULL] and no reference held: the state the entry
    points start the parser in (lines 191-194). *)
Definition cbdata_init : CbData :=
  {| py_pkg := None; owned := []; gerror := false; py_exception := None |}.

(** [Py_XDECREF (cbdata.py_pkg)] after the parser has returned (line 209). *)
Definition Py_XDECREF_py_pkg (data : CbData) : option (list PyRef) :=
  match py_pkg data with
  | Some p => Py_DECREF (RefPackage p) (owned data)
  | None => Some (owned data)
  end.

(** A call the parser makes, with the answer of the Python callback. *)
Inductive CbCall :=
| CallNewPkg (result : option PyRef)
| CallPkg (fresh : nat) (result : option PyRef)
| CallWarning (result : option PyRef).

Definition cb_call (c : CbCall) (data : CbData) : option (CbRet * CbData) :=
  match c with
  | CallNewPkg result =>
      (fun x => (fst (fst x), snd x)) <$> c_newpkgcb result data
  | CallPkg fresh result => c_pkgcb fresh result data
  | CallWarning result => c_warningcb result data
  end.

(** The calls of one parser run, one after the other. *)
Fixpoint cb_calls (cs : list CbCall) (data : CbData) : option CbData :=
  match cs with
  | [] => Some data
  | c :: cs' => r ← cb_call c data; cb_calls cs' (snd r)
  end.

(** The C code holds the current package and nothing else. *)
Definition owns_current (data : CbData) : Prop :=
  owned data = match py_pkg data with Some p => [RefPackage p] | None => [] end.

(** ** More samples *)

(** The sample options without [--update] and with [--no-database]. *)
Definition sample_plain_options : CmdOptions :=
  {| outputdir := Some "/out";
     quiet := false; verbose := false;
     groupfile_fullpath := None;
     update := false;
     l_update_md_paths := [];
     compression_type := UNKNOWN_COMPRESSION;
     xz_compression := false;
     no_database := true;
     changelog_limit := 10;
     opt_location_base := None;
     opt_checksum_type := PKG_CHECKSUM_SHA256;
     skip_symlinks := true;
     skip_stat := false;
     workers := 2;
     include_pkgs := [];
     exclude_masks := [];
     unique_md_filenames := false |}.

Definition sample_plain_udata : UserData :=
  user_data sample_plain_options
    (set_paths sample_world sample_plain_options "/repo")
    (false, false, false) None 3.

Definition sample_md_lib : MdParserLib :=
  {| cr_xml_parse_repomd := fun _ _ _ => None;
     cr_xml_parse_updateinfo := fun _ _ _ => Some "parse error" |}.

(* ===================================================================== *)
(** * Part II: properties                                                 *)
(* ===================================================================== *)

Example sample_run_trace :
  pushed_tasks (m_trace sample_run)
  = [ {| task_full_path := "/repo/a.rpm"; task_filename := "a.rpm"; task_path := "/repo" |};
      {| task_full_path := "/repo/b.rpm"; task_filename := "b.rpm"; task_path := "/repo" |};
      {| task_full_path := "/repo/pool/c.rpm"; task_filename := "c.rpm"; task_path := "/repo/pool" |} ]
  /\ exit_status sample_run = Some 0.
Proof. vm_compute. split; reflexivity. Qed.

(** ** [dumper_thread]: the cache decision, the frame of a hit, the locks *)

Section Worker.
Context (w : World) (udata : UserData) (task : PoolTask).

Let href := str_drop (ud_repodir_name_len udata) (task_full_path task).

(** With old metadata and without [--skip-stat] a failing [stat] ends the
    call before the table is looked at: nothing is written. *)
Lemma dumper_thread_stat_failed ht :
  ud_old_metadata udata = Some ht ->
  ud_skip_stat udata = false ->
  stat w (task_full_path task) = None ->
  tr_pkg (dumper_thread w udata task) = None
  /\ tr_old_used (dumper_thread w udata task) = false
  /\ tr_events (dumper_thread w udata task)
     = [EvStat (task_full_path task);
        EvLog LOG_CRITICAL ("Stat() on " +:+ task_full_path task)].
Proof.
  intros Hht Hskip Hstat. unfold dumper_thread.
  rewrite Hht, Hskip, Hstat. simpl. auto.
Qed.

(** The call on a record that is found and usable. *)
Lemma dumper_thread_hit ht md sb_opt :
  ud_old_metadata udata = Some ht ->
  ht !! task_filename task = Some md ->
  (if negb (ud_skip_stat udata) then stat w (task_full_path task) else None) = sb_opt ->
  (ud_skip_stat udata = false -> is_Some sb_opt) ->
  old_md_usable udata sb_opt md = true ->
  dumper_thread w udata task
  = {| tr_events :=
         (if negb (ud_skip_stat udata) then [EvStat (task_full_path task)] else [])
         ++ [EvXmlDump (set_locations md href (ud_location_base udata))]
         ++ write_sinks udata (xml_dump (set_locations md href (ud_location_base udata)))
                        (set_locations md href (ud_location_base udata))
         ++ [EvTaskFree task];
       tr_old_metadata :=
         Some (<[task_filename task := set_locations md href (ud_location_base udata)]> ht);
       tr_old_used := true;
       tr_pkg := Some (set_locations md href (ud_location_base udata)) |}.
Proof.
  intros Hht Hmd Hsb Hsome Huse. unfold dumper_thread.
  rewrite Hht. simpl. rewrite Hmd. rewrite Hsb.
  destruct (ud_skip_stat udata) eqn:Hskip; simpl in *.
  - subst sb_opt. simpl. rewrite Huse. reflexivity.
  - destruct (Hsome eq_refl) as [sb Hsb']. subst sb_opt.
    rewrite Hsb' in *. simpl.
    rewrite Huse. reflexivity.
Qed.

(** The call on a record that is found and not usable, or not found. *)
Lemma dumper_thread_fresh sb_opt :
  (match ud_old_metadata udata with
   | Some _ => if negb (ud_skip_stat udata) then stat w (task_full_path task) else None
   | None => None
   end) = sb_opt ->
  (forall ht, ud_old_metadata udata = Some ht ->
              ud_skip_stat udata = false -> is_Some sb_opt) ->
  (forall ht md, ud_old_metadata udata = Some ht ->
                 ht !! task_filename task = Some md ->
                 old_md_usable udata sb_opt md = false) ->
  tr_old_used (dumper_thread w udata task) = false
  /\ tr_pkg (dumper_thread w udata task)
     = package_from_file w (task_full_path task) (ud_checksum_type udata)
         href (ud_location_base udata) (ud_changelog_limit udata)
  /\ In (EvPackageFromFile (task_full_path task))
        (tr_events (dumper_thread w udata task))
  /\ tr_old_metadata (dumper_thread w udata task) = ud_old_metadata udata.
Proof.
  intros Hsb Hsome Hbad. unfold dumper_thread.
  destruct (ud_old_metadata udata) as [ht|] eqn:Hht; simpl.
  - destruct (ud_skip_stat udata) eqn:Hskip; simpl in *.
    + subst sb_opt.
      destruct (ht !! task_filename task) as [md|] eqn:Hmd; simpl.
      * rewrite (Hbad ht md eq_refl Hmd).
        destruct (package_from_file _ _ _ _ _ _); simpl; auto 6.
      * destruct (package_from_file _ _ _ _ _ _); simpl; auto 6.
    + destruct (Hsome ht eq_refl eq_refl) as [sb Hsb']. subst sb_opt.
      rewrite Hsb' in *. simpl.
      destruct (ht !! task_filename task) as [md|] eqn:Hmd; simpl.
      * rewrite (Hbad ht md eq_refl Hmd).
        destruct (package_from_file _ _ _ _ _ _); simpl; auto 6.
      * destruct (package_from_file _ _ _ _ _ _); simpl; auto 6.
  - destruct (package_from_file _ _ _ _ _ _); simpl; auto 6.
Qed.

End Worker.

Lemma old_md_usable_spec udata sb md :
  ud_skip_stat udata = false ->
  old_md_usable udata (Some sb) md = true
  <-> (st_mtime sb = time_file md
       /\ st_size sb = size_package md
       /\ ud_checksum_type_str udata = checksum_type md).
Proof.
  intros Hskip. unfold old_md_usable. rewrite Hskip.
  rewrite !andb_true_iff, !Z.eqb_eq, String.eqb_eq. tauto.
Qed.

Lemma write_sinks_no_parse udata res pkg path :
  ~ In (EvPackageFromFile path) (write_sinks udata res pkg).
Proof.
  unfold write_sinks, write_sink, statements_of.
  destruct (ud_pri_statements udata), (ud_fil_statements udata),
    (ud_oth_statements udata); simpl; intuition discriminate.
Qed.

Lemma write_sinks_no_stat udata res pkg path :
  ~ In (EvStat path) (write_sinks udata res pkg).
Proof.
  unfold write_sinks, write_sink, statements_of.
  destruct (ud_pri_statements udata), (ud_fil_statements udata),
    (ud_oth_statements udata); simpl; intuition discriminate.
Qed.

Arguments write_sinks : simpl never.

(** An event that is not among the events of a list built from appends,
    conses, conditionals and [write_sinks]. *)
Ltac solve_not_in :=
  let H := fresh "H" in
  intros H;
  repeat match goal with
         | H : In _ (_ ++ _) |- _ => apply in_app_or in H
         | H : In _ (_ :: _) |- _ => destruct H
         | H : In _ [] |- _ => destruct H
         | H : In _ (if ?b then _ else _) |- _ => destruct b
         | H : In _ (write_sinks _ _ _) |- _ => unfold write_sinks in H
         | H : In _ (write_sink _ _ _ _) |- _ => unfold write_sink in H
         | H : _ \/ _ |- _ => destruct H
         | H : False |- _ => destruct H
         | H : _ = _ |- _ => discriminate H
         end.

Lemma write_sinks_puts udata pkg f :
  In (EvCwPuts f (XmlPackage f pkg)) (write_sinks udata (xml_dump pkg) pkg).
Proof.
  unfold write_sinks, write_sink, statements_of.
  destruct f, (ud_pri_statements udata), (ud_fil_statements udata),
    (ud_oth_statements udata); simpl; auto 20.
Qed.

(** When [old_used] is set, the record was found usable (and [stat]
    succeeded if it was called). *)
Lemma dumper_thread_old_used w udata task ht md :
  ud_old_metadata udata = Some ht ->
  ht !! task_filename task = Some md ->
  tr_old_used (dumper_thread w udata task) = true ->
  old_md_usable udata
    (if negb (ud_skip_stat udata) then stat w (task_full_path task) else None) md = true
  /\ (ud_skip_stat udata = false -> is_Some (stat w (task_full_path task))).
Proof.
  intros Hht Hmd. unfold dumper_thread. rewrite Hht. simpl. rewrite Hmd.
  destruct (ud_skip_stat udata) eqn:Hskip; simpl.
  - intros _. split; [unfold old_md_usable; rewrite Hskip; reflexivity | discriminate].
  - destruct (stat w (task_full_path task)) as [sb|] eqn:Hst; simpl.
    + destruct (old_md_usable udata (Some sb) md) eqn:Huse; simpl.
      * intros _. split; eauto.
      * destruct (package_from_file _ _ _ _ _ _); simpl; discriminate.
    + discriminate.
Qed.

(** C2. For a task whose file name is found in the old metadata: with
    skip-stat the cached record is used whatever the file looks like (no
    [stat], no parse); without it, once [stat] has answered, the cached record
    is used exactly when mtime, size and checksum type all agree with the
    record, and on a mismatch the package is parsed with
    [package_from_file]. *)
Theorem cache_hit_decision (w : World) (udata : UserData) (task : PoolTask)
    (ht : gmap string Package) (md : Package) :
  ud_old_metadata udata = Some ht ->
  ht !! task_filename task = Some md ->
  (ud_skip_stat udata = true ->
     tr_old_used (dumper_thread w udata task) = true
     /\ tr_pkg (dumper_thread w udata task)
        = Some (set_locations md
                  (str_drop (ud_repodir_name_len udata) (task_full_path task))
                  (ud_location_base udata))
     /\ ~ In (EvStat (task_full_path task)) (tr_events (dumper_thread w udata task))
     /\ ~ In (EvPackageFromFile (task_full_path task))
             (tr_events (dumper_thread w udata task)))
  /\ (forall sb, ud_skip_stat udata = false ->
        stat w (task_full_path task) = Some sb ->
        (tr_old_used (dumper_thread w udata task) = true
         <-> (st_mtime sb = time_file md
              /\ st_size sb = size_package md
              /\ ud_checksum_type_str udata = checksum_type md))
        /\ (tr_old_used (dumper_thread w udata task) = true ->
              tr_pkg (dumper_thread w udata task)
              = Some (set_locations md
                        (str_drop (ud_repodir_name_len udata) (task_full_path task))
                        (ud_location_base udata))
              /\ ~ In (EvPackageFromFile (task_full_path task))
                      (tr_events (dumper_thread w udata task)))
        /\ (tr_old_used (dumper_thread w udata task) = false ->
              tr_pkg (dumper_thread w udata task)
              = package_from_file w (task_full_path task) (ud_checksum_type udata)
                  (str_drop (ud_repodir_name_len udata) (task_full_path task))
                  (ud_location_base udata) (ud_changelog_limit udata)
              /\ In (EvPackageFromFile (task_full_path task))
                    (tr_events (dumper_thread w udata task)))).
Proof.
  intros Hht Hmd. split.
  - intros Hskip.
    rewrite (dumper_thread_hit w udata task ht md None Hht Hmd).
    + rewrite Hskip. simpl.
      split; [reflexivity|]. split; [reflexivity|]. split; solve_not_in.
    + rewrite Hskip. reflexivity.
    + rewrite Hskip. discriminate.
    + unfold old_md_usable. rewrite Hskip. reflexivity.
  - intros sb Hskip Hst.
    destruct (old_md_usable udata (Some sb) md) eqn:Huse.
    + pose proof (dumper_thread_hit w udata task ht md (Some sb) Hht Hmd) as Hhit.
      rewrite Hskip in Hhit. simpl in Hhit.
      specialize (Hhit Hst (fun _ => ltac:(eauto)) Huse).
      rewrite Hhit. simpl. split; [|split].
      * split; [intros _; apply old_md_usable_spec; auto | reflexivity].
      * intros _. split; [reflexivity|]. solve_not_in.
      * discriminate.
    + destruct (dumper_thread_fresh w udata task (Some sb)) as (Hu & Hp & Hin & _).
      * rewrite Hht, Hskip. simpl. exact Hst.
      * eauto.
      * intros ht' md' Hht' Hmd'. rewrite Hht in Hht'. inversion Hht'; subst ht'.
        rewrite Hmd in Hmd'. inversion Hmd'; subst md'. exact Huse.
      * rewrite Hu. split; [|split].
        -- split; [discriminate|].
           intros Hc. apply old_md_usable_spec in Hc; auto. congruence.
        -- discriminate.
        -- intros _. split; assumption.
Qed.

(** C5. When the cached record is used, the record handed to the three
    sinks (and left in the table) is the cached one with [location_href] and
    [location_base] set to this run's values; every other field is the
    cached record's. *)
Theorem cache_hit_frame (w : World) (udata : UserData) (task : PoolTask)
    (ht : gmap string Package) (md : Package) :
  ud_old_metadata udata = Some ht ->
  ht !! task_filename task = Some md ->
  tr_old_used (dumper_thread w udata task) = true ->
  exists md',
    tr_pkg (dumper_thread w udata task) = Some md'
    /\ (forall f, In (EvCwPuts f (XmlPackage f md'))
                     (tr_events (dumper_thread w udata task)))
    /\ tr_old_metadata (dumper_thread w udata task)
       = Some (<[task_filename task := md']> ht)
    /\ location_href md'
       = str_drop (ud_repodir_name_len udata) (task_full_path task)
    /\ location_base md' = ud_location_base udata
    /\ pkg_name md' = pkg_name md /\ pkg_epoch md' = pkg_epoch md
    /\ pkg_version md' = pkg_version md /\ pkg_release md' = pkg_release md
    /\ pkg_arch md' = pkg_arch md /\ pkgId md' = pkgId md
    /\ checksum_type md' = checksum_type md
    /\ size_package md' = size_package md
    /\ time_file md' = time_file md /\ time_build md' = time_build md
    /\ pkg_provides md' = pkg_provides md /\ pkg_requires md' = pkg_requires md
    /\ pkg_conflicts md' = pkg_conflicts md
    /\ pkg_obsoletes md' = pkg_obsoletes md
    /\ pkg_suggests md' = pkg_suggests md /\ pkg_enhances md' = pkg_enhances md
    /\ pkg_recommends md' = pkg_recommends md
    /\ pkg_supplements md' = pkg_supplements md
    /\ pkg_files md' = pkg_files md /\ pkg_changelogs md' = pkg_changelogs md.
Proof.
  intros Hht Hmd Hused.
  destruct (dumper_thread_old_used w udata task ht md Hht Hmd Hused) as [Huse Hsome].
  rewrite (dumper_thread_hit w udata task ht md _ Hht Hmd eq_refl); cycle 1.
  - intros Hskip. rewrite Hskip. simpl. auto.
  - exact Huse.
  - eexists. split; [reflexivity|]. split.
    + intros f. cbn [tr_events]. rewrite !in_app_iff.
      right. right. left. apply write_sinks_puts.
    + cbn [tr_old_metadata]. repeat split; reflexivity.
Qed.

Lemma cache_hit_decision_witness :
  tr_old_used (dumper_thread sample_world sample_udata sample_task_a) = true.
Proof.
  refine (proj2 (proj1 (proj2 (cache_hit_decision sample_world sample_udata
            sample_task_a sample_cache sample_md_a _ _)
            {| st_mtime := 100; st_size := 10 |} _ _)) _).
  - vm_compute. reflexivity.
  - vm_compute. reflexivity.
  - reflexivity.
  - reflexivity.
  - vm_compute. repeat split; reflexivity.
Defined.

Lemma cache_hit_frame_witness :
  exists md',
    tr_pkg (dumper_thread sample_world sample_udata sample_task_a) = Some md'
    /\ location_href md' = "a.rpm"
    /\ location_base md' = None
    /\ pkg_name md' = "a-in".
Proof.
  destruct (cache_hit_frame sample_world sample_udata sample_task_a
              sample_cache sample_md_a) as (md' & Hpkg & _ & _ & Hhref & Hbase & Hname & _).
  - vm_compute. reflexivity.
  - vm_compute. reflexivity.
  - vm_compute. reflexivity.
  - exists md'. repeat split; assumption.
Defined.

(** ** The walk: symbolic links *)

(** With skip-symlinks on, an entry that is a symbolic link is never made a
    task; the test is made for [.rpm] names only, any other name that
    resolves to a directory is queued for the walk. *)
Lemma walk_entry_symlink w cmd_options in_dir_len dirname filename :
  skip_symlinks cmd_options = true ->
  g_file_test_is_symlink w (dirname +:+ "/" +:+ filename) = true ->
  walk_entry w cmd_options in_dir_len dirname filename
  = if g_str_has_suffix filename ".rpm" then SkipEntry
    else if negb (g_file_test_is_regular w (dirname +:+ "/" +:+ filename))
            && g_file_test_is_dir w (dirname +:+ "/" +:+ filename)
         then ScanDir (dirname +:+ "/" +:+ filename)
         else SkipEntry.
Proof.
  intros Hskip Hlink. unfold walk_entry. rewrite Hskip, Hlink.
  destruct (g_str_has_suffix filename ".rpm"); reflexivity.
Qed.

(** C9 (as the code has it). In the recursive walk with skip-symlinks on, a
    directory entry that is a symbolic link yields no task; one whose name
    ends in [.rpm] is skipped altogether; one whose name does not end in
    [.rpm] is queued for traversal exactly when it resolves to a directory
    (and not to a regular file), as any other entry is. *)
Theorem symlink_entry_no_task (w : World) (cmd_options : CmdOptions)
    (in_dir_len : nat) (dirname filename : string) :
  skip_symlinks cmd_options = true ->
  g_file_test_is_symlink w (dirname +:+ "/" +:+ filename) = true ->
  (forall task,
     walk_entry w cmd_options in_dir_len dirname filename <> AddPkg task)
  /\ (g_str_has_suffix filename ".rpm" = true ->
        walk_entry w cmd_options in_dir_len dirname filename = SkipEntry)
  /\ (g_str_has_suffix filename ".rpm" = false ->
        (walk_entry w cmd_options in_dir_len dirname filename
         = ScanDir (dirname +:+ "/" +:+ filename)
         <-> (g_file_test_is_regular w (dirname +:+ "/" +:+ filename) = false
              /\ g_file_test_is_dir w (dirname +:+ "/" +:+ filename) = true))).
Proof.
  intros Hskip Hlink.
  rewrite (walk_entry_symlink w cmd_options in_dir_len dirname filename Hskip Hlink).
  destruct (g_str_has_suffix filename ".rpm");
    destruct (g_file_test_is_regular w _), (g_file_test_is_dir w _); simpl;
    (split; [intros task H; discriminate H |
     split; [intros H; first [reflexivity | discriminate H] |
             intros H; first [discriminate H | split; intros H';
               first [reflexivity | discriminate H'
                     | destruct H'; discriminate | auto]]]]).
Qed.

Lemma symlink_entry_no_task_witness :
  walk_entry sample_world sample_options 6 "/repo" "s.rpm" = SkipEntry.
Proof.
  refine (proj1 (proj2 (symlink_entry_no_task sample_world sample_options 6
                          "/repo" "s.rpm" _ _)) _); reflexivity.
Defined.

(** C9 fails as stated: in the sample repository, with skip-symlinks on,
    [pool] is a symbolic link to a directory; it is queued for traversal and
    the package inside it becomes a task. *)
Lemma symlink_to_directory_is_walked :
  skip_symlinks sample_options = true
  /\ g_file_test_is_symlink sample_world "/repo/pool" = true
  /\ g_file_test_is_dir sample_world "/repo/pool" = true
  /\ walk_entry sample_world sample_options 6 "/repo" "pool" = ScanDir "/repo/pool"
  /\ In (EvPoolPush sample_task_c) (m_trace sample_run).
Proof. vm_compute. intuition. Qed.

(** ** The Python entry points *)

(** C10. Once the argument tuple is parsed, each of the three entry points
    returns an error and calls no parser when one of [newpkgcb], [pkgcb],
    [warningcb] is neither callable nor [None] (a [TypeError]), and when
    [newpkgcb] and [pkgcb] are both [None] (a [ValueError]; the [TypeError]
    of a bad [warningcb] comes first). *)
Theorem py_xml_parse_checks_callbacks (lib : XmlParserLib)
    (args5 args4 : list PyObject) (filename : string)
    (py_newpkgcb py_pkgcb py_warningcb : PyObject) (do_files : Z) :
  PyArg_ParseTuple_sOOOi args5
  = inr (filename, py_newpkgcb, py_pkgcb, py_warningcb, do_files) ->
  PyArg_ParseTuple_sOOO args4
  = inr (filename, py_newpkgcb, py_pkgcb, py_warningcb) ->
  (bad_callback py_newpkgcb = true \/ bad_callback py_pkgcb = true
   \/ bad_callback py_warningcb = true ->
     rejected PyExc_TypeError (py_xml_parse_primary lib args5)
     /\ rejected PyExc_TypeError (py_xml_parse_filelists lib args4)
     /\ rejected PyExc_TypeError (py_xml_parse_other lib args4))
  /\ (py_newpkgcb = Py_None -> py_pkgcb = Py_None ->
        rejected (if bad_callback py_warningcb
                  then PyExc_TypeError else PyExc_ValueError)
                 (py_xml_parse_primary lib args5)
        /\ rejected (if bad_callback py_warningcb
                     then PyExc_TypeError else PyExc_ValueError)
                    (py_xml_parse_filelists lib args4)
        /\ rejected (if bad_callback py_warningcb
                     then PyExc_TypeError else PyExc_ValueError)
                    (py_xml_parse_other lib args4)).
Proof.
  intros H5 H4.
  unfold py_xml_parse_primary, py_xml_parse_filelists, py_xml_parse_other,
    rejected, bad_callback.
  rewrite H5, H4. cbn beta iota. split.
  - destruct (negb (PyCallable_Check py_newpkgcb) && negb (is_Py_None py_newpkgcb));
      [eauto 10|].
    destruct (negb (PyCallable_Check py_pkgcb) && negb (is_Py_None py_pkgcb));
      [eauto 10|].
    destruct (negb (PyCallable_Check py_warningcb) && negb (is_Py_None py_warningcb));
      [eauto 10|].
    intros [H|[H|H]]; discriminate.
  - intros -> ->. simpl.
    destruct (negb (PyCallable_Check py_warningcb) && negb (is_Py_None py_warningcb));
      eauto 10.
Qed.

Lemma py_xml_parse_checks_callbacks_witness :
  rejected PyExc_TypeError
    (py_xml_parse_primary sample_lib
       [PyString "primary.xml"; PyOther; Py_None; Py_None; PyLong 1])
  /\ rejected PyExc_ValueError
       (py_xml_parse_other sample_lib
          [PyString "other.xml"; Py_None; Py_None; PyFunction "warn"]).
Proof.
  split.
  - refine (proj1 (proj1 (py_xml_parse_checks_callbacks sample_lib
              [PyString "primary.xml"; PyOther; Py_None; Py_None; PyLong 1]
              [PyString "primary.xml"; PyOther; Py_None; Py_None]
              "primary.xml" PyOther Py_None Py_None 1 _ _) _));
      [reflexivity | reflexivity | left; reflexivity].
  - refine (proj2 (proj2 (proj2 (py_xml_parse_checks_callbacks sample_lib
              [PyString "other.xml"; Py_None; Py_None; PyFunction "warn"; PyLong 0]
              [PyString "other.xml"; Py_None; Py_None; PyFunction "warn"]
              "other.xml" Py_None Py_None (PyFunction "warn") 0 _ _) _ _)));
      reflexivity.
Defined.

(** A file name with an embedded NUL never gets as far as the callback
    checks: the argument tuple does not parse, the entry point returns the
    conversion's error and calls no parser. *)
Lemma py_xml_parse_embedded_null lib filename a b c i :
  has_nul filename = true ->
  py_xml_parse_primary lib [PyString filename; a; b; c; i] = (embedded_null_error, [])
  /\ py_xml_parse_filelists lib [PyString filename; a; b; c] = (embedded_null_error, [])
  /\ py_xml_parse_other lib [PyString filename; a; b; c] = (embedded_null_error, []).
Proof.
  intros Hnul.
  unfold py_xml_parse_primary, py_xml_parse_filelists, py_xml_parse_other,
    PyArg_ParseTuple_sOOOi, PyArg_ParseTuple_sOOO.
  rewrite Hnul. repeat split; reflexivity.
Qed.

(** ** The monad *)

Lemma bind_trace {A B} (m : M A) (f : A -> M B) :
  m_trace (m ≫= f)
  = m_trace m ++ match m_res m with Ret a => m_trace (f a) | _ => [] end.
Proof.
  unfold mbind, M_bind. destruct (m_res m); simpl; auto using app_nil_r.
Qed.

Lemma bind_res {A B} (m : M A) (f : A -> M B) :
  m_res (m ≫= f)
  = match m_res m with
    | Ret a => m_res (f a)
    | Exit status => Exit status
    | OutOfFuel => OutOfFuel
    end.
Proof. unfold mbind, M_bind. destruct (m_res m); reflexivity. Qed.

Lemma Forall_bind {A B} (P : Event -> Prop) (m : M A) (f : A -> M B) :
  Forall P (m_trace m) ->
  (forall a, m_res m = Ret a -> Forall P (m_trace (f a))) ->
  Forall P (m_trace (m ≫= f)).
Proof.
  intros Hm Hf. rewrite bind_trace. apply Forall_app. split; [exact Hm|].
  destruct (m_res m); auto.
Qed.

(** Trace and result of a chain of binds, as far as they compute. *)
Ltac norm_bind :=
  repeat first
    [ rewrite bind_trace
    | rewrite bind_res
    | progress cbn [m_res m_trace emit emits mret M_ret g_warning g_critical exit] ].

(** Every event of a trace built from binds, conditionals and fixed event
    lists satisfies a decidable predicate. *)
Ltac trace_quiet :=
  repeat first
    [ progress unfold when, emit, emits, g_critical, g_warning, exit
    | match goal with
      | |- Forall _ [] => constructor
      | |- Forall _ (_ :: _) => constructor; [reflexivity|]
      | |- Forall _ (m_trace (_ ≫= _)) => apply Forall_bind; [|intros]
      | |- Forall _ (m_trace (M_bind _ _ _ _)) => apply Forall_bind; [|intros]
      end
    | progress cbn [m_trace mret M_ret]
    | case_match ].

Lemma check_input_quiet w d : Forall (fun e => calm e = true) (m_trace (check_input w d)).
Proof. unfold check_input. trace_quiet. Qed.

Lemma copy_groupfile_quiet w cmd_options d :
  Forall (fun e => calm e = true) (m_trace (copy_groupfile w cmd_options d)).
Proof. unfold copy_groupfile. trace_quiet. Qed.

Lemma copy_groupfile_returns w cmd_options d :
  exists g, m_res (copy_groupfile w cmd_options d) = Ret g.
Proof.
  unfold copy_groupfile. destruct (groupfile_fullpath cmd_options); simpl; eauto.
  destruct (better_copy_file w _ _); simpl; eauto.
Qed.

Lemma load_update_md_paths_quiet w ht paths :
  Forall (fun e => calm e = true) (m_trace (load_update_md_paths w ht paths)).
Proof.
  revert ht. induction paths as [|path paths IH]; intros ht;
    cbn [load_update_md_paths].
  - constructor.
  - trace_quiet; apply IH.
Qed.

Lemma load_update_md_paths_res w ht paths :
  m_res (load_update_md_paths w ht paths)
  = Ret (fold_left (fun ht path => snd (locate_and_load_xml_metadata w ht path))
                   paths ht).
Proof.
  revert ht. induction paths as [|path paths IH]; intros ht;
    cbn [load_update_md_paths fold_left].
  - reflexivity.
  - rewrite !bind_res. unfold when, emit. cbn [m_res].
    destruct (negb (fst (locate_and_load_xml_metadata w ht path)));
      cbn [m_res mret M_ret g_warning emit]; apply IH.
Qed.

Lemma load_old_metadata_quiet w cmd_options in_dir out_dir :
  Forall (fun e => calm e = true)
         (m_trace (load_old_metadata w cmd_options in_dir out_dir)).
Proof.
  unfold load_old_metadata. trace_quiet; apply load_update_md_paths_quiet.
Qed.

(** ** Loading old metadata *)

Lemma lookup_load_entries key entries (ht : gmap string Package) :
  fold_left (fun ht kv => <[fst kv := snd kv]> ht) entries ht !! key
  = entries_lookup key entries (ht !! key).
Proof.
  unfold entries_lookup. revert ht.
  induction entries as [|[k v] entries IH]; intros ht; simpl; [reflexivity|].
  rewrite IH. f_equal.
  destruct (String.eqb_spec k key) as [->|Hne].
  - apply lookup_insert_eq.
  - apply lookup_insert_ne. exact Hne.
Qed.

Lemma lookup_load_sources w key sources (ht : gmap string Package) :
  fold_left (fun ht path => snd (locate_and_load_xml_metadata w ht path)) sources ht
    !! key
  = fold_left (fun acc path => entries_lookup key (snd (repo_metadata w path)) acc)
              sources (ht !! key).
Proof.
  revert ht. induction sources as [|path sources IH]; intros ht; simpl;
    [reflexivity|].
  rewrite IH. f_equal. unfold locate_and_load_xml_metadata. simpl.
  apply lookup_load_entries.
Qed.

Lemma entries_lookup_found key entries acc p :
  entries_lookup key entries None = Some p ->
  entries_lookup key entries acc = Some p.
Proof.
  unfold entries_lookup. revert acc.
  induction entries as [|[k v] entries IH] using rev_ind; intros acc; simpl.
  - discriminate.
  - rewrite !fold_left_app. simpl.
    destruct (String.eqb k key); [auto|]. apply IH.
Qed.

Lemma entries_lookup_absent key entries acc :
  entries_lookup key entries None = None ->
  entries_lookup key entries acc = acc.
Proof.
  unfold entries_lookup. revert acc.
  induction entries as [|[k v] entries IH] using rev_ind; intros acc; simpl.
  - reflexivity.
  - rewrite !fold_left_app. simpl.
    destruct (String.eqb k key); [discriminate|]. apply IH.
Qed.

Lemma loaded_paths_app evs1 evs2 :
  loaded_paths (evs1 ++ evs2) = loaded_paths evs1 ++ loaded_paths evs2.
Proof.
  induction evs1 as [|e evs1 IH]; simpl; [reflexivity|].
  destruct e; simpl; rewrite ?IH; reflexivity.
Qed.

Lemma load_update_md_paths_loaded w ht paths :
  loaded_paths (m_trace (load_update_md_paths w ht paths)) = paths.
Proof.
  revert ht. induction paths as [|path paths IH]; intros ht;
    cbn [load_update_md_paths]; [reflexivity|].
  rewrite !bind_trace. unfold when, emit. cbn [m_res m_trace].
  destruct (negb (fst (locate_and_load_xml_metadata w ht path)));
    cbn [m_res m_trace mret M_ret g_warning emit];
    rewrite !loaded_paths_app, IH; reflexivity.
Qed.

(** C6. With [--update] the old metadata is loaded from the output
    directory (only when one is given), then the input directory, then each
    [--update-md-path] in list order, and the table that results holds for
    every file name the record of the last source that has it; so a record
    of the input directory replaces the one of the output directory. *)
Theorem old_metadata_load_order (w : World) (cmd_options : CmdOptions)
    (in_dir out_dir : string) :
  update cmd_options = true ->
  exists table,
    m_res (load_old_metadata w cmd_options in_dir out_dir) = Ret (Some table)
    /\ loaded_paths (m_trace (load_old_metadata w cmd_options in_dir out_dir))
       = spec_metadata_sources cmd_options in_dir out_dir
    /\ (forall key,
          table !! key
          = spec_cache_lookup w key (spec_metadata_sources cmd_options in_dir out_dir))
    /\ (forall key pkg_in,
          entries_lookup key (snd (repo_metadata w in_dir)) None = Some pkg_in ->
          (forall path, In path (l_update_md_paths cmd_options) ->
                        entries_lookup key (snd (repo_metadata w path)) None = None) ->
          table !! key = Some pkg_in).
Proof.
  intros Hupd.
  set (sources := spec_metadata_sources cmd_options in_dir out_dir).
  exists (fold_left (fun ht path => snd (locate_and_load_xml_metadata w ht path))
                    sources ∅).
  assert (Hres : m_res (load_old_metadata w cmd_options in_dir out_dir)
                 = Ret (Some (fold_left
                     (fun ht path => snd (locate_and_load_xml_metadata w ht path))
                     sources ∅))).
  { unfold load_old_metadata, sources, spec_metadata_sources. rewrite Hupd.
    destruct (outputdir cmd_options); norm_bind;
      rewrite load_update_md_paths_res; reflexivity. }
  assert (Hlook : forall key,
            fold_left (fun ht path => snd (locate_and_load_xml_metadata w ht path))
                      sources ∅ !! key
            = spec_cache_lookup w key sources).
  { intros key. rewrite lookup_load_sources. rewrite lookup_empty. reflexivity. }
  split; [exact Hres|]. split; [|split; [exact Hlook|]].
  - unfold load_old_metadata, sources, spec_metadata_sources. rewrite Hupd.
    destruct (outputdir cmd_options); norm_bind;
      rewrite load_update_md_paths_res; cbn [m_trace mret M_ret];
      rewrite ?loaded_paths_app, ?app_nil_r; cbn [loaded_paths app];
      rewrite load_update_md_paths_loaded; reflexivity.
  - intros key pkg_in Hin Hnone. rewrite Hlook.
    unfold spec_cache_lookup, sources, spec_metadata_sources.
    rewrite !fold_left_app. cbn [fold_left].
    rewrite (entries_lookup_found key _ _ pkg_in Hin).
    induction (l_update_md_paths cmd_options) as [|path paths IH]; simpl;
      [reflexivity|].
    rewrite entries_lookup_absent by (apply Hnone; left; reflexivity).
    apply IH. intros path' Hp. apply Hnone. right. exact Hp.
Qed.

Lemma old_metadata_load_order_witness :
  exists table,
    m_res (load_old_metadata sample_world sample_options "/repo/" "/out/")
    = Ret (Some table)
    /\ table !! "a.rpm" = Some sample_md_a.
Proof.
  destruct (old_metadata_load_order sample_world sample_options "/repo/" "/out/")
    as (table & Hres & _ & _ & Hin); [reflexivity|].
  exists table. split; [exact Hres|].
  apply Hin; [reflexivity|].
  intros path [<-|[]]. reflexivity.
Defined.

(** ** The phases of [main] *)

Lemma calm_settled evs :
  Forall (fun e => calm e = true) evs -> Forall (fun e => settled e = true) evs.
Proof.
  intros H. eapply Forall_impl; [exact H|].
  intros e. destruct e; simpl; auto.
Qed.

Lemma create_tmp_out_repo_spec w d :
  (m_res (create_tmp_out_repo w d) = Ret tt
   /\ m_trace (create_tmp_out_repo w d) = [EvMkdir (tmp_out_repo d)])
  \/ (m_res (create_tmp_out_repo w d) = Exit 1
      /\ Forall (fun e => calm e = true) (m_trace (create_tmp_out_repo w d))).
Proof.
  unfold create_tmp_out_repo. destruct (g_mkdir w (tmp_out_repo d)).
  - left. split; reflexivity.
  - right. split; [reflexivity | trace_quiet].
  - right. split; [reflexivity | trace_quiet].
Qed.

Lemma setup_sigint_spec w d :
  (m_res (setup_sigint w d) = Ret tt
   /\ m_trace (setup_sigint w d)
      = [EvSetTmpRepodataPath (Some (tmp_out_repo d)); EvSigaction])
  \/ (m_res (setup_sigint w d) = Exit 1
      /\ m_trace (setup_sigint w d)
         = [EvSetTmpRepodataPath (Some (tmp_out_repo d));
            EvLog LOG_CRITICAL "sigaction()"]).
Proof.
  unfold setup_sigint. destruct (sigaction_ok w); [left | right];
    split; reflexivity.
Qed.

Lemma load_old_metadata_returns w cmd_options in_dir out_dir :
  exists om, m_res (load_old_metadata w cmd_options in_dir out_dir) = Ret om.
Proof.
  unfold load_old_metadata. destruct (update cmd_options); [|eexists; reflexivity].
  destruct (outputdir cmd_options); norm_bind;
    rewrite load_update_md_paths_res; eexists; reflexivity.
Qed.

Lemma open_xml_files_spec w :
  Forall (fun e => calm e = true) (m_trace (open_xml_files w))
  /\ ((m_res (open_xml_files w) = Ret tt
       /\ forall f, In (EvCwOpen f) (m_trace (open_xml_files w)))
      \/ m_res (open_xml_files w) = Exit 1).
Proof.
  unfold open_xml_files.
  destruct (cw_open w PRI), (cw_open w FIL), (cw_open w OTH);
    (split; [trace_quiet | first [right; reflexivity | left]]).
  split; [reflexivity|]. intros f. destruct f; simpl; auto.
Qed.

Lemma open_databases_spec w cmd_options :
  Forall (fun e => calm e = true) (m_trace (open_databases w cmd_options))
  /\ exists st, m_res (open_databases w cmd_options) = Ret st.
Proof.
  unfold open_databases. destruct (no_database cmd_options);
    (split; [trace_quiet | eexists; reflexivity]).
Qed.

Lemma check_input_res w d :
  m_res (check_input w d) = Ret tt \/ m_res (check_input w d) = Exit 1.
Proof.
  unfold check_input, when.
  destruct (negb (g_file_test_exists w (in_dir d) || g_file_test_is_dir w (in_dir d)));
    destruct (negb (check_arguments w)); simpl; auto.
Qed.

Lemma main_setup_spec w cmd_options d :
  Forall (fun e => settled e = true) (m_trace (main_setup w cmd_options d))
  /\ ((exists g om st Q1 Q2,
         m_res (main_setup w cmd_options d) = Ret (g, om, st)
         /\ m_res (load_old_metadata w cmd_options (in_dir d) (out_dir d)) = Ret om
         /\ m_trace (main_setup w cmd_options d)
            = Q1 ++ [EvMkdir (tmp_out_repo d);
                     EvSetTmpRepodataPath (Some (tmp_out_repo d));
                     EvSigaction] ++ Q2
         /\ Forall (fun e => calm e = true) Q1
         /\ Forall (fun e => calm e = true) Q2
         /\ forall f, In (EvCwOpen f) Q2)
      \/ m_res (main_setup w cmd_options d) = Exit 1).
Proof.
  unfold main_setup. norm_bind.
  pose proof (check_input_quiet w d) as Hq1.
  destruct (check_input_res w d) as [H1|H1]; rewrite H1; cbn beta iota; norm_bind;
    [|split; [rewrite app_nil_r; apply calm_settled, Hq1 | right; reflexivity]].
  destruct (create_tmp_out_repo_spec w d) as [[H2 T2]|[H2 T2]]; rewrite H2; cbn beta iota; norm_bind;
    [|split; [rewrite app_nil_r; apply Forall_app; split; apply calm_settled; assumption
             | right; reflexivity]].
  rewrite T2.
  destruct (setup_sigint_spec w d) as [[H3 T3]|[H3 T3]]; rewrite H3, T3; cbn beta iota; norm_bind;
    [|split; [apply Forall_app; split; [apply calm_settled, Hq1 | repeat constructor]
             | right; reflexivity]].
  destruct (copy_groupfile_returns w cmd_options d) as [g H4]. rewrite H4; cbn beta iota; norm_bind.
  pose proof (copy_groupfile_quiet w cmd_options d) as Hq4.
  destruct (load_old_metadata_returns w cmd_options (in_dir d) (out_dir d)) as [om H5].
  rewrite H5; cbn beta iota; norm_bind.
  pose proof (load_old_metadata_quiet w cmd_options (in_dir d) (out_dir d)) as Hq5.
  destruct (open_xml_files_spec w) as [Hq6 H6].
  destruct (open_databases_spec w cmd_options) as [Hq7 [st H7]].
  destruct H6 as [[H6 Hopen]|H6]; rewrite H6; cbn beta iota; norm_bind.
  - rewrite H7; cbn beta iota; norm_bind. split.
    + repeat (apply Forall_app; split); try (apply calm_settled; assumption);
        repeat constructor.
    + left. exists g, om, st, (m_trace (check_input w d)),
        (m_trace (copy_groupfile w cmd_options d)
         ++ m_trace (load_old_metadata w cmd_options (in_dir d) (out_dir d))
         ++ m_trace (open_xml_files w) ++ m_trace (open_databases w cmd_options)).
      split; [reflexivity|]. split; [reflexivity|]. split.
      { rewrite ?app_nil_r. simpl. rewrite <- ?app_assoc. reflexivity. }
      split; [assumption|]. split.
      { repeat (apply Forall_app; split); assumption. }
      intros f. rewrite !in_app_iff. right. right. left. apply Hopen.
  - split.
    + rewrite ?app_nil_r.
      repeat (apply Forall_app; split); try (apply calm_settled; assumption);
        repeat constructor.
    + right. reflexivity.
Qed.

(** ** The walk queues tasks and counts them *)

Lemma pushed_tasks_app evs1 evs2 :
  pushed_tasks (evs1 ++ evs2) = pushed_tasks evs1 ++ pushed_tasks evs2.
Proof.
  induction evs1 as [|e evs1 IH]; simpl; [reflexivity|].
  destruct e; simpl; rewrite ?IH; reflexivity.
Qed.

Lemma read_dir_spec w cmd_options in_dir_len dirname names sub_dirs n :
  Forall (fun e => walk_event e = true)
         (fst (fst (read_dir w cmd_options in_dir_len dirname names sub_dirs n)))
  /\ snd (read_dir w cmd_options in_dir_len dirname names sub_dirs n)
     = n + Z.of_nat (length (pushed_tasks
             (fst (fst (read_dir w cmd_options in_dir_len dirname names sub_dirs n))))).
Proof.
  revert sub_dirs n. induction names as [|filename names IH]; intros sub_dirs n;
    cbn [read_dir].
  - simpl. split; [constructor | lia].
  - destruct (walk_entry w cmd_options in_dir_len dirname filename); try apply IH.
    specialize (IH sub_dirs (n + 1)).
    destruct (read_dir w cmd_options in_dir_len dirname names sub_dirs (n + 1))
      as [[evs sd] n'].
    simpl in *. destruct IH as [IH1 IH2]. split; [constructor; auto | lia].
Qed.

Lemma walk_dirs_spec fuel w cmd_options in_dir_len sub_dirs n evs n' :
  walk_dirs fuel w cmd_options in_dir_len sub_dirs n = Some (evs, n') ->
  Forall (fun e => walk_event e = true) evs
  /\ n' = n + Z.of_nat (length (pushed_tasks evs)).
Proof.
  revert sub_dirs n evs n'. induction fuel as [|fuel IH];
    intros sub_dirs n evs n'; cbn [walk_dirs]; [discriminate|].
  destruct sub_dirs as [|dirname rest].
  - intros [= <- <-]. simpl. split; [constructor | lia].
  - destruct (g_dir_open w dirname) as [names|].
    + pose proof (read_dir_spec w cmd_options in_dir_len dirname names rest n) as Hrd.
      destruct (read_dir w cmd_options in_dir_len dirname names rest n)
        as [[evs1 sd] n1].
      simpl in Hrd. destruct Hrd as [Hrd1 Hrd2].
      destruct (walk_dirs fuel w cmd_options in_dir_len sd n1) as [[evs2 n2]|] eqn:Hw;
        simpl; [|discriminate].
      intros [= <- <-]. destruct (IH _ _ _ _ Hw) as [IH1 IH2].
      split; [apply Forall_app; auto|].
      rewrite pushed_tasks_app, length_app. lia.
    + destruct (walk_dirs fuel w cmd_options in_dir_len rest n) as [[evs2 n2]|] eqn:Hw;
        simpl; [|discriminate].
      intros [= <- <-]. destruct (IH _ _ _ _ Hw) as [IH1 IH2].
      split; [constructor; auto|]. simpl. exact IH2.
Qed.

Lemma walk_pkglist_spec w cmd_options in_dir pkgs n :
  Forall (fun e => walk_event e = true)
         (fst (walk_pkglist w cmd_options in_dir pkgs n))
  /\ snd (walk_pkglist w cmd_options in_dir pkgs n)
     = n + Z.of_nat (length (pushed_tasks
             (fst (walk_pkglist w cmd_options in_dir pkgs n)))).
Proof.
  revert n. induction pkgs as [|relative_path pkgs IH]; intros n;
    cbn [walk_pkglist].
  - simpl. split; [constructor | lia].
  - destruct (allowed_file w _ cmd_options); [|apply IH].
    specialize (IH (n + 1)).
    destruct (walk_pkglist w cmd_options in_dir pkgs (n + 1)) as [evs n'].
    simpl in *. destruct IH as [IH1 IH2]. split; [constructor; auto | lia].
Qed.

Lemma walk_spec fuel w cmd_options in_dir :
  (exists n, m_res (walk fuel w cmd_options in_dir) = Ret n
             /\ Forall (fun e => walk_event e = true)
                       (m_trace (walk fuel w cmd_options in_dir))
             /\ n = Z.of_nat (length (pushed_tasks
                                (m_trace (walk fuel w cmd_options in_dir)))))
  \/ (m_res (walk fuel w cmd_options in_dir) = OutOfFuel
      /\ m_trace (walk fuel w cmd_options in_dir) = []).
Proof.
  unfold walk. destruct (include_pkgs cmd_options) as [|pkg pkgs].
  - destruct (walk_dirs _ _ _ _ _ _) as [[evs n]|] eqn:Hw.
    + left. exists n. destruct (walk_dirs_spec _ _ _ _ _ _ _ _ Hw) as [H1 H2].
      simpl. split; [reflexivity|]. split; [exact H1 | lia].
    + right. split; reflexivity.
  - left.
    pose proof (walk_pkglist_spec w cmd_options in_dir (pkg :: pkgs) 0) as Hs.
    destruct (walk_pkglist w cmd_options in_dir (pkg :: pkgs) 0) as [evs n].
    simpl in Hs. destruct Hs as [H1 H2].
    exists n. simpl. split; [reflexivity|]. split; [exact H1 | lia].
Qed.

Lemma main_index_spec fuel w cmd_options d :
  (exists n walk_evs,
     m_res (main_index fuel w cmd_options d) = Ret n
     /\ m_trace (main_index fuel w cmd_options d)
        = EvPoolNew 0 :: walk_evs
          ++ [EvCwPrintf PRI (XmlHeader n); EvCwPrintf FIL (XmlHeader n);
              EvCwPrintf OTH (XmlHeader n);
              EvPoolSetMaxThreads (workers cmd_options); EvPoolFree]
          ++ m_trace close_xml_files
     /\ Forall (fun e => walk_event e = true) walk_evs
     /\ n = Z.of_nat (length (pushed_tasks walk_evs)))
  \/ (m_res (main_index fuel w cmd_options d) = OutOfFuel
      /\ m_trace (main_index fuel w cmd_options d) = [EvPoolNew 0]).
Proof.
  unfold main_index. norm_bind.
  destruct (walk_spec fuel w cmd_options (in_dir d)) as [(n & Hr & Hf & Hn)|[Hr Ht]];
    rewrite Hr; cbn beta iota.
  - left. exists n, (m_trace (walk fuel w cmd_options (in_dir d))).
    unfold write_xml_headers. norm_bind.
    split; [reflexivity|]. split; [|split; assumption].
    simpl. rewrite <- ?app_assoc. reflexivity.
  - right. rewrite Ht. split; reflexivity.
Qed.

Lemma move_files_spec w d names :
  Forall (fun e => calm e = true) (m_trace (move_files w d names))
  /\ m_res (move_files w d names) = Ret tt.
Proof.
  induction names as [|filename names [IH1 IH2]]; cbn [move_files].
  - split; [constructor | reflexivity].
  - split; [trace_quiet; exact IH1|].
    norm_bind. unfold when.
    destruct (negb (g_rename w _ _)); norm_bind; exact IH2.
Qed.

Lemma move_old_repo_spec w d :
  Forall (fun e => calm e = true) (m_trace (move_old_repo w d))
  /\ m_res (move_old_repo w d)
     = if g_file_test_exists w (out_repo d)
          && negb (bool_decide (is_Some (g_dir_open w (out_repo d))))
       then Exit 1 else Ret tt.
Proof.
  unfold move_old_repo.
  destruct (g_file_test_exists w (out_repo d)); [|split; [constructor|reflexivity]].
  destruct (g_dir_open w (out_repo d)) as [names|]; simpl.
  - destruct (move_files_spec w d names) as [Hq Hr]. split.
    + trace_quiet; exact Hq.
    + norm_bind. rewrite Hr. cbn beta iota. norm_bind. unfold when.
      destruct (negb (g_rmdir w (out_repo d))); reflexivity.
  - split; [trace_quiet | reflexivity].
Qed.

Lemma finish_databases_spec w cmd_options d :
  Forall (fun e => calm e = true) (m_trace (finish_databases w cmd_options d))
  /\ m_res (finish_databases w cmd_options d) = Ret tt.
Proof.
  unfold finish_databases. destruct (no_database cmd_options);
    (split; [trace_quiet | reflexivity]).
Qed.

Lemma unique_names_spec w cmd_options g :
  Forall (fun e => calm e = true) (m_trace (unique_names w cmd_options g))
  /\ m_res (unique_names w cmd_options g) = Ret tt.
Proof.
  unfold unique_names. destruct (unique_md_filenames cmd_options);
    [|split; [constructor | reflexivity]].
  split; [|reflexivity].
  destruct (no_database cmd_options), g; simpl; repeat constructor.
Qed.

Lemma main_finalize_spec w cmd_options d g :
  (fatal_in_finalize w d = true
   /\ m_res (main_finalize w cmd_options d g) = Exit 1
   /\ Forall (fun e => calm e = true) (m_trace (main_finalize w cmd_options d g)))
  \/ (fatal_in_finalize w d = false
      /\ m_res (main_finalize w cmd_options d g) = Ret tt
      /\ exists F1 F2,
           m_trace (main_finalize w cmd_options d g)
           = F1 ++ EvRename (tmp_out_repo d) (out_repo d)
                            (g_rename w (tmp_out_repo d) (out_repo d))
                :: F2 ++ [EvWriteRepomd (out_repo d +:+ "repomd.xml");
                          EvSetTmpRepodataPath None]
           /\ Forall (fun e => calm e = true) F1
           /\ Forall (fun e => calm e = true) F2).
Proof.
  unfold main_finalize, fatal_in_finalize. norm_bind.
  destruct (move_old_repo_spec w d) as [Hq1 Hr1]. rewrite Hr1.
  destruct (g_file_test_exists w (out_repo d)
            && negb (bool_decide (is_Some (g_dir_open w (out_repo d))))) eqn:Hm;
    cbn beta iota; norm_bind.
  { left. split; [reflexivity|]. split; [reflexivity|].
    rewrite app_nil_r. exact Hq1. }
  assert (Hsw : m_res (rename_tmp_out_repo w d) = Ret tt
                /\ exists R, m_trace (rename_tmp_out_repo w d)
                   = EvRename (tmp_out_repo d) (out_repo d)
                       (g_rename w (tmp_out_repo d) (out_repo d)) :: R
                   /\ Forall (fun e => calm e = true) R).
  { unfold rename_tmp_out_repo, when.
    destruct (g_rename w (tmp_out_repo d) (out_repo d)); simpl;
      (split; [reflexivity | eexists; split; [reflexivity | repeat constructor]]). }
  destruct Hsw as [Hr2 (R & Ht2 & Hq2)]. rewrite Hr2, Ht2. cbn beta iota. norm_bind.
  assert (Hg : m_res (match g with
                      | Some g0 => emit (EvProcessGroupfile ("repodata/" +:+ get_filename w g0))
                      | None => mret tt
                      end) = Ret tt
               /\ Forall (fun e => calm e = true)
                    (m_trace (match g with
                      | Some g0 => emit (EvProcessGroupfile ("repodata/" +:+ get_filename w g0))
                      | None => mret tt
                      end))).
  { destruct g; simpl; split; auto; repeat constructor. }
  destruct Hg as [Hr3 Hq3]. rewrite Hr3. cbn beta iota. norm_bind.
  destruct (finish_databases_spec w cmd_options d) as [Hq4 Hr4]. rewrite Hr4.
  cbn beta iota. norm_bind.
  destruct (unique_names_spec w cmd_options g) as [Hq5 Hr5]. rewrite Hr5.
  cbn beta iota. norm_bind.
  unfold write_repomd.
  destruct (negb (fopen_w w (out_repo d +:+ "repomd.xml")) || negb (xml_repomd w)) eqn:Hw;
    norm_bind.
  - left. split; [simpl; exact Hw|]. split; [reflexivity|].
    repeat (apply Forall_app; split); try assumption.
    all: repeat (constructor; [reflexivity|]); try assumption; try constructor.
  - right. split; [simpl; exact Hw|]. split; [reflexivity|].
    exists (m_trace (move_old_repo w d)).
    exists (R ++ [fill_missing w d "repodata/primary.xml.gz";
                  fill_missing w d "repodata/filelists.xml.gz";
                  fill_missing w d "repodata/other.xml.gz"]
              ++ m_trace (match g with
                          | Some g0 => emit (EvProcessGroupfile ("repodata/" +:+ get_filename w g0))
                          | None => mret tt
                          end)
              ++ m_trace (finish_databases w cmd_options d)
              ++ m_trace (unique_names w cmd_options g)).
    split.
    + rewrite <- ?app_assoc. cbn [app]. rewrite <- ?app_assoc. cbn [app].
      reflexivity.
    + split; [assumption|].
      repeat (apply Forall_app; split); try assumption; repeat constructor.
Qed.

Lemma main_finalize_settled w cmd_options d g :
  Forall (fun e => settled e = true) (m_trace (main_finalize w cmd_options d g)).
Proof.
  destruct (main_finalize_spec w cmd_options d g)
    as [(_ & _ & Hq)|(_ & _ & F1 & F2 & Ht & Hq1 & Hq2)].
  - apply calm_settled, Hq.
  - rewrite Ht. apply Forall_app. split; [apply calm_settled, Hq1|].
    constructor; [reflexivity|]. apply Forall_app. split; [apply calm_settled, Hq2|].
    repeat constructor.
Qed.

(** ** [main] as a whole *)

Lemma main_unfold fuel w cmd_options argv1 :
  main fuel w cmd_options argv1
  = (main_setup w cmd_options (set_paths w cmd_options argv1)
     ≫= fun '(groupfile, old_metadata, statements) =>
          main_index fuel w cmd_options (set_paths w cmd_options argv1)
          ≫= fun package_count =>
               main_finalize w cmd_options (set_paths w cmd_options argv1) groupfile
               ≫= fun _ => mret (user_data cmd_options
                                   (set_paths w cmd_options argv1)
                                   statements old_metadata package_count)).
Proof. reflexivity. Qed.

(** A run that returns 0: its trace, from the first event to the last. *)
Lemma main_returns fuel w cmd_options argv1 udata :
  m_res (main fuel w cmd_options argv1) = Ret udata ->
  exists g om st n Q1 Q2 walk_evs F1 F2,
    m_trace (main fuel w cmd_options argv1)
    = Q1 ++ [EvMkdir (tmp_out_repo (set_paths w cmd_options argv1));
             EvSetTmpRepodataPath (Some (tmp_out_repo (set_paths w cmd_options argv1)));
             EvSigaction]
      ++ Q2 ++ EvPoolNew 0 :: walk_evs
      ++ [EvCwPrintf PRI (XmlHeader n); EvCwPrintf FIL (XmlHeader n);
          EvCwPrintf OTH (XmlHeader n);
          EvPoolSetMaxThreads (workers cmd_options); EvPoolFree]
      ++ m_trace close_xml_files
      ++ F1 ++ EvRename (tmp_out_repo (set_paths w cmd_options argv1))
                        (out_repo (set_paths w cmd_options argv1))
                        (g_rename w (tmp_out_repo (set_paths w cmd_options argv1))
                                    (out_repo (set_paths w cmd_options argv1)))
      :: F2 ++ [EvWriteRepomd (out_repo (set_paths w cmd_options argv1) +:+ "repomd.xml");
                EvSetTmpRepodataPath None]
    /\ Forall (fun e => calm e = true) Q1
    /\ Forall (fun e => calm e = true) Q2
    /\ (forall f, In (EvCwOpen f) Q2)
    /\ Forall (fun e => walk_event e = true) walk_evs
    /\ n = Z.of_nat (length (pushed_tasks walk_evs))
    /\ Forall (fun e => calm e = true) F1
    /\ Forall (fun e => calm e = true) F2
    /\ m_res (main_setup w cmd_options (set_paths w cmd_options argv1)) = Ret (g, om, st)
    /\ m_res (load_old_metadata w cmd_options
                (in_dir (set_paths w cmd_options argv1))
                (out_dir (set_paths w cmd_options argv1))) = Ret om
    /\ udata = user_data cmd_options (set_paths w cmd_options argv1) st om n
    /\ fatal_in_finalize w (set_paths w cmd_options argv1) = false.
Proof.
  rewrite main_unfold. set (d := set_paths w cmd_options argv1).
  rewrite bind_res, bind_trace.
  destruct (main_setup_spec w cmd_options d)
    as [_ [(g & om & st & Q1 & Q2 & Hr1 & Hload & Ht1 & Hq1 & Hq2 & Hopen)|Hr1]];
    rewrite Hr1; [|discriminate].
  cbn beta iota. rewrite bind_res, bind_trace.
  destruct (main_index_spec fuel w cmd_options d)
    as [(n & walk_evs & Hr2 & Ht2 & Hwalk & Hn)|[Hr2 _]];
    rewrite Hr2; [|discriminate].
  cbn beta iota. rewrite bind_res, bind_trace.
  destruct (main_finalize_spec w cmd_options d g)
    as [(Hfatal & Hr3 & _)|(Hfatal & Hr3 & F1 & F2 & Ht3 & Hf1 & Hf2)];
    rewrite Hr3; [discriminate|].
  cbn beta iota. cbn [m_res m_trace mret M_ret]. intros [= <-].
  exists g, om, st, n, Q1, Q2, walk_evs, F1, F2.
  split; [|repeat (split; [assumption || reflexivity|]); assumption].
  rewrite Ht1, Ht2, Ht3, app_nil_r.
  rewrite <- ?app_assoc. cbn [app]. rewrite <- ?app_assoc. reflexivity.
Qed.

(** Any run: the pool is started in one place only, after the headers. *)
Lemma main_shape fuel w cmd_options argv1 :
  Forall (fun e => pool_event e = false \/ e = EvPoolNew 0)
         (m_trace (main fuel w cmd_options argv1))
  \/ exists S n walk_evs T,
       m_trace (main fuel w cmd_options argv1)
       = S ++ EvPoolNew 0 :: walk_evs
         ++ [EvCwPrintf PRI (XmlHeader n); EvCwPrintf FIL (XmlHeader n);
             EvCwPrintf OTH (XmlHeader n);
             EvPoolSetMaxThreads (workers cmd_options); EvPoolFree]
         ++ T
       /\ Forall (fun e => settled e = true) S
       /\ (forall f, In (EvCwOpen f) S)
       /\ Forall (fun e => walk_event e = true) walk_evs
       /\ n = Z.of_nat (length (pushed_tasks walk_evs))
       /\ Forall (fun e => pool_event e = false) T.
Proof.
  assert (Hsp : forall evs, Forall (fun e => settled e = true) evs ->
                  Forall (fun e => pool_event e = false \/ e = EvPoolNew 0) evs).
  { intros evs H. eapply Forall_impl; [exact H|].
    intros e He. left. destruct e; simpl in *; congruence. }
  assert (Hcp : forall evs, Forall (fun e => calm e = true) evs ->
                  Forall (fun e => pool_event e = false) evs).
  { intros evs H. eapply Forall_impl; [exact H|].
    intros e He. destruct e; simpl in *; congruence. }
  rewrite main_unfold. set (d := set_paths w cmd_options argv1).
  rewrite bind_trace.
  destruct (main_setup_spec w cmd_options d)
    as [Hs [(g & om & st & Q1 & Q2 & Hr1 & Hload & Ht1 & Hq1 & Hq2 & Hopen)|Hr1]];
    rewrite Hr1; cbn beta iota;
    [|left; rewrite app_nil_r; apply Hsp, Hs].
  rewrite bind_trace.
  destruct (main_index_spec fuel w cmd_options d)
    as [(n & walk_evs & Hr2 & Ht2 & Hwalk & Hn)|[Hr2 Ht2]];
    rewrite Hr2; cbn beta iota.
  - right. exists (m_trace (main_setup w cmd_options d)), n, walk_evs.
    eexists. split; [|split; [exact Hs|split; [|split; [exact Hwalk|split; [exact Hn|]]]]].
    + rewrite Ht2. rewrite <- ?app_assoc. cbn [app]. rewrite <- ?app_assoc.
      cbn [app]. reflexivity.
    + intros f. rewrite Ht1, !in_app_iff. right. right. apply Hopen.
    + apply Forall_app. split; [repeat constructor|].
      rewrite bind_trace. apply Forall_app. split.
      * destruct (main_finalize_spec w cmd_options d g)
          as [(_ & _ & Hq)|(_ & _ & F1 & F2 & Ht3 & Hf1 & Hf2)].
        -- apply Hcp, Hq.
        -- rewrite Ht3. apply Forall_app. split; [apply Hcp, Hf1|].
           constructor; [reflexivity|]. apply Forall_app.
           split; [apply Hcp, Hf2 | repeat constructor].
      * destruct (m_res (main_finalize w cmd_options d g)); constructor.
  - left. rewrite Ht2, app_nil_r. apply Forall_app. split; [apply Hsp, Hs|].
    constructor; [right; reflexivity | constructor].
Qed.

(** ** The exit status of the last phase *)




(** ** The global [tmp_repodata_path] *)



Lemma calm_sets_only p evs :
  Forall (fun e => calm e = true) evs -> Forall (sets_only p) evs.
Proof.
  intros H. eapply Forall_impl; [exact H|].
  intros e He. destruct e; simpl in *; try exact I. discriminate.
Qed.

Lemma walk_event_sets_only p evs :
  Forall (fun e => walk_event e = true) evs -> Forall (sets_only p) evs.
Proof.
  intros H. eapply Forall_impl; [exact H|].
  intros e He. destruct e; simpl in *; try exact I. discriminate.
Qed.










(** ** No task is started before the headers are written *)

Lemma settled_frozen evs :
  Forall (fun e => settled e = true) evs -> Forall (fun e => frozen e = true) evs.
Proof.
  intros H. eapply Forall_impl; [exact H|].
  intros e He. destruct e; simpl in *; congruence.
Qed.

Lemma walk_event_frozen evs :
  Forall (fun e => walk_event e = true) evs -> Forall (fun e => frozen e = true) evs.
Proof.
  intros H. eapply Forall_impl; [exact H|].
  intros e He. destruct e; simpl in *; congruence.
Qed.

Lemma settled_no_push evs :
  Forall (fun e => settled e = true) evs -> pushed_tasks evs = [].
Proof.
  induction 1 as [|e evs He _ IH]; simpl; [reflexivity|].
  destruct e; simpl in *; auto; discriminate.
Qed.

Lemma no_pool_event_no_push evs :
  Forall (fun e => pool_event e = false) evs -> pushed_tasks evs = [].
Proof.
  induction 1 as [|e evs He _ IH]; simpl; [reflexivity|].
  destruct e; simpl in *; auto; discriminate.
Qed.

Lemma sys_inv_init trace udata : sys_inv trace (sys_init trace udata).
Proof.
  exists []. simpl. split; [reflexivity|]. split; [tauto|].
  intros _. split; [reflexivity | discriminate].
Qed.

Lemma sys_inv_step w trace c s s' :
  sys_inv trace s -> sys_step w c s = Some s' -> sys_inv trace s'.
Proof.
  intros (done & Ht & Hin & Hfro) Hstep. destruct c; simpl in Hstep.
  - (* the main thread *)
    destruct (sys_main s) as [|e rest] eqn:Hm; [discriminate|].
    injection Hstep as <-. exists (done ++ [e]). simpl.
    split; [rewrite <- app_assoc; exact Ht|]. split.
    + intros e' He'. apply in_app_iff. apply in_app_iff in He' as [He'|He'];
        [left; auto | right; exact He'].
    + intros Hf. apply Forall_app in Hf as [Hf1 Hf2].
      destruct (Hfro Hf1) as [Hw Hp]. split; [exact Hw|].
      apply Forall_cons in Hf2 as [He _].
      intros p. destruct e; simpl in *; try (apply Hp); try discriminate.
      * intros [= <-]. simpl. apply Z.eqb_eq. exact He.
      * destruct (sys_pool s) as [p0|]; simpl; [|discriminate].
        intros [= <-]. simpl. apply Hp. reflexivity.
  - (* the pool starts a task *)
    destruct (sys_pool s) as [p|] eqn:Hp; [|discriminate].
    destruct (pool_queue p) as [|t q]; [discriminate|].
    destruct (Z.of_nat (running (sys_workers s)) <? pool_max_threads p) eqn:Hlt;
      [|discriminate].
    injection Hstep as <-. exists done. simpl.
    split; [exact Ht|]. split; [exact Hin|].
    intros Hf. destruct (Hfro Hf) as [_ Hmax].
    specialize (Hmax p eq_refl). apply Z.ltb_lt in Hlt. lia.
  - (* a worker *)
    destruct (sys_workers s !! i) as [[|e rest]|] eqn:Hi; try discriminate.
    injection Hstep as <-. exists done. simpl.
    split; [exact Ht|]. split.
    + intros e' He'. apply in_app_iff. left. auto.
    + intros Hf. destruct (Hfro Hf) as [Hw _]. rewrite Hw in Hi. discriminate.
Qed.

Lemma sys_inv_run w trace sched s s' :
  sys_inv trace s -> sys_run w sched s = Some s' -> sys_inv trace s'.
Proof.
  revert s. induction sched as [|c sched IH]; intros s Hinv; simpl.
  - intros [= <-]. exact Hinv.
  - destruct (sys_step w c s) as [s1|] eqn:Hstep; [|discriminate].
    apply IH. eapply sys_inv_step; eauto.
Qed.

(** Once a call of [dumper_thread] has been started, the main thread is
    past every prefix of its trace that leaves the pool without threads. *)
Lemma started_past_frozen w trace udata sched s A B :
  sys_run w sched (sys_init trace udata) = Some s ->
  sys_workers s <> [] ->
  trace = A ++ B ->
  Forall (fun e => frozen e = true) A ->
  forall e, In e A -> In e (sys_history s).
Proof.
  intros Hrun Hw Ht HA e He.
  destruct (sys_inv_run w trace sched _ s (sys_inv_init trace udata) Hrun)
    as (done & Hd & Hin & Hfro).
  rewrite Ht in Hd. apply app_eq_app in Hd as [l [[-> _]|[-> _]]].
  - apply Forall_app in HA as [HA _]. destruct (Hfro HA) as [Hnil _]. contradiction.
  - apply Hin. apply in_app_iff. left. exact He.
Qed.

(** C7. In every run and under every schedule, once a call of
    [dumper_thread] has been started the three documents have been opened
    and their headers written with the final count N: the pool is created
    with 0 threads, before that nothing touches a document or the pool, the
    walk only queues tasks (and warns), the three headers follow, and only
    then the number of threads is raised to [workers]. *)
Theorem no_task_before_headers (fuel : nat) (w : World)
    (cmd_options : CmdOptions) (argv1 : string) (udata : UserData)
    (sched : list Choice) (s : Sys) :
  sys_run w sched (sys_init (m_trace (main fuel w cmd_options argv1)) udata) = Some s ->
  sys_workers s <> [] ->
  exists S n walk_evs T,
    m_trace (main fuel w cmd_options argv1)
    = S ++ EvPoolNew 0 :: walk_evs
      ++ [EvCwPrintf PRI (XmlHeader n); EvCwPrintf FIL (XmlHeader n);
          EvCwPrintf OTH (XmlHeader n);
          EvPoolSetMaxThreads (workers cmd_options); EvPoolFree]
      ++ T
    /\ Forall (fun e => settled e = true) S
    /\ Forall (fun e => walk_event e = true) walk_evs
    /\ Forall (fun e => pool_event e = false) T
    /\ n = Z.of_nat (length (pushed_tasks (m_trace (main fuel w cmd_options argv1))))
    /\ (forall f, In (EvCwOpen f) (sys_history s)
                  /\ In (EvCwPrintf f (XmlHeader n)) (sys_history s))
    /\ (forall task, In (EvPoolPush task) (m_trace (main fuel w cmd_options argv1)) ->
                     In (EvPoolPush task) (sys_history s)).
Proof.
  intros Hrun Hw.
  destruct (main_shape fuel w cmd_options argv1)
    as [Hall|(S & n & walk_evs & T & Ht & HS & Hopen & Hwalk & Hn & HT)].
  { exfalso.
    destruct (sys_inv_run w _ sched _ s (sys_inv_init _ udata) Hrun)
      as (done & Hd & _ & Hfro).
    assert (Hf : Forall (fun e => frozen e = true) done).
    { rewrite Hd in Hall. apply Forall_app in Hall as [Hall _].
      eapply Forall_impl; [exact Hall|].
      intros e [He| ->]; [|reflexivity]. destruct e; simpl in *; congruence. }
    destruct (Hfro Hf) as [Hnil _]. contradiction. }
  set (A := S ++ EvPoolNew 0 :: walk_evs
            ++ [EvCwPrintf PRI (XmlHeader n); EvCwPrintf FIL (XmlHeader n);
                EvCwPrintf OTH (XmlHeader n)]).
  assert (HtA : m_trace (main fuel w cmd_options argv1)
                = A ++ EvPoolSetMaxThreads (workers cmd_options) :: EvPoolFree :: T).
  { rewrite Ht. unfold A. rewrite <- ?app_assoc. cbn [app].
    rewrite <- ?app_assoc. reflexivity. }
  assert (HA : Forall (fun e => frozen e = true) A).
  { unfold A. apply Forall_app. split; [apply settled_frozen, HS|].
    constructor; [reflexivity|]. apply Forall_app.
    split; [apply walk_event_frozen, Hwalk | repeat constructor]. }
  pose proof (started_past_frozen w _ udata sched s A _ Hrun Hw HtA HA) as Hpast.
  exists S, n, walk_evs, T.
  split; [exact Ht|]. split; [exact HS|]. split; [exact Hwalk|].
  split; [exact HT|]. split; [|split].
  - rewrite Ht, !pushed_tasks_app. cbn [pushed_tasks]. rewrite !pushed_tasks_app.
    rewrite (settled_no_push S HS), (no_pool_event_no_push T HT).
    cbn [pushed_tasks app]. rewrite app_nil_r. exact Hn.
  - intros f. split; apply Hpast; unfold A; rewrite !in_app_iff.
    + left. apply Hopen.
    + right. cbn [In]. right. rewrite in_app_iff. right.
      destruct f; simpl; auto.
  - intros task Hin. apply Hpast. unfold A. rewrite Ht in Hin.
    apply in_app_iff in Hin as [Hin|Hin];
      [apply in_app_iff; left; exact Hin|].
    apply in_app_iff. right.
    destruct Hin as [Hin|Hin]; [discriminate|]. right.
    apply in_app_iff in Hin as [Hin|Hin];
      [apply in_app_iff; left; exact Hin|].
    apply in_app_iff in Hin as [Hin|Hin].
    + simpl in Hin. exfalso. intuition discriminate.
    + exfalso. rewrite List.Forall_forall in HT. specialize (HT _ Hin). discriminate.
Qed.

Lemma no_task_before_headers_witness :
  In (EvCwOpen OTH) (sys_history sample_state)
  /\ In (EvCwPrintf OTH (XmlHeader 3)) (sys_history sample_state).
Proof.
  destruct (no_task_before_headers 10 sample_world sample_options "/repo"
              sample_udata sample_sched sample_state)
    as (S & n & walk_evs & T & _ & _ & _ & _ & Hn & Hh & _).
  - vm_compute. reflexivity.
  - vm_compute. discriminate.
  - assert (Hn3 : n = 3) by (rewrite Hn; vm_compute; reflexivity).
    rewrite <- Hn3. exact (Hh OTH).
Defined.

(** ** The documents: headers and package elements *)

Lemma document_cons f e evs : document f (e :: evs) = chunk_of f e ++ document f evs.
Proof. destruct e; simpl; try reflexivity; destruct (Sink_eqb f f0); reflexivity. Qed.

Lemma document_app f evs1 evs2 :
  document f (evs1 ++ evs2) = document f evs1 ++ document f evs2.
Proof.
  induction evs1 as [|e evs1 IH]; [reflexivity|].
  rewrite <- app_comm_cons, !document_cons, IH, app_assoc. reflexivity.
Qed.

Lemma count_packages_app d1 d2 :
  count_packages (d1 ++ d2) = (count_packages d1 + count_packages d2)%nat.
Proof.
  induction d1 as [|c d1 IH]; simpl; [reflexivity|].
  destruct c; simpl; rewrite IH; reflexivity.
Qed.

Lemma packages_attr_app d1 d2 :
  packages_attr (d1 ++ d2) = packages_attr d1 ++ packages_attr d2.
Proof.
  induction d1 as [|c d1 IH]; simpl; [reflexivity|].
  destruct c; simpl; rewrite IH; reflexivity.
Qed.

(** The order in which the threads' events are interleaved changes neither
    the number of package elements of a document nor the headers in it. *)
Lemma count_packages_permutation f evs evs' :
  Permutation evs evs' ->
  count_packages (document f evs) = count_packages (document f evs').
Proof.
  induction 1 as [|e l l' _ IH|e1 e2 l|l1 l2 l3 _ IH1 _ IH2].
  - reflexivity.
  - rewrite !document_cons, !count_packages_app, IH. reflexivity.
  - rewrite !document_cons, !count_packages_app. lia.
  - congruence.
Qed.

Lemma packages_attr_permutation f evs evs' :
  Permutation evs evs' ->
  Permutation (packages_attr (document f evs)) (packages_attr (document f evs')).
Proof.
  induction 1 as [|e l l' _ IH|e1 e2 l|l1 l2 l3 _ IH1 _ IH2].
  - reflexivity.
  - rewrite !document_cons, !packages_attr_app. apply Permutation_app_head, IH.
  - rewrite !document_cons, !packages_attr_app, !app_assoc.
    apply Permutation_app_tail, Permutation_app_comm.
  - etransitivity; eauto.
Qed.

Lemma calm_document f evs :
  Forall (fun e => calm e = true) evs -> document f evs = [].
Proof.
  induction 1 as [|e evs He _ IH]; [reflexivity|].
  rewrite document_cons, IH. destruct e; simpl in *; try reflexivity; discriminate.
Qed.

Lemma walk_event_document f evs :
  Forall (fun e => walk_event e = true) evs -> document f evs = [].
Proof.
  induction 1 as [|e evs He _ IH]; [reflexivity|].
  rewrite document_cons, IH. destruct e; simpl in *; try reflexivity; discriminate.
Qed.

(** What the main thread of a run that returns 0 writes into a document:
    the header with [package_count] and the closing tag. *)
Lemma main_document fuel w cmd_options argv1 udata f :
  m_res (main fuel w cmd_options argv1) = Ret udata ->
  document f (m_trace (main fuel w cmd_options argv1))
  = [XmlHeader (Z.of_nat (length (pushed_tasks (m_trace (main fuel w cmd_options argv1)))));
     XmlFooter].
Proof.
  intros Hret.
  destruct (main_returns fuel w cmd_options argv1 udata Hret)
    as (g & om & st & n & Q1 & Q2 & walk_evs & F1 & F2
        & Ht & Hq1 & Hq2 & _ & Hw & Hn & Hf1 & Hf2 & _).
  assert (Hpush : pushed_tasks (m_trace (main fuel w cmd_options argv1))
                  = pushed_tasks walk_evs).
  { rewrite Ht.
    repeat (rewrite pushed_tasks_app; cbn [pushed_tasks]).
    rewrite (settled_no_push Q1), (settled_no_push Q2), (settled_no_push F1),
      (settled_no_push F2) by (apply calm_settled; assumption).
    cbn [close_xml_files emits m_trace app pushed_tasks].
    rewrite !app_nil_r. reflexivity. }
  rewrite Hpush, <- Hn. rewrite Ht.
  repeat (rewrite document_app; cbn [document]).
  rewrite (calm_document f Q1), (calm_document f Q2), (calm_document f F1),
    (calm_document f F2) by assumption.
  rewrite walk_event_document by assumption.
  destruct f; reflexivity.
Qed.

(** What one call of [dumper_thread] writes into a document: the fragment
    of the record handed to the sinks, if there is one. *)
Lemma dumper_thread_document w udata task f :
  document f (tr_events (dumper_thread w udata task))
  = match tr_pkg (dumper_thread w udata task) with
    | Some pkg => [XmlPackage f pkg]
    | None => []
    end.
Proof.
  unfold dumper_thread, write_sinks, write_sink, statements_of.
  destruct f; repeat case_match; simpl in *; simplify_eq; reflexivity.
Qed.

Lemma run_tasks_length w udata tasks :
  length (run_tasks w udata tasks) = length tasks.
Proof.
  revert udata. induction tasks as [|t tasks IH]; intros udata; simpl;
    [reflexivity|]. rewrite IH. reflexivity.
Qed.

Lemma results_document f (results : list TaskResult) :
  (forall r, In r results ->
     document f (tr_events r)
     = match tr_pkg r with Some pkg => [XmlPackage f pkg] | None => [] end) ->
  packages_attr (document f (concat (map tr_events results))) = []
  /\ (count_packages (document f (concat (map tr_events results)))
      + dropped results = length results)%nat.
Proof.
  unfold dropped. induction results as [|r results IH]; intros Hdoc; simpl.
  - split; reflexivity.
  - destruct IH as [IH1 IH2]; [intros r' Hr'; apply Hdoc; right; exact Hr'|].
    rewrite document_app, packages_attr_app, count_packages_app, IH1.
    rewrite (Hdoc r) by (left; reflexivity).
    destruct (tr_pkg r) as [pkg|]; simpl.
    + split; [reflexivity | lia].
    + split; [reflexivity | lia].
Qed.

Lemma run_tasks_document w udata tasks f r :
  In r (run_tasks w udata tasks) ->
  document f (tr_events r)
  = match tr_pkg r with Some pkg => [XmlPackage f pkg] | None => [] end.
Proof.
  revert udata. induction tasks as [|t tasks IH]; intros udata; simpl; [tauto|].
  intros [<-|Hin]; [apply dumper_thread_document | eapply IH; eauto].
Qed.

(** ** The history of a finished run *)

Lemma run_tasks_app w udata tasks1 tasks2 :
  run_tasks w udata (tasks1 ++ tasks2)
  = run_tasks w udata tasks1 ++ run_tasks w (udata_after w udata tasks1) tasks2.
Proof.
  revert udata. induction tasks1 as [|t tasks1 IH]; intros udata; simpl;
    [reflexivity|]. rewrite IH. reflexivity.
Qed.

Lemma udata_after_app w udata tasks1 tasks2 :
  udata_after w udata (tasks1 ++ tasks2)
  = udata_after w (udata_after w udata tasks1) tasks2.
Proof.
  revert udata. induction tasks1 as [|t tasks1 IH]; intros udata; simpl;
    [reflexivity|]. apply IH.
Qed.

Lemma concat_insert_head (ws : list (list Event)) i e rest :
  ws !! i = Some (e :: rest) ->
  Permutation (concat ws) (e :: concat (<[i := rest]> ws)).
Proof.
  revert i. induction ws as [|x ws IH]; intros i Hi; [discriminate|].
  destruct i as [|i]; simpl in *.
  - injection Hi as ->. reflexivity.
  - rewrite (IH i Hi). symmetry. apply Permutation_middle.
Qed.

Lemma pool_after_not_pool e pool :
  pool_event e = false -> pool_after e pool = pool.
Proof. destruct e; simpl; intros; try reflexivity; discriminate. Qed.

Lemma pool_after_queue e p :
  pool_new e = false ->
  exists p', pool_after e (Some p) = Some p'
             /\ pool_queue p'
                = pool_queue p ++ match e with EvPoolPush t => [t] | _ => [] end.
Proof.
  destruct e; simpl; intros He; try discriminate;
    try (exists p; rewrite app_nil_r; split; reflexivity).
  - eexists. split; reflexivity.
  - destruct (0 <=? max_threads); eexists; simpl; rewrite app_nil_r;
      split; reflexivity.
Qed.

Lemma pushed_tasks_snoc done e :
  pushed_tasks (done ++ [e])
  = pushed_tasks done ++ match e with EvPoolPush t => [t] | _ => [] end.
Proof.
  rewrite pushed_tasks_app. destruct e; simpl; rewrite ?app_nil_r; reflexivity.
Qed.

Lemma sys_acc_init w S R udata :
  sys_acc w S R udata (sys_init (S ++ EvPoolNew 0 :: R) udata).
Proof.
  left. simpl. repeat split. exists S. split; reflexivity.
Qed.

Lemma sys_acc_step w S R udata0 c s s' :
  Forall (fun e => pool_event e = false) S ->
  Forall (fun e => pool_new e = false) R ->
  sys_acc w S R udata0 s -> sys_step w c s = Some s' -> sys_acc w S R udata0 s'.
Proof.
  intros HS HR [(Hp & Hw & Hu & rest & HSh & Hm)
               |(p & done2 & results & Hp & HRd & Hrun & Hud & Hperm)] Hstep.
  - (* before the pool exists *)
    destruct c; simpl in Hstep.
    + rewrite Hm in Hstep. destruct rest as [|e rest]; simpl in Hstep;
        injection Hstep as <-.
      * right. exists {| pool_max_threads := 0; pool_queue := [] |}, [], [].
        simpl. rewrite Hu, Hw, HSh, !app_nil_r. repeat split; reflexivity.
      * left. simpl. rewrite Hp.
        assert (He : pool_event e = false).
        { rewrite HSh in HS. apply Forall_app in HS as [_ HS].
          apply Forall_cons in HS as [He _]. exact He. }
        rewrite (pool_after_not_pool e None He).
        repeat split; auto. exists rest. split; [|reflexivity].
        rewrite HSh, <- app_assoc. reflexivity.
    + rewrite Hp in Hstep. discriminate.
    + rewrite Hw in Hstep. discriminate.
  - (* the pool exists *)
    destruct c; simpl in Hstep.
    + destruct (sys_main s) as [|e main'] eqn:Hm; [discriminate|].
      injection Hstep as <-. right.
      assert (He : pool_new e = false).
      { rewrite HRd in HR. apply Forall_app in HR as [_ HR].
        apply Forall_cons in HR as [He _]. exact He. }
      assert (Hperm' : Permutation ((sys_history s ++ [e]) ++ concat (sys_workers s))
                         (S ++ EvPoolNew 0 :: (done2 ++ [e])
                            ++ concat (map tr_events results))).
      { rewrite <- !app_assoc. cbn [app].
        rewrite <- Permutation_middle.
        rewrite (app_comm_cons done2), app_assoc.
        rewrite <- (Permutation_middle (S ++ EvPoolNew 0 :: done2)).
        rewrite <- app_assoc, <- app_comm_cons.
        apply perm_skip. exact Hperm. }
      destruct (pool_after_queue e p He) as (p' & Hp' & Hq').
      exists p', (done2 ++ [e]), results. cbn [sys_pool sys_main sys_udata
        sys_history sys_workers].
      rewrite Hp, Hp', Hq', pushed_tasks_snoc, <- app_assoc.
      rewrite !run_tasks_app, !udata_after_app, Hrun, Hud, <- app_assoc.
      repeat split; auto.
    + rewrite Hp in Hstep.
      destruct (pool_queue p) as [|t q] eqn:Hq; [discriminate|].
      destruct (Z.of_nat (running (sys_workers s)) <? pool_max_threads p);
        [|discriminate].
      injection Hstep as <-. right.
      exists {| pool_max_threads := pool_max_threads p; pool_queue := q |},
        done2, (results ++ [dumper_thread w (sys_udata s) t]).
      simpl in *. rewrite Hrun, Hud, <- app_assoc. repeat split; auto.
      rewrite concat_app, map_app, concat_app. cbn [map concat].
      rewrite !app_nil_r.
      transitivity ((sys_history s ++ concat (sys_workers s))
                    ++ tr_events (dumper_thread w (sys_udata s) t));
        [rewrite <- app_assoc; reflexivity|].
      rewrite Hperm. rewrite <- !app_assoc. cbn [app]. rewrite <- !app_assoc.
      reflexivity.
    + destruct (sys_workers s !! i) as [[|e rest]|] eqn:Hi; try discriminate.
      injection Hstep as <-. right. exists p, done2, results. simpl.
      repeat split; auto.
      rewrite <- Hperm, (concat_insert_head _ i e rest Hi).
      rewrite <- app_assoc. reflexivity.
Qed.

Lemma sys_acc_run w S R udata0 sched s s' :
  Forall (fun e => pool_event e = false) S ->
  Forall (fun e => pool_new e = false) R ->
  sys_acc w S R udata0 s -> sys_run w sched s = Some s' -> sys_acc w S R udata0 s'.
Proof.
  intros HS HR. revert s. induction sched as [|c sched IH]; intros s Hacc; simpl.
  - intros [= <-]. exact Hacc.
  - destruct (sys_step w c s) as [s1|] eqn:Hstep; [|discriminate].
    apply IH. eapply sys_acc_step; eauto.
Qed.

Lemma concat_all_nil (ws : list (list Event)) :
  Forall (fun evs => evs = []) ws -> concat ws = [].
Proof. induction 1 as [|x ws -> _ IH]; simpl; auto. Qed.

(** The history of a finished run: the main thread's trace and the events
    of [dumper_thread] on every queued task, interleaved. *)
Lemma sys_finished_history w S R udata sched s :
  Forall (fun e => pool_event e = false) S ->
  Forall (fun e => pool_new e = false) R ->
  sys_run w sched (sys_init (S ++ EvPoolNew 0 :: R) udata) = Some s ->
  sys_main s = [] ->
  (forall p, sys_pool s = Some p -> pool_queue p = []) ->
  Forall (fun evs => evs = []) (sys_workers s) ->
  Permutation (sys_history s)
    ((S ++ EvPoolNew 0 :: R)
     ++ concat (map tr_events (run_tasks w udata (pushed_tasks (S ++ EvPoolNew 0 :: R))))).
Proof.
  intros HS HR Hrun Hm Hq Hws.
  destruct (sys_acc_run w S R udata sched _ s HS HR (sys_acc_init w S R udata) Hrun)
    as [(_ & _ & _ & rest & _ & Hm')
       |(p & done2 & results & Hp & HRd & Hres & _ & Hperm)].
  - rewrite Hm in Hm'. destruct rest; discriminate.
  - rewrite Hm, app_nil_r in HRd. subst done2.
    rewrite (Hq p Hp) in Hres. simpl in Hres. rewrite app_nil_r in Hres.
    rewrite (concat_all_nil _ Hws), app_nil_r in Hperm.
    rewrite pushed_tasks_app, (no_pool_event_no_push S HS). cbn [pushed_tasks app].
    rewrite Hres, <- app_assoc. cbn [app]. exact Hperm.
Qed.

(** ** The [packages] attribute *)

Lemma calm_no_pool_event evs :
  Forall (fun e => calm e = true) evs -> Forall (fun e => pool_event e = false) evs.
Proof.
  intros H. eapply Forall_impl; [exact H|].
  intros e He. destruct e; simpl in *; congruence.
Qed.

Lemma calm_no_pool_new evs :
  Forall (fun e => calm e = true) evs -> Forall (fun e => pool_new e = false) evs.
Proof.
  intros H. eapply Forall_impl; [exact H|].
  intros e He. destruct e; simpl in *; congruence.
Qed.

Lemma walk_event_no_pool_new evs :
  Forall (fun e => walk_event e = true) evs -> Forall (fun e => pool_new e = false) evs.
Proof.
  intros H. eapply Forall_impl; [exact H|].
  intros e He. destruct e; simpl in *; congruence.
Qed.

(** C1 (as the code has it). In every run that returns 0, whatever the
    schedule, once the pool is drained each of the three documents holds
    exactly one [packages] attribute, the number N of tasks the walk queued,
    and as many [<package>] elements as N minus the number of dropped tasks
    (those whose [stat] failed or whose package could not be read). *)
Theorem packages_attribute_counts_queued_tasks (fuel : nat) (w : World)
    (cmd_options : CmdOptions) (argv1 : string) (udata : UserData)
    (sched : list Choice) (s : Sys) :
  m_res (main fuel w cmd_options argv1) = Ret udata ->
  sys_run w sched (sys_init (m_trace (main fuel w cmd_options argv1)) udata) = Some s ->
  sys_main s = [] ->
  (forall p, sys_pool s = Some p -> pool_queue p = []) ->
  Forall (fun evs => evs = []) (sys_workers s) ->
  forall f,
    packages_attr (document f (sys_history s))
    = [Z.of_nat (length (pushed_tasks (m_trace (main fuel w cmd_options argv1))))]
    /\ (count_packages (document f (sys_history s))
        + dropped (run_tasks w udata
                     (pushed_tasks (m_trace (main fuel w cmd_options argv1))))
        = length (pushed_tasks (m_trace (main fuel w cmd_options argv1))))%nat.
Proof.
  intros Hret Hrun Hm Hq Hws f.
  destruct (main_returns fuel w cmd_options argv1 udata Hret)
    as (g & om & st & n & Q1 & Q2 & walk_evs & F1 & F2
        & Ht & Hq1 & Hq2 & _ & Hw & _ & Hf1 & Hf2 & _).
  pose proof (main_document fuel w cmd_options argv1 udata f Hret) as Hdoc.
  set (trace := m_trace (main fuel w cmd_options argv1)) in *.
  set (tmp := tmp_out_repo (set_paths w cmd_options argv1)) in *.
  set (out := out_repo (set_paths w cmd_options argv1)) in *.
  assert (Hperm : Permutation (sys_history s)
            (trace ++ concat (map tr_events (run_tasks w udata (pushed_tasks trace))))).
  { assert (Hshape : trace
              = (Q1 ++ [EvMkdir tmp; EvSetTmpRepodataPath (Some tmp); EvSigaction] ++ Q2)
                ++ EvPoolNew 0
                :: (walk_evs
                    ++ [EvCwPrintf PRI (XmlHeader n); EvCwPrintf FIL (XmlHeader n);
                        EvCwPrintf OTH (XmlHeader n);
                        EvPoolSetMaxThreads (workers cmd_options); EvPoolFree]
                    ++ m_trace close_xml_files
                    ++ F1 ++ EvRename tmp out (g_rename w tmp out)
                    :: F2 ++ [EvWriteRepomd (out +:+ "repomd.xml");
                              EvSetTmpRepodataPath None])).
    { rewrite Ht, <- !app_assoc. reflexivity. }
    rewrite Hshape in Hrun |- *.
    apply (sys_finished_history w _ _ udata sched s); auto.
    - repeat first [ apply Forall_app; split
                   | apply calm_no_pool_event; assumption
                   | apply Forall_cons; split; [reflexivity|]
                   | apply Forall_nil_2 ].
    - repeat first [ apply Forall_app; split
                   | apply calm_no_pool_new; assumption
                   | apply walk_event_no_pool_new; assumption
                   | apply Forall_cons; split; [reflexivity|]
                   | apply Forall_nil_2 ]. }
  destruct (results_document f (run_tasks w udata (pushed_tasks trace)))
    as [Hattr Hcount].
  { intros r Hr. eapply run_tasks_document; eauto. }
  rewrite run_tasks_length in Hcount.
  split.
  - apply Permutation_length_1_inv.
    rewrite (packages_attr_permutation f _ _ Hperm).
    rewrite document_app, packages_attr_app, Hattr, Hdoc, app_nil_r. reflexivity.
  - rewrite (count_packages_permutation f _ _ Hperm).
    rewrite document_app, count_packages_app, Hdoc. simpl. exact Hcount.
Qed.

Lemma packages_attribute_counts_queued_tasks_witness :
  packages_attr (document PRI (sys_history sample_final_state)) = [3]
  /\ (count_packages (document PRI (sys_history sample_final_state)) + 1 = 3)%nat.
Proof.
  destruct (packages_attribute_counts_queued_tasks 10 sample_world sample_options
              "/repo" sample_udata sample_full_sched sample_final_state)
    with (f := PRI) as [Ha Hc].
  - vm_compute. reflexivity.
  - vm_compute. reflexivity.
  - vm_compute. reflexivity.
  - vm_compute. intros p [= <-]. reflexivity.
  - vm_compute. repeat constructor.
  - split; [exact Ha | exact Hc].
Defined.

(** C1 fails as stated: the sample run returns 0; [b.rpm] cannot be read
    and is dropped; each document says [packages="3"] and holds two
    [<package>] elements. *)
Lemma packages_attribute_overcounts :
  exit_status sample_run = Some 0
  /\ sys_run sample_world sample_full_sched
             (sys_init (m_trace sample_run) sample_udata) = Some sample_final_state
  /\ sys_main sample_final_state = []
  /\ tr_pkg (dumper_thread sample_world sample_udata sample_task_b) = None
  /\ packages_attr (document PRI (sys_history sample_final_state)) = [3]
  /\ count_packages (document PRI (sys_history sample_final_state)) = 2%nat
  /\ packages_attr (document FIL (sys_history sample_final_state)) = [3]
  /\ count_packages (document FIL (sys_history sample_final_state)) = 2%nat
  /\ packages_attr (document OTH (sys_history sample_final_state)) = [3]
  /\ count_packages (document OTH (sys_history sample_final_state)) = 2%nat.
Proof. vm_compute. repeat split; reflexivity. Qed.

(** ** [dumper_thread]: every way out *)

(** The four ways a call of [dumper_thread] ends. *)
Lemma dumper_thread_cases w udata task :
  let href := str_drop (ud_repodir_name_len udata) (task_full_path task) in
  if stat_failed w udata task then
    dumper_thread w udata task
    = {| tr_events := [EvStat (task_full_path task);
                       EvLog LOG_CRITICAL ("Stat() on " +:+ task_full_path task)];
         tr_old_metadata := ud_old_metadata udata;
         tr_old_used := false;
         tr_pkg := None |}
  else
    match usable_md w udata task with
    | Some md =>
        dumper_thread w udata task
        = {| tr_events :=
               stat_events udata task
               ++ [EvXmlDump (set_locations md href (ud_location_base udata))]
               ++ write_sinks udata
                    (xml_dump (set_locations md href (ud_location_base udata)))
                    (set_locations md href (ud_location_base udata))
               ++ [EvTaskFree task];
             tr_old_metadata :=
               (fun ht => <[task_filename task :=
                              set_locations md href (ud_location_base udata)]> ht)
               <$> ud_old_metadata udata;
             tr_old_used := true;
             tr_pkg := Some (set_locations md href (ud_location_base udata)) |}
    | None =>
        match package_from_file w (task_full_path task) (ud_checksum_type udata)
                href (ud_location_base udata) (ud_changelog_limit udata) with
        | Some pkg =>
            dumper_thread w udata task
            = {| tr_events :=
                   stat_events udata task
                   ++ [EvPackageFromFile (task_full_path task); EvXmlDump pkg]
                   ++ write_sinks udata (xml_dump pkg) pkg
                   ++ [EvPackageFree pkg; EvTaskFree task];
                 tr_old_metadata := ud_old_metadata udata;
                 tr_old_used := false;
                 tr_pkg := Some pkg |}
        | None =>
            dumper_thread w udata task
            = {| tr_events :=
                   stat_events udata task
                   ++ [EvPackageFromFile (task_full_path task);
                       EvLog LOG_WARNING ("Cannot read package: " +:+ task_full_path task);
                       EvTaskFree task];
                 tr_old_metadata := ud_old_metadata udata;
                 tr_old_used := false;
                 tr_pkg := None |}
        end
    end.
Proof.
  unfold stat_failed, usable_md, stat_events, dumper_thread.
  destruct (ud_old_metadata udata) as [ht|]; cbn [negb andb mbind option_bind].
  - destruct (ud_skip_stat udata) eqn:Hskip; cbn [negb andb].
    + destruct (ht !! task_filename task) as [md|] eqn:Hmd; cbn.
      * unfold old_md_usable. rewrite Hskip. reflexivity.
      * destruct (package_from_file _ _ _ _ _ _); reflexivity.
    + destruct (stat w (task_full_path task)) as [sb|] eqn:Hst; cbn.
      * destruct (ht !! task_filename task) as [md|] eqn:Hmd; cbn.
        -- destruct (old_md_usable udata (Some sb) md); [reflexivity|].
           destruct (package_from_file _ _ _ _ _ _); reflexivity.
        -- destruct (package_from_file _ _ _ _ _ _); reflexivity.
      * reflexivity.
  - cbn. destruct (package_from_file _ _ _ _ _ _); reflexivity.
Qed.

Ltac dumper_cases w udata task :=
  let Hc := fresh "Hc" in
  pose proof (dumper_thread_cases w udata task) as Hc; cbv zeta in Hc;
  destruct (stat_failed w udata task) eqn:Hsf;
  [ | destruct (usable_md w udata task) as [md|] eqn:Hum;
      [ | destruct (package_from_file w (task_full_path task) (ud_checksum_type udata)
                      (str_drop (ud_repodir_name_len udata) (task_full_path task))
                      (ud_location_base udata) (ud_changelog_limit udata))
            as [pkg|] eqn:Hpff ] ];
  rewrite Hc; cbn [tr_events tr_pkg tr_old_used tr_old_metadata].

Ltac sinks_by_cases udata :=
  unfold stat_events, write_sinks, write_sink, statements_of;
  destruct (ud_old_metadata udata); destruct (ud_skip_stat udata);
  destruct (ud_pri_statements udata), (ud_fil_statements udata),
    (ud_oth_statements udata).

(** C3. A call of [dumper_thread] never holds two of the three locks: after
    each of its events it holds at most one.  Unless the task is dropped
    ([stat] failed, or the package cannot be read), the call takes all three
    locks, in the order primary, filelists, other, and releases each one
    before it takes the next; for a dropped task, which writes nothing, it
    takes none. *)
Theorem worker_holds_one_lock (w : World) (udata : UserData) (task : PoolTask) :
  Forall (fun held => (length held <= 1)%nat)
         (held_history [] (tr_events (dumper_thread w udata task)))
  /\ List.filter is_lock_event (tr_events (dumper_thread w udata task))
     = (if task_dropped w udata task then []
        else [EvLock LOCK_PRI; EvUnlock LOCK_PRI;
              EvLock LOCK_FIL; EvUnlock LOCK_FIL;
              EvLock LOCK_OTH; EvUnlock LOCK_OTH])
  /\ (task_dropped w udata task = true
      <-> tr_pkg (dumper_thread w udata task) = None).
Proof.
  unfold task_dropped.
  dumper_cases w udata task; sinks_by_cases udata; cbn;
    (split; [repeat constructor | split; [reflexivity|]]);
    split; intros H; congruence.
Qed.

(** A call of [dumper_thread] makes no write to a document and no insert
    into a database without holding that document's lock; and under each of
    the three locks it does exactly the write to that lock's document and,
    when the statements are there, the insert into that document's
    database. *)
Theorem dumper_thread_critical_sections (w : World) (udata : UserData)
    (task : PoolTask) (f : Sink) :
  unlocked_writes [] (tr_events (dumper_thread w udata task)) = []
  /\ while_held (lock_of f) false (tr_events (dumper_thread w udata task))
     = match tr_pkg (dumper_thread w udata task) with
       | Some pkg =>
           EvCwPuts f (XmlPackage f pkg)
           :: (if statements_of udata f then [EvAddPkgDb f pkg] else [])
       | None => []
       end.
Proof.
  dumper_cases w udata task; sinks_by_cases udata; destruct f;
    split; reflexivity.
Qed.

(** Every way out of [dumper_thread] frees the task, once, except the return
    after a failed [stat] (line 138), which frees nothing. *)
Theorem dumper_thread_frees_task (w : World) (udata : UserData) (task : PoolTask) :
  List.filter is_task_free (tr_events (dumper_thread w udata task))
  = if stat_failed w udata task then [] else [EvTaskFree task].
Proof.
  dumper_cases w udata task; sinks_by_cases udata; reflexivity.
Qed.

(** A call frees the record it handled exactly when it parsed it itself: a
    record of the old metadata is never freed by a worker. *)
Theorem dumper_thread_frees_own_package (w : World) (udata : UserData)
    (task : PoolTask) :
  List.filter is_package_free (tr_events (dumper_thread w udata task))
  = match tr_pkg (dumper_thread w udata task) with
    | Some pkg =>
        if tr_old_used (dumper_thread w udata task) then [] else [EvPackageFree pkg]
    | None => []
    end.
Proof.
  dumper_cases w udata task; sinks_by_cases udata; reflexivity.
Qed.

(** Without a record under the task's file name (or without old metadata at
    all) the package is parsed with [package_from_file], whatever
    [--skip-stat] says, and the table is left as it was; without old
    metadata [stat] is not even called. *)
Theorem dumper_thread_miss_parses (w : World) (udata : UserData) (task : PoolTask) :
  (ud_old_metadata udata ≫= (fun ht => ht !! task_filename task)) = None ->
  stat_failed w udata task = false ->
  tr_old_used (dumper_thread w udata task) = false
  /\ tr_pkg (dumper_thread w udata task)
     = package_from_file w (task_full_path task) (ud_checksum_type udata)
         (str_drop (ud_repodir_name_len udata) (task_full_path task))
         (ud_location_base udata) (ud_changelog_limit udata)
  /\ In (EvPackageFromFile (task_full_path task))
        (tr_events (dumper_thread w udata task))
  /\ tr_old_metadata (dumper_thread w udata task) = ud_old_metadata udata
  /\ (ud_old_metadata udata = None ->
        ~ In (EvStat (task_full_path task)) (tr_events (dumper_thread w udata task))).
Proof.
  intros Hmiss Hnf.
  assert (Hum : usable_md w udata task = None).
  { unfold usable_md. destruct (ud_old_metadata udata) as [ht|]; [|reflexivity].
    simpl in Hmiss. rewrite Hmiss. reflexivity. }
  pose proof (dumper_thread_cases w udata task) as Hc. cbv zeta in Hc.
  rewrite Hnf, Hum in Hc.
  destruct (package_from_file _ _ _ _ _ _) as [pkg|]; rewrite Hc;
    cbn [tr_events tr_pkg tr_old_used tr_old_metadata];
    (split; [reflexivity|]; split; [reflexivity|]; split;
     [rewrite !in_app_iff; simpl; auto|];
     split; [reflexivity|]);
    intros Hnone; unfold stat_events; rewrite Hnone; solve_not_in.
Qed.

Lemma dumper_thread_miss_parses_witness :
  tr_old_used (dumper_thread sample_world sample_udata sample_task_c) = false
  /\ In (EvPackageFromFile "/repo/pool/c.rpm")
        (tr_events (dumper_thread sample_world sample_udata sample_task_c)).
Proof.
  destruct (dumper_thread_miss_parses sample_world sample_udata sample_task_c)
    as (Hused & _ & Hparse & _).
  - vm_compute. reflexivity.
  - vm_compute. reflexivity.
  - split; [exact Hused | exact Hparse].
Defined.

(** A call changes the table of old metadata at the task's file name only,
    never adds or removes a key, and leaves the table alone when it does not
    use a cached record. *)
Theorem dumper_thread_table_frame (w : World) (udata : UserData) (task : PoolTask)
    (ht : gmap string Package) :
  ud_old_metadata udata = Some ht ->
  exists ht',
    tr_old_metadata (dumper_thread w udata task) = Some ht'
    /\ (forall key, key <> task_filename task -> ht' !! key = ht !! key)
    /\ dom ht' = dom ht
    /\ (tr_old_used (dumper_thread w udata task) = false -> ht' = ht).
Proof.
  intros Hht.
  pose proof (dumper_thread_cases w udata task) as Hc. cbv zeta in Hc.
  destruct (stat_failed w udata task);
    [| destruct (usable_md w udata task) as [md|] eqn:Hum;
       [| destruct (package_from_file _ _ _ _ _ _)]];
    rewrite Hc; cbn [tr_old_metadata tr_old_used]; rewrite Hht;
    try (exists ht; repeat split; auto; fail).
  cbn. eexists. split; [reflexivity|]. split; [|split; [|discriminate]].
  - intros key Hne. apply lookup_insert_ne. congruence.
  - apply dom_insert_lookup_L.
    unfold usable_md in Hum. rewrite Hht in Hum.
    destruct (ht !! task_filename task); [eauto | discriminate].
Qed.

Lemma dumper_thread_table_frame_witness :
  exists ht',
    tr_old_metadata (dumper_thread sample_world sample_udata sample_task_a) = Some ht'
    /\ ht' !! "x.rpm" = sample_cache !! "x.rpm"
    /\ dom ht' = dom sample_cache.
Proof.
  destruct (dumper_thread_table_frame sample_world sample_udata sample_task_a
              sample_cache) as (ht' & Hres & Hframe & Hdom & _).
  - vm_compute. reflexivity.
  - exists ht'. split; [exact Hres|]. split; [|exact Hdom].
    apply Hframe. discriminate.
Defined.

(** ** The workers one after the other *)

Lemma same_content_usable udata sb a b :
  same_content a b -> old_md_usable udata sb a = old_md_usable udata sb b.
Proof.
  intros H. pose proof (H "" None) as E. unfold old_md_usable.
  rewrite (f_equal time_file E : time_file a = time_file b).
  rewrite (f_equal size_package E : size_package a = size_package b).
  rewrite (f_equal checksum_type E : checksum_type a = checksum_type b).
  reflexivity.
Qed.

Lemma dumper_thread_same_content w udata ht ht' task :
  ud_old_metadata udata = Some ht ->
  match ht !! task_filename task, ht' !! task_filename task with
  | Some a, Some b => same_content a b
  | None, None => True
  | _, _ => False
  end ->
  tr_events (dumper_thread w (set_old_metadata udata (Some ht')) task)
  = tr_events (dumper_thread w udata task)
  /\ tr_pkg (dumper_thread w (set_old_metadata udata (Some ht')) task)
     = tr_pkg (dumper_thread w udata task)
  /\ tr_old_used (dumper_thread w (set_old_metadata udata (Some ht')) task)
     = tr_old_used (dumper_thread w udata task).
Proof.
  intros Hht Hk. unfold dumper_thread. cbn [set_old_metadata ud_old_metadata
    ud_skip_stat ud_repodir_name_len ud_location_base ud_checksum_type
    ud_changelog_limit]. rewrite Hht. cbn [mbind option_bind].
  destruct (negb (ud_skip_stat udata)
            && negb (bool_decide
                 (is_Some (if negb (ud_skip_stat udata)
                           then stat w (task_full_path task) else None))));
    [repeat split; reflexivity|].
  destruct (ht !! task_filename task) as [a|], (ht' !! task_filename task) as [b|];
    try contradiction.
  - cbn. unfold old_md_usable at 1 3 5. cbn [set_old_metadata ud_skip_stat ud_checksum_type_str].
    change (if ud_skip_stat udata then true
            else match (if negb (ud_skip_stat udata)
                        then stat w (task_full_path task) else None) with
                 | Some sb => (st_mtime sb =? time_file b) && (st_size sb =? size_package b)
                              && (ud_checksum_type_str udata =? checksum_type b)%string
                 | None => false
                 end)
      with (old_md_usable udata (if negb (ud_skip_stat udata)
                                 then stat w (task_full_path task) else None) b).
    rewrite <- (same_content_usable udata _ a b Hk).
    destruct (old_md_usable udata _ a).
    + cbn [tr_events tr_pkg tr_old_used]. rewrite <- (Hk _ _).
      repeat split; reflexivity.
    + destruct (package_from_file _ _ _ _ _ _); repeat split; reflexivity.
  - cbn. destruct (package_from_file _ _ _ _ _ _); repeat split; reflexivity.
Qed.

Lemma tables_agree_refl ht : tables_agree ht ht.
Proof. intros key. destruct (ht !! key); [intros ? ?; reflexivity | exact I]. Qed.

Lemma set_old_metadata_twice udata x y :
  set_old_metadata (set_old_metadata udata x) y = set_old_metadata udata y.
Proof. reflexivity. Qed.

Lemma set_old_metadata_same udata :
  set_old_metadata udata (ud_old_metadata udata) = udata.
Proof. destruct udata; reflexivity. Qed.

Lemma dumper_thread_keeps_agree w udata ht ht' task :
  tables_agree ht ht' ->
  exists ht'',
    tr_old_metadata (dumper_thread w (set_old_metadata udata (Some ht')) task)
    = Some ht''
    /\ tables_agree ht ht''.
Proof.
  intros Hag.
  pose proof (dumper_thread_cases w (set_old_metadata udata (Some ht')) task) as Hc.
  cbv zeta in Hc.
  destruct (stat_failed w (set_old_metadata udata (Some ht')) task);
    [| destruct (usable_md w (set_old_metadata udata (Some ht')) task) as [md|] eqn:Hum;
       [| destruct (package_from_file _ _ _ _ _ _)]];
    rewrite Hc; cbn [tr_old_metadata set_old_metadata ud_old_metadata];
    try (exists ht'; split; [reflexivity | exact Hag]).
  cbn. eexists. split; [reflexivity|].
  unfold usable_md in Hum. cbn [set_old_metadata ud_old_metadata] in Hum.
  destruct (ht' !! task_filename task) as [md'|] eqn:Hmd'; [|discriminate].
  assert (md = md') by (destruct (old_md_usable _ _ md'); congruence). subst md'.
  intros key. destruct (decide (key = task_filename task)) as [->|Hne].
  - rewrite lookup_insert_eq. specialize (Hag (task_filename task)).
    rewrite Hmd' in Hag. destruct (ht !! task_filename task) as [a|]; [|contradiction].
    intros href base. rewrite (Hag href base). reflexivity.
  - rewrite lookup_insert_ne by congruence. apply Hag.
Qed.

Lemma run_tasks_agree w udata ht ht' tasks :
  ud_old_metadata udata = Some ht ->
  tables_agree ht ht' ->
  map tr_events (run_tasks w (set_old_metadata udata (Some ht')) tasks)
  = map (fun t => tr_events (dumper_thread w udata t)) tasks
  /\ map tr_pkg (run_tasks w (set_old_metadata udata (Some ht')) tasks)
     = map (fun t => tr_pkg (dumper_thread w udata t)) tasks.
Proof.
  intros Hht. revert ht'. induction tasks as [|t tasks IH]; intros ht' Hag;
    cbn [run_tasks map]; [split; reflexivity|].
  destruct (dumper_thread_same_content w udata ht ht' t Hht (Hag (task_filename t)))
    as (He & Hp & _).
  destruct (dumper_thread_keeps_agree w udata ht ht' t Hag) as (ht'' & Ht'' & Hag'').
  rewrite Ht'', set_old_metadata_twice.
  destruct (IH ht'' Hag'') as [IHe IHp].
  rewrite He, Hp, IHe, IHp. split; reflexivity.
Qed.

Lemma run_tasks_no_table w udata tasks :
  ud_old_metadata udata = None ->
  map tr_events (run_tasks w udata tasks)
  = map (fun t => tr_events (dumper_thread w udata t)) tasks
  /\ map tr_pkg (run_tasks w udata tasks)
     = map (fun t => tr_pkg (dumper_thread w udata t)) tasks.
Proof.
  intros Hnone. induction tasks as [|t tasks [IHe IHp]]; cbn [run_tasks map];
    [split; reflexivity|].
  assert (Hsame : tr_old_metadata (dumper_thread w udata t) = ud_old_metadata udata).
  { pose proof (dumper_thread_cases w udata t) as Hc. cbv zeta in Hc.
    destruct (stat_failed w udata t);
      [| destruct (usable_md w udata t) eqn:Hum;
         [| destruct (package_from_file _ _ _ _ _ _)]];
      rewrite Hc; cbn [tr_old_metadata]; try reflexivity.
    rewrite Hnone. reflexivity. }
  rewrite Hsame, set_old_metadata_same, IHe, IHp. split; reflexivity.
Qed.

(** What a task writes does not depend on the tasks handled before it,
    although a cache hit writes its locations into the shared table (lines
    171-172): with the table handed from one call to the next, every call
    performs the events and handles the record it would on the table as it
    was loaded, even when two tasks have the same file name. *)
Theorem run_tasks_independent (w : World) (udata : UserData)
    (tasks : list PoolTask) :
  map tr_events (run_tasks w udata tasks)
  = map (fun t => tr_events (dumper_thread w udata t)) tasks
  /\ map tr_pkg (run_tasks w udata tasks)
     = map (fun t => tr_pkg (dumper_thread w udata t)) tasks.
Proof.
  destruct (ud_old_metadata udata) as [ht|] eqn:Hht.
  - pose proof (run_tasks_agree w udata ht ht tasks Hht (tables_agree_refl ht)) as H.
    rewrite <- Hht, set_old_metadata_same in H. exact H.
  - apply run_tasks_no_table, Hht.
Qed.

(** ** [allowed_file] and the walk *)

(** [allowed_file] answers TRUE exactly when no exclude mask matches the
    name; without masks it answers TRUE for every name. *)
Theorem allowed_file_iff (w : World) (filename : string) (options : CmdOptions) :
  allowed_file w filename options = true
  <-> forall mask, In mask (exclude_masks options) ->
                   g_pattern_match w mask filename = false.
Proof.
  unfold allowed_file. induction (exclude_masks options) as [|m masks IH]; simpl.
  - split; [intros _ mask [] | reflexivity].
  - destruct (g_pattern_match w m filename) eqn:Hm.
    + split; [discriminate|]. intros H. specialize (H m (or_introl eq_refl)).
      congruence.
    + rewrite IH. split.
      * intros H mask [<-|Hin]; auto.
      * intros H mask Hin. apply H. right. exact Hin.
Qed.

(** The inner loop of the walk, entry by entry: a name without [.rpm] is
    never a task and is queued as a directory exactly when it resolves to a
    directory that is not a regular file; a name with [.rpm] is never walked
    into, and is a task exactly when it is not a skipped symbolic link and
    no exclude mask matches its path relative to the repository. *)
Lemma walk_entry_cases w cmd_options in_dir_len dirname filename :
  let full_path := dirname +:+ "/" +:+ filename in
  let repo_relative_path :=
    if (in_dir_len <? String.length full_path)%nat
    then str_drop in_dir_len full_path else filename in
  (forall sub_dir,
     walk_entry w cmd_options in_dir_len dirname filename = ScanDir sub_dir
     <-> g_str_has_suffix filename ".rpm" = false
         /\ g_file_test_is_regular w full_path = false
         /\ g_file_test_is_dir w full_path = true
         /\ sub_dir = full_path)
  /\ (forall task,
        walk_entry w cmd_options in_dir_len dirname filename = AddPkg task
        <-> g_str_has_suffix filename ".rpm" = true
            /\ skip_symlinks cmd_options && g_file_test_is_symlink w full_path = false
            /\ allowed_file w repo_relative_path cmd_options = true
            /\ task = {| task_full_path := full_path;
                         task_filename := filename;
                         task_path := dirname |}).
Proof.
  cbv zeta. unfold walk_entry.
  destruct (g_str_has_suffix filename ".rpm");
    destruct (g_file_test_is_regular w _), (g_file_test_is_dir w _);
    destruct (skip_symlinks cmd_options && g_file_test_is_symlink w _);
    destruct (allowed_file w _ cmd_options); cbn;
    (split; intros x;
     (split;
      [ intros H; first [discriminate H | injection H as <-; auto]
      | intros (H1 & H2 & H3 & H4); first [discriminate | subst; reflexivity] ])).
Qed.

(** The inner loop over one directory (lines 565-605): the tasks are queued
    in the order of the entries, [package_count] grows by their number, and
    the sub-directories found go in front of the directories still to be
    walked, the last one found first. *)
Theorem read_dir_result (w : World) (cmd_options : CmdOptions) (in_dir_len : nat)
    (dirname : string) (names sub_dirs : list string) (package_count : Z) :
  read_dir w cmd_options in_dir_len dirname names sub_dirs package_count
  = (map EvPoolPush (omap (entry_task w cmd_options in_dir_len dirname) names),
     rev (omap (entry_dir w cmd_options in_dir_len dirname) names) ++ sub_dirs,
     package_count
     + Z.of_nat (length (omap (entry_task w cmd_options in_dir_len dirname) names))).
Proof.
  revert sub_dirs package_count.
  induction names as [|filename names IH]; intros sub_dirs n; cbn [read_dir].
  - cbn. rewrite Z.add_0_r. reflexivity.
  - cbn [omap list_omap].
    assert (Ht : entry_task w cmd_options in_dir_len dirname filename
                 = match walk_entry w cmd_options in_dir_len dirname filename with
                   | AddPkg task => Some task
                   | _ => None
                   end) by reflexivity.
    assert (Hd : entry_dir w cmd_options in_dir_len dirname filename
                 = match walk_entry w cmd_options in_dir_len dirname filename with
                   | ScanDir sub_dir => Some sub_dir
                   | _ => None
                   end) by reflexivity.
    rewrite Ht, Hd.
    destruct (walk_entry w cmd_options in_dir_len dirname filename) as [sd| |task];
      rewrite IH.
    + cbn [rev]. rewrite <- app_assoc. reflexivity.
    + reflexivity.
    + cbn [map length]. f_equal. lia.
Qed.

(** With a package list (lines 619-652), one task is queued for every listed
    path whose base name no exclude mask matches, in list order: the masks
    are matched against the name after the last ['/'] and not, as in the
    walk, against the path relative to the repository, and the file system
    is not looked at. *)
Theorem walk_pkglist_result (w : World) (cmd_options : CmdOptions)
    (in_dir : string) (pkgs : list string) (package_count : Z) :
  walk_pkglist w cmd_options in_dir pkgs package_count
  = (map (fun p => EvPoolPush (pkglist_task in_dir p))
         (List.filter (fun p => allowed_file w (task_filename (pkglist_task in_dir p))
                                             cmd_options) pkgs),
     package_count
     + Z.of_nat (length
         (List.filter (fun p => allowed_file w (task_filename (pkglist_task in_dir p))
                                             cmd_options) pkgs))).
Proof.
  revert package_count.
  induction pkgs as [|p pkgs IH]; intros n; cbn [walk_pkglist List.filter].
  - cbn. rewrite Z.add_0_r. reflexivity.
  - change (allowed_file w
              (if (last_slash p (String.length p) =? 0)%nat then p
               else str_drop (last_slash p (String.length p) + 1) p) cmd_options)
      with (allowed_file w (task_filename (pkglist_task in_dir p)) cmd_options).
    destruct (allowed_file w (task_filename (pkglist_task in_dir p)) cmd_options).
    + rewrite IH. cbn [map length]. f_equal. lia.
    + apply IH.
Qed.

(** ** Strings *)

Lemma substring_all s : substring 0 (String.length s) s = s.
Proof. induction s as [|c s IH]; simpl; [reflexivity | rewrite IH; reflexivity]. Qed.

Lemma substring_0_0 s : substring 0 0 s = "".
Proof. destruct s; reflexivity. Qed.

Lemma str_drop_app a b : str_drop (String.length a) (a +:+ b) = b.
Proof.
  unfold str_drop. induction a as [|c a IH]; simpl.
  - rewrite Nat.sub_0_r. apply substring_all.
  - exact IH.
Qed.

Lemma string_app_assoc (a b c : string) : (a +:+ b) +:+ c = a +:+ (b +:+ c).
Proof.
  induction a as [|x a IH]; [reflexivity|].
  change (String x ((a +:+ b) +:+ c) = String x (a +:+ (b +:+ c))).
  f_equal. exact IH.
Qed.

Lemma string_app_empty (a : string) : a +:+ "" = a.
Proof.
  induction a as [|c a IH]; [reflexivity|].
  change (String c (a +:+ "") = String c a). rewrite IH. reflexivity.
Qed.

Lemma string_app_inv_head (a b c : string) : a +:+ b = a +:+ c -> b = c.
Proof.
  induction a as [|x a IH]; [auto|].
  change (String x (a +:+ b) = String x (a +:+ c) -> b = c).
  intros [= H]. auto.
Qed.

Lemma string_length_app (a b : string) :
  String.length (a +:+ b) = (String.length a + String.length b)%nat.
Proof.
  induction a as [|c a IH]; [reflexivity|].
  change (S (String.length (a +:+ b)) = S (String.length a + String.length b)).
  rewrite IH. reflexivity.
Qed.

Lemma substring_prefix (a b : string) : substring 0 (String.length a) (a +:+ b) = a.
Proof.
  induction a as [|c a IH]; [apply substring_0_0|].
  change (String c (substring 0 (String.length a) (a +:+ b)) = String c a).
  rewrite IH. reflexivity.
Qed.

Lemma has_suffix_length s suffix :
  g_str_has_suffix s suffix = true -> (String.length suffix <= String.length s)%nat.
Proof.
  unfold g_str_has_suffix. intros H. apply andb_true_iff in H as [H _].
  apply Nat.leb_le. exact H.
Qed.

Lemma match_slash {A} (c : ascii) (a b : A) :
  match c with "/"%char => a | _ => b end = if Ascii.eqb c "/" then a else b.
Proof. destruct c as [[] [] [] [] [] [] [] []]; reflexivity. Qed.

Lemma last_slash_S p k :
  last_slash p (S k)
  = match String.get (S k) p with
    | Some c => if Ascii.eqb c "/" then S k else last_slash p k
    | None => last_slash p k
    end.
Proof.
  cbn [last_slash]. destruct (String.get (S k) p) as [c|]; [|reflexivity].
  apply match_slash.
Qed.

(** The index the loop of lines 627-632 stops at: the last ['/'] after the
    first character, or 0. *)
Lemma last_slash_spec p k :
  (last_slash p k <= k)%nat
  /\ (last_slash p k = O \/ String.get (last_slash p k) p = Some "/"%char)
  /\ (forall y, (last_slash p k < y <= k)%nat -> String.get y p <> Some "/"%char).
Proof.
  induction k as [|k (IH1 & IH2 & IH3)].
  - simpl. split; [lia|]. split; [auto|]. intros y Hy. lia.
  - rewrite last_slash_S. destruct (String.get (S k) p) as [c|] eqn:Hg.
    + destruct (Ascii.eqb_spec c "/") as [->|Hne].
      * split; [lia|]. split; [auto|]. intros y Hy. lia.
      * split; [lia|]. split; [exact IH2|]. intros y Hy.
        destruct (Nat.eq_dec y (S k)) as [->|Hy'].
        -- rewrite Hg. congruence.
        -- apply IH3. lia.
    + split; [lia|]. split; [exact IH2|]. intros y Hy.
      destruct (Nat.eq_dec y (S k)) as [->|Hy'].
      * rewrite Hg. discriminate.
      * apply IH3. lia.
Qed.

Lemma split_at_get p x c :
  String.get x p = Some c ->
  substring 0 x p +:+ String c (str_drop (x + 1) p) = p.
Proof.
  unfold str_drop. revert x. induction p as [|a s IH]; intros x; simpl.
  - discriminate.
  - destruct x as [|x]; simpl.
    + intros [= ->]. rewrite Nat.sub_0_r, substring_all. reflexivity.
    + intros Hg.
      change (String a (substring 0 x s
                        +:+ String c (substring (x + 1) (String.length s - (x + 1)) s))
              = String a s).
      rewrite (IH x Hg). reflexivity.
Qed.

Lemma get_str_drop n s i :
  String.get i (str_drop n s) = if (i <? String.length s - n)%nat
                                then String.get (i + n) s else None.
Proof.
  unfold str_drop. destruct (Nat.ltb_spec i (String.length s - n)).
  - apply substring_correct1. assumption.
  - apply substring_correct2. assumption.
Qed.

Lemma get_beyond s i : (String.length s <= i)%nat -> String.get i s = None.
Proof.
  revert i. induction s as [|c s IH]; intros i Hi; simpl; [reflexivity|].
  destruct i as [|i]; simpl in *; [lia|]. apply IH. lia.
Qed.

(** ** The tasks and their paths *)

(** A line of the package list and the task made of it: the worker's
    [location_href] (the full path without the input directory) is the line
    again; when the line has a ['/'] after its first character, directory,
    ['/'] and file name make up the line and the file name has no ['/'];
    otherwise the whole line is the file name, a leading ['/'] included, and
    the directory is empty. *)
Theorem pkglist_task_parts (in_dir relative_path : string) :
  str_drop (String.length in_dir) (task_full_path (pkglist_task in_dir relative_path))
  = relative_path
  /\ ((exists y, (1 <= y)%nat /\ String.get y relative_path = Some "/"%char) ->
        task_path (pkglist_task in_dir relative_path) +:+ "/"
          +:+ task_filename (pkglist_task in_dir relative_path) = relative_path
        /\ forall i, String.get i (task_filename (pkglist_task in_dir relative_path))
                     <> Some "/"%char)
  /\ ((forall y, (1 <= y)%nat -> String.get y relative_path <> Some "/"%char) ->
        task_filename (pkglist_task in_dir relative_path) = relative_path
        /\ task_path (pkglist_task in_dir relative_path) = "").
Proof.
  unfold pkglist_task. cbn [task_full_path task_filename task_path].
  split; [apply str_drop_app|].
  destruct (last_slash_spec relative_path (String.length relative_path))
    as (Hle & Hx & Hafter).
  set (x := last_slash relative_path (String.length relative_path)) in *.
  split.
  - intros (y & Hy1 & Hy).
    assert (Hxpos : x <> O).
    { intros Hx0. destruct (Nat.le_gt_cases y (String.length relative_path)).
      - apply (Hafter y); [lia | exact Hy].
      - rewrite get_beyond in Hy by lia. discriminate. }
    destruct Hx as [Hx|Hx]; [contradiction|].
    rewrite (proj2 (Nat.eqb_neq x O) Hxpos). split.
    + change ("/" +:+ str_drop (x + 1) relative_path)
        with (String "/" (str_drop (x + 1) relative_path)).
      apply split_at_get. exact Hx.
    + intros i. rewrite get_str_drop.
      destruct (Nat.ltb_spec i (String.length relative_path - (x + 1)));
        [|discriminate].
      apply Hafter. lia.
  - intros Hno. destruct Hx as [Hx|Hx].
    + rewrite Hx. split; [reflexivity | apply substring_0_0].
    + destruct (Nat.eq_dec x O) as [Hx0|Hxpos].
      * rewrite Hx0. split; [reflexivity | apply substring_0_0].
      * exfalso. apply (Hno x); [lia | exact Hx].
Qed.

Lemma entry_dir_under w cmd_options in_dir dirname filename sub_dir :
  under in_dir dirname ->
  entry_dir w cmd_options (String.length in_dir) dirname filename = Some sub_dir ->
  under in_dir sub_dir.
Proof.
  intros [sub Hsub]. unfold entry_dir.
  destruct (walk_entry _ _ _ _ _) as [p| |] eqn:He; try discriminate.
  intros [= <-].
  apply (proj1 (walk_entry_cases w cmd_options (String.length in_dir) dirname filename))
    in He as (_ & _ & _ & ->).
  exists (sub +:+ filename +:+ "/").
  rewrite <- (string_app_assoc in_dir), <- Hsub.
  rewrite !string_app_assoc. reflexivity.
Qed.

Lemma entry_task_located w cmd_options in_dir dirname filename task :
  under in_dir dirname ->
  entry_task w cmd_options (String.length in_dir) dirname filename = Some task ->
  exists rel,
    task_full_path task = in_dir +:+ rel
    /\ str_drop (String.length in_dir) (task_full_path task) = rel
    /\ allowed_file w rel cmd_options = true
    /\ g_str_has_suffix (task_filename task) ".rpm" = true.
Proof.
  intros [sub Hsub]. unfold entry_task.
  destruct (walk_entry _ _ _ _ _) as [|  |t] eqn:He; try discriminate.
  intros [= <-].
  apply (proj2 (walk_entry_cases w cmd_options (String.length in_dir) dirname filename))
    in He as (Hsuf & _ & Hallowed & ->).
  cbv zeta in Hallowed. cbn [task_full_path task_filename].
  assert (Hfull : dirname +:+ "/" +:+ filename = in_dir +:+ (sub +:+ filename)).
  { rewrite <- (string_app_assoc in_dir), <- Hsub, string_app_assoc. reflexivity. }
  exists (sub +:+ filename). rewrite Hfull in *. rewrite str_drop_app in *.
  split; [reflexivity|]. split; [reflexivity|]. split; [|exact Hsuf].
  apply has_suffix_length in Hsuf. simpl in Hsuf.
  rewrite !string_length_app in Hallowed.
  destruct (Nat.ltb_spec (String.length in_dir)
              (String.length in_dir + (String.length sub + String.length filename)));
    [exact Hallowed | lia].
Qed.

(** Where the tasks and the directories of one directory's entries come
    from. *)
Lemma read_dir_members w cmd_options in_dir_len dirname names sub_dirs n :
  (forall task,
     In (EvPoolPush task)
        (fst (fst (read_dir w cmd_options in_dir_len dirname names sub_dirs n))) ->
     exists filename,
       entry_task w cmd_options in_dir_len dirname filename = Some task)
  /\ (forall p,
        In p (snd (fst (read_dir w cmd_options in_dir_len dirname names sub_dirs n))) ->
        In p sub_dirs
        \/ exists filename,
             entry_dir w cmd_options in_dir_len dirname filename = Some p).
Proof.
  revert sub_dirs n. induction names as [|filename names IH]; intros sub_dirs n;
    cbn [read_dir].
  - cbn. split; [intros task [] | auto].
  - unfold entry_task, entry_dir in *.
    destruct (walk_entry w cmd_options in_dir_len dirname filename)
      as [sd| |task0] eqn:He.
    + destruct (IH (sd :: sub_dirs) n) as [IH1 IH2]. split; [exact IH1|].
      intros p Hp. destruct (IH2 p Hp) as [[<-|Hin]|Hex]; auto.
      right. exists filename. rewrite He. reflexivity.
    + apply IH.
    + specialize (IH sub_dirs (n + 1)).
      destruct (read_dir w cmd_options in_dir_len dirname names sub_dirs (n + 1))
        as [[evs sd] n'].
      cbn [fst snd] in *. destruct IH as [IH1 IH2]. split; [|exact IH2].
      intros task [[= <-]|Hin]; [|auto].
      exists filename. rewrite He. reflexivity.
Qed.

Lemma walk_dirs_located fuel w cmd_options in_dir sub_dirs n evs n' :
  Forall (under in_dir) sub_dirs ->
  walk_dirs fuel w cmd_options (String.length in_dir) sub_dirs n = Some (evs, n') ->
  forall task, In (EvPoolPush task) evs ->
    exists rel,
      task_full_path task = in_dir +:+ rel
      /\ str_drop (String.length in_dir) (task_full_path task) = rel
      /\ allowed_file w rel cmd_options = true
      /\ g_str_has_suffix (task_filename task) ".rpm" = true.
Proof.
  revert sub_dirs n evs n'. induction fuel as [|fuel IH];
    intros sub_dirs n evs n' Hq; cbn [walk_dirs]; [discriminate|].
  destruct sub_dirs as [|dirname rest]; [intros [= <- <-] task []|].
  apply Forall_cons in Hq as [Hd Hrest].
  destruct (g_dir_open w dirname) as [names|].
  - destruct (read_dir_members w cmd_options (String.length in_dir) dirname names rest n)
      as [Htasks Hdirs].
    destruct (read_dir w cmd_options (String.length in_dir) dirname names rest n)
      as [[evs1 sd] n1].
    cbn [fst snd] in Htasks, Hdirs.
    assert (Hq' : Forall (under in_dir) sd).
    { apply Forall_forall. intros p Hp. apply list_elem_of_In in Hp.
      destruct (Hdirs p Hp) as [Hin|[filename Hp']].
      - rewrite Forall_forall in Hrest. apply Hrest, list_elem_of_In, Hin.
      - eapply entry_dir_under; eauto. }
    destruct (walk_dirs fuel _ _ _ _ _) as [[evs2 n2]|] eqn:Hw; [|discriminate].
    cbn. intros [= <- <-] task Hin. apply in_app_or in Hin as [Hin|Hin].
    + destruct (Htasks task Hin) as [filename Ht].
      eapply entry_task_located; eauto.
    + eapply (IH _ _ _ _ Hq' Hw); eauto.
  - destruct (walk_dirs fuel _ _ _ _ _) as [[evs2 n2]|] eqn:Hw; [|discriminate].
    cbn. intros [= <- <-] task [Hin|Hin]; [discriminate|].
    eapply (IH _ _ _ _ Hrest Hw); eauto.
Qed.

(** Every task the recursive walk queues lies under the input directory
    (given with its closing ['/']): its full path is the input directory
    followed by a relative path that no exclude mask matches and that is the
    [location_href] the worker computes (the full path without its first
    [strlen (in_dir)] characters); its file name ends in [.rpm]. *)
Theorem walk_tasks_located (fuel : nat) (w : World) (cmd_options : CmdOptions)
    (base : string) (n : Z) :
  include_pkgs cmd_options = [] ->
  m_res (walk fuel w cmd_options (base +:+ "/")) = Ret n ->
  forall task,
    In (EvPoolPush task) (m_trace (walk fuel w cmd_options (base +:+ "/"))) ->
    exists rel,
      task_full_path task = (base +:+ "/") +:+ rel
      /\ str_drop (String.length (base +:+ "/")) (task_full_path task) = rel
      /\ allowed_file w rel cmd_options = true
      /\ g_str_has_suffix (task_filename task) ".rpm" = true.
Proof.
  intros Hinc. unfold walk. rewrite Hinc.
  assert (Hstrip : substring 0 (String.length (base +:+ "/") - 1) (base +:+ "/") = base).
  { rewrite string_length_app. simpl. rewrite Nat.add_sub. apply substring_prefix. }
  rewrite Hstrip.
  destruct (walk_dirs fuel w cmd_options (String.length (base +:+ "/")) [base] 0)
    as [[evs k]|] eqn:Hw; [|discriminate].
  cbn [m_res m_trace]. intros _ task Hin.
  eapply (walk_dirs_located fuel w cmd_options (base +:+ "/") [base] 0 evs k); eauto.
  constructor; [|constructor]. exists "". rewrite string_app_empty. reflexivity.
Qed.

Lemma walk_tasks_located_witness :
  exists rel,
    task_full_path sample_task_c = ("/repo" +:+ "/") +:+ rel
    /\ str_drop (String.length ("/repo" +:+ "/")) (task_full_path sample_task_c) = rel
    /\ allowed_file sample_world rel sample_options = true
    /\ g_str_has_suffix (task_filename sample_task_c) ".rpm" = true.
Proof.
  apply (walk_tasks_located 10 sample_world sample_options "/repo" 3).
  - reflexivity.
  - vm_compute. reflexivity.
  - vm_compute. auto 10.
Defined.

(** ** [main]: the ways out, the staging directory, the documents *)

(** A run that fails its checks (the input directory is missing,
    [check_arguments] refuses the options) or cannot create the staging
    directory (because it is there already, or for another reason) exits
    with status 1 and has done nothing but write a log line: no directory
    is created and the global [tmp_repodata_path] is never set. *)
Theorem main_fails_before_staging (fuel : nat) (w : World)
    (cmd_options : CmdOptions) (argv1 : string) :
  reaches_mkdir w (set_paths w cmd_options argv1) = false
  \/ g_mkdir w (tmp_out_repo (set_paths w cmd_options argv1)) <> MKDIR_OK ->
  exit_status (main fuel w cmd_options argv1) = Some 1
  /\ Forall (fun e => is_log e = true) (m_trace (main fuel w cmd_options argv1))
  /\ (length (m_trace (main fuel w cmd_options argv1)) <= 1)%nat.
Proof.
  unfold reaches_mkdir, exit_status, main, main_setup, check_input,
    create_tmp_out_repo, when.
  set (d := set_paths w cmd_options argv1).
  intros H.
  destruct (g_file_test_exists w (in_dir d) || g_file_test_is_dir w (in_dir d));
    destruct (check_arguments w); cbn;
    try (split; [reflexivity | split; [repeat constructor | simpl; lia]]).
  destruct (g_mkdir w (tmp_out_repo d)); cbn;
    try (split; [reflexivity | split; [repeat constructor | simpl; lia]]).
  destruct H as [H|H]; [discriminate | congruence].
Qed.

Lemma main_fails_before_staging_witness :
  exit_status (main 10 sample_world sample_options "/nowhere") = Some 1
  /\ m_trace (main 10 sample_world sample_options "/nowhere")
     = [EvLog LOG_WARNING "Directory must exist: /nowhere/"].
Proof.
  split.
  - refine (proj1 (main_fails_before_staging 10 sample_world sample_options
                     "/nowhere" _)).
    left. vm_compute. reflexivity.
  - vm_compute. reflexivity.
Defined.

Lemma walk_event_spares dir evs :
  Forall (fun e => walk_event e = true) evs ->
  Forall (fun e => spares dir e = true) evs.
Proof.
  intros H. eapply Forall_impl; [exact H|].
  intros e. destruct e; simpl; auto; discriminate.
Qed.

Lemma load_update_md_paths_spares dir w ht paths :
  Forall (fun e => spares dir e = true) (m_trace (load_update_md_paths w ht paths)).
Proof.
  revert ht. induction paths as [|path paths IH]; intros ht;
    cbn [load_update_md_paths].
  - constructor.
  - trace_quiet; apply IH.
Qed.

Lemma move_files_spares dir w d names :
  Forall (fun e => spares dir e = true) (m_trace (move_files w d names)).
Proof.
  induction names as [|filename names IH]; cbn [move_files].
  - constructor.
  - trace_quiet; exact IH.
Qed.

Lemma load_old_metadata_spares dir w cmd_options in_dir out_dir :
  Forall (fun e => spares dir e = true)
         (m_trace (load_old_metadata w cmd_options in_dir out_dir)).
Proof.
  unfold load_old_metadata. trace_quiet; apply load_update_md_paths_spares.
Qed.

Lemma main_setup_spares dir w cmd_options d :
  Forall (fun e => spares dir e = true) (m_trace (main_setup w cmd_options d)).
Proof.
  unfold main_setup.
  apply Forall_bind; [unfold check_input; trace_quiet|]. intros _ _.
  apply Forall_bind; [unfold create_tmp_out_repo; trace_quiet|]. intros _ _.
  apply Forall_bind; [unfold setup_sigint; trace_quiet|]. intros _ _.
  apply Forall_bind; [unfold copy_groupfile; trace_quiet|]. intros g _.
  apply Forall_bind; [apply load_old_metadata_spares|]. intros om _.
  apply Forall_bind; [unfold open_xml_files; trace_quiet|]. intros _ _.
  apply Forall_bind; [unfold open_databases; trace_quiet|]. intros st _.
  constructor.
Qed.

Lemma main_index_spares dir fuel w cmd_options d :
  Forall (fun e => spares dir e = true) (m_trace (main_index fuel w cmd_options d)).
Proof.
  unfold main_index, write_xml_headers, close_xml_files.
  apply Forall_bind; [repeat constructor|]. intros _ _.
  apply Forall_bind.
  - destruct (walk_spec fuel w cmd_options (in_dir d)) as [(n & _ & Hw & _)|[_ Ht]].
    + apply walk_event_spares, Hw.
    + rewrite Ht. constructor.
  - intros n _. trace_quiet.
Qed.

Lemma move_old_repo_spares w d :
  Forall (fun e => spares (out_repo d) e = true) (m_trace (move_old_repo w d)).
Proof.
  unfold move_old_repo.
  destruct (g_file_test_exists w (out_repo d)); [|constructor].
  apply Forall_bind; [repeat constructor|]. intros _ _.
  destruct (g_dir_open w (out_repo d)) as [names|]; [|trace_quiet].
  apply Forall_bind; [apply move_files_spares|]. intros _ _.
  apply Forall_bind.
  - constructor; [apply String.eqb_refl | constructor].
  - intros _ _. trace_quiet.
Qed.

Lemma main_finalize_spares w cmd_options d g :
  Forall (fun e => spares (out_repo d) e = true)
         (m_trace (main_finalize w cmd_options d g)).
Proof.
  unfold main_finalize.
  apply Forall_bind; [apply move_old_repo_spares|]. intros _ _.
  apply Forall_bind; [unfold rename_tmp_out_repo; trace_quiet|]. intros _ _.
  apply Forall_bind; [repeat constructor|]. intros _ _.
  apply Forall_bind; [trace_quiet|]. intros _ _.
  apply Forall_bind; [unfold finish_databases; trace_quiet|]. intros _ _.
  apply Forall_bind;
    [unfold unique_names; destruct (unique_md_filenames cmd_options),
       (no_database cmd_options), g; repeat constructor|]. intros _ _.
  apply Forall_bind; [unfold write_repomd; trace_quiet|]. intros _ _.
  repeat constructor.
Qed.

(** [main] never deletes the staging directory, whichever way it ends: it
    calls [remove_dir] nowhere, and the one directory it removes with
    [rmdir] is the old output [repodata], which is another path.  A run
    that exits after the staging directory was created leaves it behind;
    only the signal handler removes it. *)
Theorem main_keeps_staging (fuel : nat) (w : World) (cmd_options : CmdOptions)
    (argv1 : string) :
  Forall (fun e => spares (out_repo (set_paths w cmd_options argv1)) e = true)
         (m_trace (main fuel w cmd_options argv1))
  /\ out_repo (set_paths w cmd_options argv1)
     <> tmp_out_repo (set_paths w cmd_options argv1).
Proof.
  split.
  - unfold main. set (d := set_paths w cmd_options argv1).
    apply Forall_bind; [apply main_setup_spares|]. intros [[g om] st] _.
    apply Forall_bind; [apply main_index_spares|]. intros n _.
    apply Forall_bind; [apply main_finalize_spares|]. intros _ _. constructor.
  - unfold set_paths. destruct (outputdir cmd_options); cbn [out_repo tmp_out_repo];
      intros H; apply string_app_inv_head in H; discriminate.
Qed.

Lemma cw_balance_app f evs1 evs2 :
  cw_balance f (evs1 ++ evs2) = cw_balance f evs1 + cw_balance f evs2.
Proof.
  induction evs1 as [|e evs1 IH]; [reflexivity|].
  destruct e; cbn [app cw_balance]; rewrite IH; lia.
Qed.

Lemma cw_balance_no_cw f evs :
  Forall (fun e => no_cw e = true) evs -> cw_balance f evs = 0.
Proof.
  induction 1 as [|e evs He _ IH]; [reflexivity|].
  destruct e; cbn [cw_balance]; try exact IH; discriminate.
Qed.

Lemma load_update_md_paths_no_cw w ht paths :
  Forall (fun e => no_cw e = true) (m_trace (load_update_md_paths w ht paths)).
Proof.
  revert ht. induction paths as [|path paths IH]; intros ht;
    cbn [load_update_md_paths].
  - constructor.
  - trace_quiet; apply IH.
Qed.

Lemma move_files_no_cw w d names :
  Forall (fun e => no_cw e = true) (m_trace (move_files w d names)).
Proof.
  induction names as [|filename names IH]; cbn [move_files].
  - constructor.
  - trace_quiet; exact IH.
Qed.

Lemma main_finalize_no_cw w cmd_options d g :
  Forall (fun e => no_cw e = true) (m_trace (main_finalize w cmd_options d g)).
Proof.
  unfold main_finalize.
  apply Forall_bind.
  { unfold move_old_repo. trace_quiet; apply move_files_no_cw. }
  intros _ _.
  apply Forall_bind; [unfold rename_tmp_out_repo; trace_quiet|]. intros _ _.
  apply Forall_bind; [repeat constructor|]. intros _ _.
  apply Forall_bind; [trace_quiet|]. intros _ _.
  apply Forall_bind; [unfold finish_databases; trace_quiet|]. intros _ _.
  apply Forall_bind;
    [unfold unique_names; destruct (unique_md_filenames cmd_options),
       (no_database cmd_options), g; repeat constructor|]. intros _ _.
  apply Forall_bind; [unfold write_repomd; trace_quiet|]. intros _ _.
  repeat constructor.
Qed.

Lemma main_setup_balance w cmd_options d f :
  cw_balance f (m_trace (main_setup w cmd_options d))
  = match m_res (main_setup w cmd_options d) with
    | Ret _ => 1
    | _ => 0
    end.
Proof.
  assert (Hpre : forall (m : M unit) (k : M (option string * option (gmap string Package)
                                             * (bool * bool * bool))),
            Forall (fun e => no_cw e = true) (m_trace m) ->
            (m_res m = Ret tt \/ exists s, m_res m = Exit s) ->
            (cw_balance f (m_trace k) = match m_res k with Ret _ => 1 | _ => 0 end) ->
            cw_balance f (m_trace (m ;; k))
            = match m_res (m ;; k) with Ret _ => 1 | _ => 0 end).
  { intros m k Hq Hr Hk. rewrite bind_trace, bind_res, cw_balance_app.
    rewrite (cw_balance_no_cw f _ Hq).
    destruct Hr as [Hr|[s Hr]]; rewrite Hr; [exact Hk | reflexivity]. }
  unfold main_setup.
  apply Hpre; [unfold check_input; trace_quiet | |].
  { destruct (check_input_res w d) as [H|H]; rewrite H; eauto. }
  apply Hpre; [unfold create_tmp_out_repo; trace_quiet | |].
  { destruct (create_tmp_out_repo_spec w d) as [[H _]|[H _]]; rewrite H; eauto. }
  apply Hpre; [unfold setup_sigint; trace_quiet | |].
  { destruct (setup_sigint_spec w d) as [[H _]|[H _]]; rewrite H; eauto. }
  rewrite bind_trace, bind_res, cw_balance_app.
  rewrite (cw_balance_no_cw f (m_trace (copy_groupfile w cmd_options d)))
    by (unfold copy_groupfile; trace_quiet).
  destruct (copy_groupfile_returns w cmd_options d) as [g Hg]. rewrite Hg.
  rewrite bind_trace, bind_res, cw_balance_app.
  rewrite (cw_balance_no_cw f (m_trace (load_old_metadata w cmd_options _ _)))
    by (unfold load_old_metadata; trace_quiet; apply load_update_md_paths_no_cw).
  destruct (load_old_metadata_returns w cmd_options (in_dir d) (out_dir d)) as [om Hom].
  rewrite Hom.
  rewrite bind_trace, bind_res, cw_balance_app.
  unfold open_xml_files, open_databases.
  destruct (cw_open w PRI), (cw_open w FIL), (cw_open w OTH),
    (no_database cmd_options), f; reflexivity.
Qed.

Lemma main_index_balance fuel w cmd_options d f :
  cw_balance f (m_trace (main_index fuel w cmd_options d))
  = match m_res (main_index fuel w cmd_options d) with
    | Ret _ => -1
    | _ => 0
    end.
Proof.
  destruct (main_index_spec fuel w cmd_options d)
    as [(n & walk_evs & Hr & Ht & Hw & _)|[Hr Ht]]; rewrite Hr, Ht.
  - cbn [cw_balance]. rewrite !cw_balance_app.
    rewrite (cw_balance_no_cw f walk_evs).
    + destruct f; reflexivity.
    + eapply Forall_impl; [exact Hw|]. intros e. destruct e; simpl; auto; discriminate.
  - reflexivity.
Qed.

(** Whichever way a run ends (the walk coming to an end), every document it
    opened it has closed, and closed once: also when a later document
    cannot be opened (lines 462, 471-472) and when the run exits in its
    last phase. *)
Theorem main_closes_documents (fuel : nat) (w : World) (cmd_options : CmdOptions)
    (argv1 : string) (f : Sink) :
  m_res (main fuel w cmd_options argv1) <> OutOfFuel ->
  cw_balance f (m_trace (main fuel w cmd_options argv1)) = 0.
Proof.
  unfold main. set (d := set_paths w cmd_options argv1).
  rewrite bind_trace, bind_res, cw_balance_app, main_setup_balance.
  destruct (m_res (main_setup w cmd_options d)) as [[[g om] st]|s|];
    [|reflexivity | intros H; congruence].
  rewrite bind_trace, bind_res, cw_balance_app, main_index_balance.
  destruct (main_index_spec fuel w cmd_options d)
    as [(n & walk_evs & Hr & _)|[Hr _]]; rewrite Hr; [|intros H; congruence].
  intros _. rewrite bind_trace, cw_balance_app.
  rewrite (cw_balance_no_cw f _ (main_finalize_no_cw w cmd_options d g)).
  destruct (m_res (main_finalize w cmd_options d g)); reflexivity.
Qed.

Lemma main_closes_documents_witness :
  cw_balance FIL (m_trace sample_run) = 0
  /\ In (EvCwOpen FIL) (m_trace sample_run).
Proof.
  split.
  - apply (main_closes_documents 10 sample_world sample_options "/repo" FIL).
    vm_compute. discriminate.
  - vm_compute. auto 20.
Defined.

(** ** [main]: what the workers are given, and the order of the last phase *)

Lemma main_setup_parts w cmd_options d g om st :
  m_res (main_setup w cmd_options d) = Ret (g, om, st) ->
  m_res (load_old_metadata w cmd_options (in_dir d) (out_dir d)) = Ret om
  /\ m_res (open_databases w cmd_options) = Ret st.
Proof.
  unfold main_setup.
  repeat (rewrite bind_res;
          match goal with
          | |- context [match m_res ?m with _ => _ end] =>
              destruct (m_res m); try discriminate
          end; cbn beta iota).
  cbn. intros [= -> -> ->]. split; reflexivity.
Qed.

Lemma main_ret_udata fuel w cmd_options argv1 udata :
  m_res (main fuel w cmd_options argv1) = Ret udata ->
  exists g om st n,
    m_res (main_setup w cmd_options (set_paths w cmd_options argv1)) = Ret (g, om, st)
    /\ udata = user_data cmd_options (set_paths w cmd_options argv1) st om n.
Proof.
  unfold main. rewrite bind_res.
  destruct (m_res (main_setup w cmd_options _)) as [[[g om] st]|s|]; try discriminate.
  cbn beta iota. rewrite bind_res.
  destruct (m_res (main_index fuel w cmd_options _)) as [n|s|]; try discriminate.
  cbn beta iota. rewrite bind_res.
  destruct (m_res (main_finalize w cmd_options _ g)); try discriminate.
  cbn. intros [= <-]. exists g, om, st, n. split; reflexivity.
Qed.

Lemma dumper_thread_no_table w udata task :
  ud_old_metadata udata = None ->
  tr_old_used (dumper_thread w udata task) = false
  /\ ~ In (EvStat (task_full_path task)) (tr_events (dumper_thread w udata task)).
Proof.
  intros Hnone. pose proof (dumper_thread_cases w udata task) as Hc. cbv zeta in Hc.
  unfold stat_failed, usable_md in Hc. rewrite Hnone in Hc.
  destruct (package_from_file _ _ _ _ _ _) as [pkg|]; rewrite Hc;
    cbn [tr_events tr_old_used]; (split; [reflexivity|]);
    unfold stat_events; rewrite Hnone; solve_not_in.
Qed.

(** The options reach the workers: in a run that returns 0, without
    [--update] no worker calls [stat] or uses a cached record, and with
    [--no-database] no worker inserts anything into a database. *)
Theorem options_reach_workers (fuel : nat) (w : World) (cmd_options : CmdOptions)
    (argv1 : string) (udata : UserData) (task : PoolTask) :
  m_res (main fuel w cmd_options argv1) = Ret udata ->
  (update cmd_options = false ->
     tr_old_used (dumper_thread w udata task) = false
     /\ ~ In (EvStat (task_full_path task)) (tr_events (dumper_thread w udata task)))
  /\ (no_database cmd_options = true ->
        forall f pkg,
          ~ In (EvAddPkgDb f pkg) (tr_events (dumper_thread w udata task))).
Proof.
  intros Hret.
  destruct (main_ret_udata fuel w cmd_options argv1 udata Hret)
    as (g & om & st & n & Hs & ->).
  destruct (main_setup_parts w cmd_options _ g om st Hs) as [Hload Hdb].
  split.
  - intros Hupd. unfold load_old_metadata in Hload. rewrite Hupd in Hload.
    injection Hload as <-.
    apply dumper_thread_no_table. reflexivity.
  - intros Hnodb f pkg. unfold open_databases in Hdb. rewrite Hnodb in Hdb.
    injection Hdb as <-.
    set (ud := user_data cmd_options (set_paths w cmd_options argv1)
                 (false, false, false) om n).
    pose proof (dumper_thread_cases w ud task) as Hc. cbv zeta in Hc.
    destruct (stat_failed w ud task);
      [| destruct (usable_md w ud task);
         [| destruct (package_from_file _ _ _ _ _ _)]];
      rewrite Hc; cbn [tr_events]; unfold stat_events, write_sinks, write_sink;
      cbn [statements_of ud user_data ud_pri_statements ud_fil_statements
           ud_oth_statements fst snd];
      destruct (ud_old_metadata ud), (ud_skip_stat ud); solve_not_in.
Qed.

Lemma options_reach_workers_witness :
  tr_old_used (dumper_thread sample_world sample_plain_udata sample_task_a) = false
  /\ ~ In (EvStat "/repo/a.rpm")
          (tr_events (dumper_thread sample_world sample_plain_udata sample_task_a))
  /\ ~ In (EvAddPkgDb PRI sample_md_a)
          (tr_events (dumper_thread sample_world sample_plain_udata sample_task_a)).
Proof.
  destruct (options_reach_workers 10 sample_world sample_plain_options "/repo"
              sample_plain_udata sample_task_a) as [Hupdate Hnodb].
  - vm_compute. reflexivity.
  - destruct (Hupdate eq_refl) as [Hused Hstat].
    split; [exact Hused|]. split; [exact Hstat|].
    apply (Hnodb eq_refl).
Defined.

Lemma before_swap_app_quiet d (P : Event -> Prop) evs1 evs2 :
  Forall P evs1 ->
  (Forall P (before_swap d evs2)) ->
  Forall P (before_swap d (evs1 ++ evs2)).
Proof.
  intros H1 H2. induction H1 as [|e evs1 He _ IH]; [exact H2|].
  cbn [app before_swap]. destruct (is_swap d e); constructor; auto.
Qed.

Lemma move_files_no_publish w d names :
  Forall (fun e => publish_step e = false) (m_trace (move_files w d names)).
Proof.
  induction names as [|filename names IH]; cbn [move_files].
  - constructor.
  - trace_quiet; exact IH.
Qed.

Lemma move_old_repo_no_publish w d :
  Forall (fun e => publish_step e = false) (m_trace (move_old_repo w d)).
Proof. unfold move_old_repo. trace_quiet; apply move_files_no_publish. Qed.

(** In the last phase nothing reads or writes the published files before
    the staging directory is renamed to its final name: the checksums, the
    database updates and compressions, the renames to unique names and
    [repomd.xml] all come after the swap, whether it succeeded or not; and
    the swap is attempted whenever moving the old [repodata] out of the way
    did not exit. *)
Theorem publish_after_swap (w : World) (cmd_options : CmdOptions) (d : Dirs)
    (g : option string) :
  Forall (fun e => publish_step e = false)
         (before_swap d (m_trace (main_finalize w cmd_options d g)))
  /\ (m_res (move_old_repo w d) = Ret tt ->
        In (EvRename (tmp_out_repo d) (out_repo d)
                     (g_rename w (tmp_out_repo d) (out_repo d)))
           (m_trace (main_finalize w cmd_options d g))).
Proof.
  split; cycle 1.
  { intros Hr. unfold main_finalize. rewrite bind_trace, Hr, bind_trace.
    unfold rename_tmp_out_repo at 1. rewrite bind_trace.
    rewrite !in_app_iff. right. left. left. left. reflexivity. }
  unfold main_finalize. rewrite bind_trace.
  apply before_swap_app_quiet; [apply move_old_repo_no_publish|].
  destruct (m_res (move_old_repo w d)); [|constructor|constructor].
  rewrite bind_trace. unfold rename_tmp_out_repo at 1.
  rewrite bind_trace. cbn [emit m_trace app before_swap is_swap].
  rewrite !String.eqb_refl. constructor.
Qed.

(** ** [xml_parser-py.c]: the calls of the C parsers *)

(** When the argument tuple parses and the callbacks pass the checks, each
    of the three package entry points calls its C parser exactly once,
    passes a C callback for exactly the Python callbacks that are not
    [None], and returns [None] unless the parser left an error, which it
    raises. *)
Theorem py_xml_parse_calls_parser (lib : XmlParserLib)
    (args5 args4 : list PyObject) (filename : string)
    (py_newpkgcb py_pkgcb py_warningcb : PyObject) (do_files : Z) :
  PyArg_ParseTuple_sOOOi args5
  = inr (filename, py_newpkgcb, py_pkgcb, py_warningcb, do_files) ->
  PyArg_ParseTuple_sOOO args4
  = inr (filename, py_newpkgcb, py_pkgcb, py_warningcb) ->
  bad_callback py_newpkgcb = false ->
  bad_callback py_pkgcb = false ->
  bad_callback py_warningcb = false ->
  is_Py_None py_newpkgcb && is_Py_None py_pkgcb = false ->
  let n := PyCallable_Check py_newpkgcb in
  let p := PyCallable_Check py_pkgcb in
  let wcb := PyCallable_Check py_warningcb in
  let result (err : option string) :=
    match err with Some e => PyErr CrErr_Exception e | None => Py_RETURN_NONE end in
  py_xml_parse_primary lib args5
  = (result (cr_xml_parse_primary lib filename n p wcb do_files),
     [Call_cr_xml_parse_primary filename n p wcb do_files])
  /\ py_xml_parse_filelists lib args4
     = (result (cr_xml_parse_filelists lib filename n p wcb),
        [Call_cr_xml_parse_filelists filename n p wcb])
  /\ py_xml_parse_other lib args4
     = (result (cr_xml_parse_other lib filename n p wcb),
        [Call_cr_xml_parse_other filename n p wcb]).
Proof.
  intros H5 H4 Hn Hp Hw Hboth. cbv zeta.
  unfold py_xml_parse_primary, py_xml_parse_filelists, py_xml_parse_other.
  rewrite H5, H4. cbn beta iota. unfold bad_callback in *.
  rewrite Hn, Hp, Hw, Hboth.
  assert (En : negb (is_Py_None py_newpkgcb) = PyCallable_Check py_newpkgcb)
    by (destruct py_newpkgcb; simpl in *; congruence).
  assert (Ep : negb (is_Py_None py_pkgcb) = PyCallable_Check py_pkgcb)
    by (destruct py_pkgcb; simpl in *; congruence).
  assert (Ew : negb (is_Py_None py_warningcb) = PyCallable_Check py_warningcb)
    by (destruct py_warningcb; simpl in *; congruence).
  rewrite En, Ep, Ew.
  repeat split;
    match goal with |- context [match ?x with _ => _ end] => destruct x end;
    reflexivity.
Qed.

Lemma py_xml_parse_calls_parser_witness :
  py_xml_parse_filelists sample_lib
    [PyString "filelists.xml"; Py_None; PyFunction "pkgcb"; Py_None]
  = (Py_RETURN_NONE, [Call_cr_xml_parse_filelists "filelists.xml" false true false]).
Proof.
  refine (proj1 (proj2 (py_xml_parse_calls_parser sample_lib
            [PyString "filelists.xml"; Py_None; PyFunction "pkgcb"; Py_None; PyLong 0]
            [PyString "filelists.xml"; Py_None; PyFunction "pkgcb"; Py_None]
            "filelists.xml" Py_None (PyFunction "pkgcb") Py_None 0 _ _ _ _ _ _)));
    reflexivity.
Defined.

(** [py_xml_parse_repomd] and [py_xml_parse_updateinfo], once their argument
    tuple is parsed: a [warningcb] that is callable or [None] makes them
    call their C parser once, with the C warning callback exactly for a
    callable one, and raise the parser's error if it left one; any other
    [warningcb] is a [TypeError] and no parser is called.  When the argument
    tuple does not parse, its error is what they raise, and no parser is
    called; so it is for a file name with an embedded NUL, whatever the
    other arguments are. *)
Theorem py_xml_parse_md_calls (lib : MdParserLib) (args_r args_u : list PyArg)
    (filename repomd updateinfo : string) (py_warningcb : PyArg) :
  PyArg_ParseTuple_sRepomdO args_r = inr (filename, repomd, py_warningcb) ->
  PyArg_ParseTuple_sUpdateInfoO args_u = inr (filename, updateinfo, py_warningcb) ->
  py_xml_parse_repomd lib args_r
  = (if arg_callable py_warningcb || arg_is_None py_warningcb then
       (match cr_xml_parse_repomd lib filename repomd (arg_callable py_warningcb) with
        | Some e => PyErr CrErr_Exception e
        | None => Py_RETURN_NONE
        end,
        [Call_cr_xml_parse_repomd filename repomd (arg_callable py_warningcb)])
     else (PyErr PyExc_TypeError "warningcb must be callable or None", []))
  /\ py_xml_parse_updateinfo lib args_u
     = (if arg_callable py_warningcb || arg_is_None py_warningcb then
          (match cr_xml_parse_updateinfo lib filename updateinfo
                   (arg_callable py_warningcb) with
           | Some e => PyErr CrErr_Exception e
           | None => Py_RETURN_NONE
           end,
           [Call_cr_xml_parse_updateinfo filename updateinfo
              (arg_callable py_warningcb)])
        else (PyErr PyExc_TypeError "warningcb must be callable or None", []))
  /\ (forall args err, PyArg_ParseTuple_sRepomdO args = inl err ->
        py_xml_parse_repomd lib args = (err, []))
  /\ (forall args err, PyArg_ParseTuple_sUpdateInfoO args = inl err ->
        py_xml_parse_updateinfo lib args = (err, []))
  /\ (forall name o c, has_nul name = true ->
        py_xml_parse_repomd lib [ArgObject (PyString name); o; c]
        = (embedded_null_error, [])
        /\ py_xml_parse_updateinfo lib [ArgObject (PyString name); o; c]
           = (embedded_null_error, [])).
Proof.
  intros Hr Hu. split; [|split; [|split; [|split]]].
  - unfold py_xml_parse_repomd. rewrite Hr. cbn beta iota.
    destruct py_warningcb as [[]| |]; cbn;
      try destruct (cr_xml_parse_repomd _ _ _ _); reflexivity.
  - unfold py_xml_parse_updateinfo. rewrite Hu. cbn beta iota.
    destruct py_warningcb as [[]| |]; cbn;
      try destruct (cr_xml_parse_updateinfo _ _ _ _); reflexivity.
  - intros args err Herr. unfold py_xml_parse_repomd. rewrite Herr. reflexivity.
  - intros args err Herr. unfold py_xml_parse_updateinfo. rewrite Herr. reflexivity.
  - intros name o c Hnul.
    unfold py_xml_parse_repomd, py_xml_parse_updateinfo,
      PyArg_ParseTuple_sRepomdO, PyArg_ParseTuple_sUpdateInfoO.
    rewrite Hnul. split; reflexivity.
Qed.

Lemma py_xml_parse_md_calls_witness :
  py_xml_parse_repomd sample_md_lib
    [ArgObject (PyString "repomd.xml"); ArgRepomd "repomd";
     ArgObject (PyFunction "warn")]
  = (Py_RETURN_NONE, [Call_cr_xml_parse_repomd "repomd.xml" "repomd" true])
  /\ py_xml_parse_updateinfo sample_md_lib
       [ArgObject (PyString "repomd.xml"); ArgUpdateInfo "updateinfo";
        ArgObject (PyFunction "warn")]
     = (PyErr CrErr_Exception "parse error",
        [Call_cr_xml_parse_updateinfo "repomd.xml" "updateinfo" true]).
Proof.
  destruct (py_xml_parse_md_calls sample_md_lib
              [ArgObject (PyString "repomd.xml"); ArgRepomd "repomd";
               ArgObject (PyFunction "warn")]
              [ArgObject (PyString "repomd.xml"); ArgUpdateInfo "updateinfo";
               ArgObject (PyFunction "warn")]
              "repomd.xml" "repomd" "updateinfo" (ArgObject (PyFunction "warn")))
    as (Hrepomd & Hupdateinfo & _).
  - reflexivity.
  - reflexivity.
  - split; [exact Hrepomd | exact Hupdateinfo].
Defined.

(** ** [xml_parser-py.c]: the callbacks and their references *)

Lemma PyRef_eqb_refl r : PyRef_eqb r r = true.
Proof. destruct r; simpl; auto using Nat.eqb_refl. Qed.

Lemma Py_DECREF_head r refs : Py_DECREF r (r :: refs) = Some refs.
Proof. simpl. rewrite PyRef_eqb_refl. reflexivity. Qed.

(** [c_newpkgcb]: what it returns for each answer of the Python callback.
    An exception is passed on as a C error; an answer that is neither a
    package nor [None] sets a [TypeError] and returns an error without
    setting the C error; [None] skips the package; a package becomes the
    current one.  The previous current package is released in every case,
    and the C code is left holding the current package and nothing else. *)
Theorem c_newpkgcb_result (result : option PyRef) (data : CbData) :
  owns_current data ->
  exists ret pkg data',
    c_newpkgcb result data = Some (ret, pkg, data')
    /\ owns_current data'
    /\ match result with
       | None =>
           ret = CR_CB_RET_ERR /\ pkg = None /\ py_pkg data' = None
           /\ gerror data' = true /\ py_exception data' = py_exception data
       | Some (RefPackage id) =>
           ret = CR_CB_RET_OK /\ pkg = Some id /\ py_pkg data' = Some id
           /\ gerror data' = gerror data /\ py_exception data' = py_exception data
       | Some RefNone =>
           ret = CR_CB_RET_OK /\ pkg = None /\ py_pkg data' = None
           /\ gerror data' = gerror data /\ py_exception data' = py_exception data
       | Some _ =>
           ret = CR_CB_RET_ERR /\ pkg = None /\ py_pkg data' = None
           /\ gerror data' = gerror data
           /\ py_exception data' = Some PyExc_TypeError
       end.
Proof.
  unfold owns_current, c_newpkgcb, with_arglist. intros Hown. rewrite Hown.
  destruct (py_pkg data) as [p|]; cbn [Py_DECREF PyRef_eqb mbind option_bind];
    rewrite ?Nat.eqb_refl; cbn [mbind option_bind fmap option_fmap option_map];
    destruct result as [[|id|id|]|]; cbn; rewrite ?Nat.eqb_refl; cbn;
    do 3 eexists; (split; [reflexivity|]); cbn; auto 10.
Qed.

Lemma c_newpkgcb_result_witness :
  exists data',
    c_newpkgcb (Some (RefOther 7%nat))
      {| py_pkg := Some 1%nat; owned := [RefPackage 1%nat]; gerror := false;
         py_exception := None |}
    = Some (CR_CB_RET_ERR, None, data')
    /\ gerror data' = false
    /\ py_exception data' = Some PyExc_TypeError.
Proof.
  destruct (c_newpkgcb_result (Some (RefOther 7%nat))
              {| py_pkg := Some 1%nat; owned := [RefPackage 1%nat]; gerror := false;
                 py_exception := None |})
    as (ret & pkg & data' & Hres & _ & -> & -> & _ & Herr & Hexc).
  - reflexivity.
  - exists data'. split; [exact Hres|]. split; [exact Herr | exact Hexc].
Defined.

(** [c_pkgcb]: afterwards there is no current package and the C code holds
    no reference, whether the package object was the current one or made
    for the call; it returns an error exactly when the Python callback
    raised, and then the C error is set. *)
Theorem c_pkgcb_result (fresh : nat) (result : option PyRef) (data : CbData) :
  owns_current data ->
  exists ret data',
    c_pkgcb fresh result data = Some (ret, data')
    /\ py_pkg data' = None
    /\ owned data' = []
    /\ (ret = CR_CB_RET_ERR <-> result = None)
    /\ (gerror data' = true <-> gerror data = true \/ result = None).
Proof.
  unfold owns_current, c_pkgcb, with_arglist. intros Hown. rewrite Hown.
  destruct (py_pkg data) as [p|]; cbn [Py_DECREF PyRef_eqb mbind option_bind];
    rewrite ?Nat.eqb_refl; cbn [mbind option_bind];
    destruct result as [r|]; rewrite ?Py_DECREF_head; cbn;
    rewrite ?PyRef_eqb_refl; cbn;
    do 2 eexists; (split; [reflexivity|]); cbn;
    (split; [reflexivity|]; split; [reflexivity|]; split);
    split; intros; try discriminate; try congruence; auto;
    destruct H; congruence.
Qed.

Lemma c_pkgcb_result_witness :
  exists data',
    c_pkgcb 2%nat None cbdata_init = Some (CR_CB_RET_ERR, data')
    /\ owned data' = [].
Proof.
  destruct (c_pkgcb_result 2%nat None cbdata_init)
    as (ret & data' & Hres & _ & Hown & Hret & _).
  - reflexivity.
  - exists data'. split; [|exact Hown].
    rewrite Hres, (proj2 Hret eq_refl). reflexivity.
Defined.

(** Each callback leaves the C code holding the current package and nothing
    else, if it found it so. *)
Lemma cb_call_owns c data :
  owns_current data ->
  exists r, cb_call c data = Some r /\ owns_current (snd r).
Proof.
  unfold owns_current. intros Hown.
  destruct c as [result|fresh result|result];
    unfold cb_call, c_newpkgcb, c_pkgcb, c_warningcb, with_arglist; rewrite Hown;
    destruct (py_pkg data) as [p|]; cbn [Py_DECREF PyRef_eqb mbind option_bind];
    rewrite ?Nat.eqb_refl; cbn [mbind option_bind fmap option_fmap option_map];
    destruct result as [[|id|id|]|]; cbn; rewrite ?Nat.eqb_refl; cbn;
    eexists; (split; [reflexivity|]); reflexivity.
Qed.

(** Whatever the parser calls and whatever the Python callbacks answer, the
    callbacks never give up a reference the C code does not hold, and after
    the entry point's final [Py_XDECREF (cbdata.py_pkg)] it holds none. *)
Theorem callbacks_release_all (cs : list CbCall) :
  exists data,
    cb_calls cs cbdata_init = Some data
    /\ Py_XDECREF_py_pkg data = Some [].
Proof.
  assert (H : forall data, owns_current data ->
            exists data', cb_calls cs data = Some data' /\ owns_current data').
  { induction cs as [|c cs IH]; intros data Hown; cbn [cb_calls].
    - eauto.
    - destruct (cb_call_owns c data Hown) as (r & -> & Hown').
      cbn. apply IH, Hown'. }
  destruct (H cbdata_init eq_refl) as (data & Hrun & Hown).
  exists data. split; [exact Hrun|].
  unfold Py_XDECREF_py_pkg. rewrite Hown.
  destruct (py_pkg data); [apply Py_DECREF_head | reflexivity].
Qed.
